(* ===== verification/_CoqProject ===== *)
-Q . S2P
Prelude.v
CStr.v
Abi.v
Kernel.v
KernelModel.v
Registry.v
Describe.v
Poller.v
Reader.v
MainLoop.v
PerFile.v
Scenarios.v
