(* ===== verification/Prelude.v ===== *)
(** * Verification of yuansl/inotify: a file-change watcher on inotify + epoll

    The program ([src/main.c], [src/poller.c], [src/poller.h], [src/util.h])
    watches the paths given on its command line with one inotify instance,
    waits for the inotify descriptor to become readable through a small
    poller interface backed by epoll, drains the descriptor, decodes each
    [struct inotify_event], prints a line per event and, on [IN_CREATE],
    adds a watch on the created entry.

    ** Parts of the program and how they interact

    - Poller ([poller.h], [poller.c]): a [struct poller] of three function
      pointers ([poll_add], [poll_delete], [poll]) implemented by
      [struct epoll_poller], which embeds the interface and recovers itself
      with [container_of].
    - WatchRegistry ([main.c]: [struct inotify], [register_inotify_files],
      [indexof], [path_of]): a fixed array, one slot per command-line path,
      a slot left zeroed when its watch could not be added.
    - NotificationReader ([main.c]: [read_inotify_events]): reads the
      inotify descriptor into a static buffer until [EAGAIN] and decodes
      the buffer as one [struct inotify_event].
    - EventDispatcher ([main.c]: [inspect_inotify_event] and the body of
      the read loop): describes the mask, prints the event line, and adds a
      watch on [IN_CREATE].
    - MainLoop ([main.c]: [inotify_all_file], [main]): registers the paths,
      prints them, creates the poller, adds the inotify descriptor and
      loops for ever on poll / drain.

    The kernel is not part of the program: inotify and epoll are consumed
    through interfaces ([Kernel.v]) whose laws state what the program may
    rely on, with one executable instance used by the witnesses. epoll is
    modelled edge-triggered where the code asks for it ([EPOLLET]): an
    instance keeps a ready list of wakeups, which new records bring and
    [epoll_wait]'s reports consume.

    ** Files (in dependency order) and what they model

    - [Prelude.v] (this file): the outcome/state monad every stateful
      routine runs in ([outcome] = [Done] / [Fatal] (the process exits
      with [EXIT_FAILURE]) / [Blocked] (waits for ever) / [NoFuel];
      notation [x <- c ;; k] in [cprog_scope]), 32-bit wrap-around
      ([u32], [s32]), bit tests ([m &? b]), little-endian bytes, [%d]
      ([fmt_d]) with its round trip and length bound, the hint databases.
    - [CStr.v]: [strstr], C strings read out of byte buffers.
    - [Abi.v]: the [IN_*] bits, [default_events], [struct inotify_event]
      decoded from the static read buffer ([decode_event]), what [read]
      leaves in it ([buf_store]), the kernel's record encoding.
    - [Kernel.v]: the system calls as the class [Kernel] over an abstract
      kernel state, their promises as [KernelLaws]; the process [world]
      (kernel, stdout, stderr); [syscall], [print], [eprint], [fatal]
      ([util.h]).
    - [KernelModel.v]: an executable kernel (files, inotify instances
      with queues, epoll interest lists and ready lists, pending signals)
      and the proof
      that it satisfies [KernelLaws]: the laws are consistent, and the
      program can be run.
    - [Registry.v] (WatchRegistry): [inotify], [inotify_context],
      [indexof], [path_of], [register_inotify_files].
    - [Describe.v] (EventDispatcher, description): [CONCAT_INOTIFY_EVENT],
      [inspect_inotify_event].
    - [Poller.v] (Poller): [struct poller] as a record of operations, the
      epoll backend ([epoll_operate], [epoll_poll], [poller_create], ...),
      the interface [poller_spec] the main loop relies on and its proof
      for the backend ([epoll_poller_spec]).
    - [Reader.v] (NotificationReader and EventDispatcher, side effects):
      the process state with the static [buf] ([pstate]), [dispatch_event],
      [read_loop] = [read_inotify_events].
    - [MainLoop.v] (MainLoop, Teardown): [main_start] ([main] and the
      start of [inotify_all_file]), one turn [main_iter] of the
      [for (;;)] loop, the running process as the step relation
      [sys_step] interleaving turns with changes made by other processes;
      and the whole of [main] and [inotify_all_file] ([main], with the
      loop given [n] turns as [main_loop] and the teardown
      [poller_destroy], [inotify_context_destroy] after it).
    - [PerFile.v]: the unused [inotify_per_file] (one inotify instance
      per argument, level-triggered epoll, a stack buffer read once per
      ready descriptor) and the [%03o] it prints masks with ([fmt_03o]).
    - [Scenarios.v]: the whole program run on [KernelModel]'s kernel: a
      few of the spec's scenarios as tests, and the witnesses of the
      theorems over the kernel interface.

    ** What the theorems show

    - Interface-level invariants of the running program: the inotify
      descriptor stays the only descriptor registered with the poller
      ([inotify_fd_stays_registered], [running_invariant]); every turn of
      the loop ends ([main_iter_runs]) and leaves every descriptor its
      poll reported drained ([main_iter_drains],
      [read_inotify_events_drains]); every drain ends
      ([read_loop_terminates]); the start prints and registers what it
      should ([main_start_spec], [main_usage]).
    - Edge-triggered notification: because every turn drains what [poll]
      reported, records queued on the inotify descriptor always have a
      wakeup pending, so in every reachable state the next turn does not
      block while records wait ([inotify_no_lost_wakeup]); when
      [epoll_wait] reports only events [epoll_poll] drops, the turn
      drains descriptor [0] [NUM_EVENTS] times
      ([main_iter_nothing_kept]).
    - EventDispatcher and NotificationReader: the lines the dispatcher
      prints and the one [inotify_add_watch] it makes on [IN_CREATE]
      ([dispatch_event_spec]); the drain's fatal error path and its
      silent skip of stale handles ([read_loop_fatal],
      [read_loop_stale_handle]); one [read] that returns several records
      dispatches only the first ([read_loop_head_only]).
    - WatchRegistry: the registry's shape and meaning after registration
      ([register_inotify_files_slots], [register_inotify_files_outcome],
      [register_handles_distinct]) and its error reports
      ([register_reports_failures]);
      [indexof] equals [list_find] ([indexof_spec]) and never finds an
      empty slot for a kernel descriptor ([indexof_filled]); [path_of]
      equals the spec's resolution exactly off its substring heuristic
      ([path_of_resolve]), stays within [char path[PATH_MAX]] when the
      inputs leave room ([path_of_fits]) and overflows it exactly when
      its length reaches [PATH_MAX] ([path_of_overflow]).
    - Poller: the loop of [epoll_poll] equals a reference definition
      ([epoll_poll_loop_ref]); against what [epoll_wait] returned, the
      backend refines the poller contract, and hands back the caller's
      array only when it keeps no event ([epoll_poll_refines]).
    - Decoding and description: the round trip of the record layout,
      and the stale name of nameless records ([decode_event_encode],
      [decode_nameless_stale]); the description's content, bound and
      cookie ([inspect_desc_spec], [inspect_desc_bound],
      [inspect_cookie_roundtrip]).
    - The unused watcher: a setup that returns watched every argument and
      registered each instance for [EPOLLIN] with itself as data
      ([per_file_setup_spec]); each ready descriptor gets its line, one
      [read], and the line of the record at the head of what the read
      left in the stack buffer, or a fatal exit ([per_file_events_read]).

    ** Bounds and fuel

    Loops over data are structural, and the registration loop counts
    its [len] iterations as the C loop does. The loop whose length the
    kernel decides, [read_loop] (the drain), is fuelled.
    [read_loop_terminates] shows that fuel above the kernel's pending
    work on the descriptor ([obs_pending]: queued records plus pending
    signals, which every successful [read] or [EINTR] decreases by the
    law [read_progress]) is enough, so [NoFuel] never stands for a
    behaviour of the code; [main_iter_runs] does the same for a turn of
    the loop, with fuel above the pending work of every descriptor; the scenarios use fuel 10,
    above the at most 3 records any script queues. The infinite
    [for (;;)] loop is not fuelled: it is the relation [sys_step], and its
    properties are proved for every finite run by induction on steps.
    Where the whole of [main] or [inotify_per_file] is a routine, the loop
    is given [n] turns and ends in [NoFuel] after them (the process is
    still running); the code after the loop ([poller_destroy],
    [inotify_context_destroy], [return 0]) is composed as written but
    unreachable, since the [for (;;)] has no exit. [%03o] takes eleven
    3-bit digits, which cover the 33 bits above a [uint32_t].
    Integers are [Z] with the code's widths made explicit: the mask and
    cookie are [uint32_t] read as [int] ([s32]), [%d] prints an [int].

    ** Not modelled

    The kernel itself (only its contract and one executable instance);
    [printf] is not code of the repository: only the conversions the
    program uses are written ([%d], [%03o], [%s], [%m]); argument parsing
    beyond [argc < 2]; freeing memory ([poller_destroy] and
    [inotify_context_destroy] change neither the kernel nor the output);
    allocation failures ([malloc]/[calloc] are assumed to succeed); the
    write past [path_of]'s [char path[PATH_MAX]] is shown as a length
    ([path_of_overflow]), not modelled as undefined behaviour. Other
    processes act between turns of the loop, not inside one: records that
    arrive during a drain are modelled as arriving after it. The law that
    [read] never blocks stands for the [IN_NONBLOCK] flag of the only
    descriptor the loop reads besides descriptor [0]. *)

From stdpp Require Export base list strings option relations.
From Stdlib Require Export ZArith Lia DecimalString DecimalZ Ascii.

Declare Scope cprog_scope.
Delimit Scope cprog_scope with cprog.

(** ** Outcomes of a C routine

    A routine either returns with its value and the new state, stops the
    process through [fatal] (the message and the state at that point are
    kept, so the output printed before the crash is observable), waits for
    ever in a system call that never returns ([Blocked], with the state at
    that point), or runs out of the fuel its model was given. *)

Inductive outcome (S A : Type) : Type :=
| Done (a : A) (s : S)
| Fatal (msg : string) (s : S)
| Blocked (s : S)
| NoFuel.
Arguments Done {S A} a s.
Arguments Fatal {S A} msg s.
Arguments Blocked {S A} s.
Arguments NoFuel {S A}.

Definition M (S A : Type) : Type := S -> outcome S A.

Definition mret {S A} (a : A) : M S A := fun s => Done a s.

Definition mbind {S A B} (c : M S A) (k : A -> M S B) : M S B :=
  fun s => match c s with
           | Done a s' => k a s'
           | Fatal m s' => Fatal m s'
           | Blocked s' => Blocked s'
           | NoFuel => NoFuel
           end.

Definition mget {S} : M S S := fun s => Done s s.
Definition mput {S} (s : S) : M S unit := fun _ => Done tt s.
Definition mmodify {S} (f : S -> S) : M S unit := fun s => Done tt (f s).
Definition mfatal {S A} (msg : string) : M S A := fun s => Fatal msg s.
Definition mnofuel {S A} : M S A := fun _ => NoFuel.

Notation "x <- c ;; k" := (mbind c (fun x => k))
  (at level 98, c at next level, right associativity) : cprog_scope.
Notation "c ;;; k" := (mbind c (fun _ => k))
  (at level 98, right associativity) : cprog_scope.

Lemma mbind_done {S A B} (c : M S A) (k : A -> M S B) s a s' :
  c s = Done a s' -> mbind c k s = k a s'.
Proof. intros H. unfold mbind. by rewrite H. Qed.

Lemma mbind_fatal {S A B} (c : M S A) (k : A -> M S B) s m s' :
  c s = Fatal m s' -> mbind c k s = Fatal m s'.
Proof. intros H. unfold mbind. by rewrite H. Qed.

Lemma mbind_nofuel {S A B} (c : M S A) (k : A -> M S B) s :
  c s = NoFuel -> mbind c k s = NoFuel.
Proof. intros H. unfold mbind. by rewrite H. Qed.

Lemma mbind_assoc {S A B C} (c : M S A) (k : A -> M S B) (k' : B -> M S C) s :
  mbind (mbind c k) k' s = mbind c (fun a => mbind (k a) k') s.
Proof. unfold mbind. by destruct (c s). Qed.

Lemma mbind_ret_l {S A B} (a : A) (k : A -> M S B) s : mbind (mret a) k s = k a s.
Proof. reflexivity. Qed.

Lemma mbind_done_inv {S A B} (c : M S A) (k : A -> M S B) s b s'' :
  mbind c k s = Done b s'' -> exists a s', c s = Done a s' /\ k a s' = Done b s''.
Proof. unfold mbind. destruct (c s); try discriminate. eauto. Qed.

Create HintDb cprog discriminated.
Create Rewrite HintDb cprog_rw.
#[export] Hint Rewrite @mbind_ret_l @mbind_assoc : cprog_rw.


(** ** Machine integers

    The program stores [int] (32-bit signed) and [uint32_t] values; both are
    kept as [Z] with the conversions written out. [u32 z] is the value a
    [uint32_t] holds after the assignment of [z]; [s32 z] is the value of
    the same 32 bits read as an [int] (two's complement), which is what a
    [uint32_t] becomes when it is passed to [printf("%d")]. *)

Open Scope Z_scope.

Definition u32 (z : Z) : Z := z mod 2 ^ 32.
Definition s32 (z : Z) : Z := (z + 2 ^ 31) mod 2 ^ 32 - 2 ^ 31.

(** [m &? b]: the C test [m & b] (non-zero). *)
Definition mask_has (m b : Z) : bool := negb (Z.land m b =? 0).
Notation "m &? b" := (mask_has m b) (at level 40, no associativity) : cprog_scope.

Lemma u32_range z : 0 <= u32 z < 2 ^ 32.
Proof. unfold u32. apply Z.mod_pos_bound. lia. Qed.

Lemma u32_id z : 0 <= z < 2 ^ 32 -> u32 z = z.
Proof. intros. unfold u32. by apply Z.mod_small. Qed.

Lemma s32_range z : - 2 ^ 31 <= s32 z < 2 ^ 31.
Proof. unfold s32. pose proof (Z.mod_pos_bound (z + 2 ^ 31) (2 ^ 32)). lia. Qed.

Lemma s32_small z : 0 <= z < 2 ^ 31 -> s32 z = z.
Proof.
  intros. unfold s32. rewrite Z.mod_small; lia.
Qed.

Lemma s32_high z : 2 ^ 31 <= z < 2 ^ 32 -> s32 z = z - 2 ^ 32.
Proof.
  intros. unfold s32.
  replace (z + 2 ^ 31) with ((z - 2 ^ 31) + 1 * 2 ^ 32) by lia.
  rewrite Z.mod_add, Z.mod_small; lia.
Qed.

Lemma u32_s32 z : 0 <= z < 2 ^ 32 -> u32 (s32 z) = z.
Proof.
  intros Hz. unfold u32. destruct (Z.ltb_spec z (2 ^ 31)).
  - rewrite s32_small by lia. by apply Z.mod_small.
  - rewrite s32_high by lia. replace (z - 2 ^ 32) with (z + (-1) * 2 ^ 32) by lia.
    rewrite Z.mod_add by lia. by apply Z.mod_small.
Qed.

(** ** Bytes

    A byte is a [Z] in [0, 256); memory read as an integer is little-endian
    (the program runs on x86-64 and aarch64 Linux). *)

Definition byte_ok (b : Z) : Prop := 0 <= b < 256.

Fixpoint le_decode (bs : list Z) : Z :=
  match bs with
  | [] => 0
  | b :: t => b + 256 * le_decode t
  end.

Fixpoint le_encode (n : nat) (z : Z) : list Z :=
  match n with
  | O => []
  | S n' => z mod 256 :: le_encode n' (z / 256)
  end.

Lemma length_le_encode n z : length (le_encode n z) = n.
Proof. revert z. induction n; intros; simpl; auto. Qed.

Lemma le_encode_bytes n z : Forall byte_ok (le_encode n z).
Proof.
  revert z. induction n as [|n IH]; intros z; constructor; auto.
  unfold byte_ok. apply Z.mod_pos_bound. lia.
Qed.

Lemma le_decode_encode n z : le_decode (le_encode n z) = z mod 256 ^ Z.of_nat n.
Proof.
  revert z. induction n as [|n IH]; intros z.
  - simpl. by rewrite Z.mod_1_r.
  - cbn [le_encode le_decode]. rewrite IH.
    rewrite Nat2Z.inj_succ, Z.pow_succ_r by lia.
    rewrite Z.rem_mul_r by lia. reflexivity.
Qed.

Lemma le_decode_range bs :
  Forall byte_ok bs -> 0 <= le_decode bs < 256 ^ Z.of_nat (length bs).
Proof.
  induction 1 as [|b t Hb _ IH]; simpl; [lia|].
  unfold byte_ok in Hb. rewrite Nat2Z.inj_succ, Z.pow_succ_r by lia. nia.
Qed.

(** ** [printf("%d")]

    The decimal text of an integer, as [printf]'s [%d] writes it: an
    optional minus sign and the digits, no leading zeros, ["0"] for zero. *)

Definition fmt_d (z : Z) : string := NilZero.string_of_int (Z.to_int z).

Lemma Z_to_int_not_nil z : Z.to_int z <> Decimal.Pos Decimal.Nil /\ Z.to_int z <> Decimal.Neg Decimal.Nil.
Proof.
  destruct z as [|p|p]; simpl; split; try discriminate;
    unfold Pos.to_int; destruct (Pos.to_uint p) eqn:E; try discriminate;
    pose proof (DecimalPos.Unsigned.to_uint_nonnil p); contradiction.
Qed.

(** Reading the digits back gives the integer back. *)
Lemma fmt_d_roundtrip z :
  option_map Z.of_int (NilZero.int_of_string (fmt_d z)) = Some z.
Proof.
  unfold fmt_d. destruct (Z_to_int_not_nil z) as [H1 H2].
  rewrite NilZero.isi by assumption. simpl. by rewrite DecimalZ.of_to.
Qed.

(** The length of [%d]'s text: at most one sign and as many digits as the
    binary length of the value. *)
Lemma nb_digits_double d :
  (Decimal.nb_digits (Decimal.Little.double d) <= S (Decimal.nb_digits d))%nat /\
  (Decimal.nb_digits (Decimal.Little.succ_double d) <= S (Decimal.nb_digits d))%nat.
Proof. induction d; simpl; lia. Qed.

Lemma nb_digits_to_uint p : (Decimal.nb_digits (Pos.to_uint p) <= Pos.size_nat p)%nat.
Proof.
  unfold Pos.to_uint. rewrite DecimalFacts.nb_digits_rev.
  induction p as [p IH|p IH|]; simpl; [| |lia];
    pose proof (nb_digits_double (Pos.to_little_uint p)); lia.
Qed.

Lemma length_string_of_uint d :
  String.length (NilEmpty.string_of_uint d) = Decimal.nb_digits d.
Proof. induction d; simpl; auto. Qed.

Lemma length_nilzero_uint d :
  (String.length (NilZero.string_of_uint d) <= Nat.max 1 (Decimal.nb_digits d))%nat.
Proof.
  destruct d; unfold NilZero.string_of_uint; rewrite ?length_string_of_uint; simpl; lia.
Qed.

Lemma pow_size_nat p : 2 ^ Z.of_nat (Pos.size_nat p) <= 2 * Z.pos p.
Proof.
  induction p as [p IH|p IH|]; [| |simpl; lia];
  change (Pos.size_nat _) with (S (Pos.size_nat p));
  rewrite Nat2Z.inj_succ, Z.pow_succ_r by lia.
  - rewrite (Pos2Z.inj_xI p). lia.
  - rewrite (Pos2Z.inj_xO p). lia.
Qed.

Lemma size_nat_32 p : Z.pos p < 2 ^ 32 -> (Pos.size_nat p <= 33)%nat.
Proof.
  intros Hp. pose proof (pow_size_nat p) as Hs.
  destruct (Nat.le_gt_cases (Pos.size_nat p) 33) as [|Hgt]; [done|].
  assert (2 ^ 34 <= 2 ^ Z.of_nat (Pos.size_nat p)) by (apply Z.pow_le_mono_r; lia).
  lia.
Qed.

Lemma length_fmt_d z :
  - 2 ^ 32 < z < 2 ^ 32 -> (String.length (fmt_d z) <= 34)%nat.
Proof.
  intros Hz. unfold fmt_d.
  destruct z as [|p|p]; [simpl; lia| |]; cbn [Z.to_int NilZero.string_of_int String.length];
    pose proof (length_nilzero_uint (Pos.to_uint p)); pose proof (nb_digits_to_uint p);
    pose proof (size_nat_32 p); lia.
Qed.

Lemma length_fmt_d_witness :
  - 2 ^ 32 < -2147483648 < 2 ^ 32 /\ (String.length (fmt_d (-2147483648)) <= 34)%nat.
Proof. split; [lia|]. apply length_fmt_d. lia. Defined.
