(* ===== verification/CStr.v ===== *)
(** * C strings: the libc routines the program calls

    A NUL-terminated C string is modelled by the [string] of its bytes
    before the terminator. [strlen], [strcpy] and [strcat] are then
    [String.length], the identity and [+:+]; [strstr] is modelled by the
    index of the first occurrence ([strstr_idx]), with its specification
    proved. A C string stored in a byte buffer is read by [cstr_of_bytes],
    which stops at the first NUL. *)

From S2P Require Import Prelude.

Local Open Scope string_scope.

(** ** [strstr] *)

(** [strstr_idx h n]: the offset of the first occurrence of [n] in [h]
    ([strstr] returns [h + offset], or [NULL] for [None]). *)
Fixpoint strstr_idx (h n : string) : option nat :=
  if String.prefix n h then Some 0%nat
  else match h with
       | EmptyString => None
       | String _ h' => S <$> strstr_idx h' n
       end.

(** [strstr(h, n) != NULL] *)
Definition strstr_found (h n : string) : bool := bool_decide (is_Some (strstr_idx h n)).

Lemma append_String c s t : String c s +:+ t = String c (s +:+ t).
Proof. reflexivity. Qed.

Lemma append_nil_r s : s +:+ "" = s.
Proof. induction s as [|c s IH]; [done|]. by rewrite append_String, IH. Qed.

Lemma append_assoc_str s t u : s +:+ (t +:+ u) = (s +:+ t) +:+ u.
Proof. induction s as [|c s IH]; [done|]. rewrite !append_String. by rewrite IH. Qed.

Lemma length_append s t : String.length (s +:+ t) = (String.length s + String.length t)%nat.
Proof. induction s as [|c s IH]; [done|]. rewrite append_String. simpl. by rewrite IH. Qed.

Lemma prefix_append_spec n h : String.prefix n h = true <-> exists t, h = n +:+ t.
Proof.
  revert h. induction n as [|c n IH]; intros [|c' h]; simpl.
  - split; [intros _; by exists "" | done].
  - split; [intros _; by exists (String c' h) | done].
  - split; [done|]. intros [t Ht]. discriminate.
  - destruct (Ascii.ascii_dec c c') as [<-|Hne].
    + rewrite IH. split; intros [t Ht]; exists t; rewrite ?append_String in *; congruence.
    + split; [done|]. intros [t Ht]. rewrite append_String in Ht. congruence.
Qed.

(** [strstr] finds [n] exactly when [n] is a substring of [h]. *)
Lemma strstr_found_spec h n :
  strstr_found h n = true <-> exists a b, h = a +:+ n +:+ b.
Proof.
  unfold strstr_found. rewrite bool_decide_eq_true.
  induction h as [|c h IH]; cbn [strstr_idx];
    [destruct (String.prefix n "") eqn:E|destruct (String.prefix n (String c h)) eqn:E].
  1,3: split; [intros _ | intros _; by econstructor];
    apply prefix_append_spec in E as [t Ht]; by exists "", t.
  - split; [by intros []|]. intros ([|c' a] & b & Hab); [|discriminate].
    assert (String.prefix n "" = true) by (apply prefix_append_spec; by exists b).
    congruence.
  - rewrite fmap_is_Some, IH. split.
    + intros (a & b & ->). by exists (String c a), b.
    + intros ([|c' a] & b & Hab); simpl in Hab; rewrite ?append_String in Hab.
      * assert (String.prefix n (String c h) = true)
          by (apply prefix_append_spec; by exists b). congruence.
      * injection Hab as -> ->. by exists a, b.
Qed.

(** The empty string is found in every string. *)
Lemma strstr_found_empty h : strstr_found h "" = true.
Proof. apply strstr_found_spec. exists "", h. by rewrite ?append_nil_r. Qed.

Lemma strstr_found_self h : strstr_found h h = true.
Proof. apply strstr_found_spec. exists "", "". by rewrite ?append_nil_r. Qed.

(** ** Bytes and C strings *)

Definition ascii_of_byte (b : Z) : Ascii.ascii := Ascii.ascii_of_N (Z.to_N b).
Definition byte_of_ascii (c : Ascii.ascii) : Z := Z.of_N (Ascii.N_of_ascii c).

Definition bytes_of_string (s : string) : list Z :=
  byte_of_ascii <$> String.list_ascii_of_string s.

(** The C string starting at the head of a byte buffer: the bytes up to
    the first NUL. The buffers the program reads are NUL-terminated inside
    the buffer (see [Abi.v]); the model stops at the end of the buffer. *)
Fixpoint cstr_of_bytes (bs : list Z) : string :=
  match bs with
  | [] => ""
  | b :: t => if Z.eqb b 0 then "" else String (ascii_of_byte b) (cstr_of_bytes t)
  end.

(** A string contains no NUL byte (every C string of the program). *)
Definition no_nul (s : string) : Prop := Forall (fun c => c <> Ascii.zero) (String.list_ascii_of_string s).

Lemma byte_of_ascii_ok c : byte_ok (byte_of_ascii c).
Proof.
  unfold byte_ok, byte_of_ascii. pose proof (Ascii.N_ascii_bounded c). lia.
Qed.

Lemma bytes_of_string_ok s : Forall byte_ok (bytes_of_string s).
Proof.
  unfold bytes_of_string. apply Forall_fmap, Forall_forall. intros. apply byte_of_ascii_ok.
Qed.

Lemma length_bytes_of_string s : length (bytes_of_string s) = String.length s.
Proof.
  unfold bytes_of_string. rewrite length_fmap.
  induction s as [|c s IH]; simpl; auto.
Qed.

Lemma ascii_of_byte_of_ascii c : ascii_of_byte (byte_of_ascii c) = c.
Proof. unfold ascii_of_byte, byte_of_ascii. by rewrite N2Z.id, Ascii.ascii_N_embedding. Qed.

Lemma byte_of_ascii_zero c : c <> Ascii.zero -> Z.eqb (byte_of_ascii c) 0 = false.
Proof.
  intros Hc. apply Z.eqb_neq. intros H. apply Hc.
  rewrite <- (ascii_of_byte_of_ascii c), H. reflexivity.
Qed.

(** A C string written into a buffer and followed by a NUL reads back. *)
Lemma cstr_of_bytes_string s rest :
  no_nul s -> cstr_of_bytes (bytes_of_string s ++ 0%Z :: rest) = s.
Proof.
  unfold no_nul. induction s as [|c s IH]; intros H; [done|].
  inversion H as [|? ? Hc Hs]; subst. cbn [cstr_of_bytes bytes_of_string].
  unfold bytes_of_string in *. cbn. rewrite byte_of_ascii_zero, ascii_of_byte_of_ascii by done.
  by rewrite IH.
Qed.

Lemma cstr_of_bytes_zero rest : cstr_of_bytes (0%Z :: rest) = "".
Proof. reflexivity. Qed.

Lemma cstr_of_bytes_string_witness :
  no_nul "tmp" /\ cstr_of_bytes (bytes_of_string "tmp" ++ [0; 120; 0]) = "tmp"%string.
Proof.
  assert (Hn : no_nul "tmp") by (repeat constructor; discriminate).
  split; [exact Hn|]. exact (cstr_of_bytes_string "tmp" [120; 0] Hn).
Defined.

(** ** The last character of a C string: [s[strlen(s) - 1]] *)
Definition last_char (s : string) : option Ascii.ascii := String.get (String.length s - 1) s.

#[export] Hint Resolve strstr_found_empty strstr_found_self bytes_of_string_ok : cprog.
