(* ===== verification/Abi.v ===== *)
(** * The inotify ABI the program decodes

    The [IN_*] bits of [<sys/inotify.h>], the program's [default_events]
    mask, the sizes of its buffers, and [struct inotify_event]: the C view
    of the record ([inotify_event], what [read_inotify_events] reads
    through the cast [(struct inotify_event * )buf]) and the kernel's view
    of the record it queues ([kevent]) with the byte layout the kernel
    writes on [read] ([encode_event]). The round trip [decode_event_encode]
    shows what the program reads back from a record, including the
    nameless case, where [event->name] is whatever follows the header in
    the buffer. *)

From S2P Require Import Prelude CStr.

Local Open Scope Z_scope.

(** ** Constants of [<sys/inotify.h>] and [<limits.h>] *)

Definition IN_MODIFY : Z := 0x00000002.
Definition IN_MOVED_FROM : Z := 0x00000040.
Definition IN_MOVED_TO : Z := 0x00000080.
Definition IN_MOVE : Z := Z.lor IN_MOVED_FROM IN_MOVED_TO.
Definition IN_CREATE : Z := 0x00000100.
Definition IN_DELETE : Z := 0x00000200.
Definition IN_DELETE_SELF : Z := 0x00000400.
Definition IN_MOVE_SELF : Z := 0x00000800.
Definition IN_ISDIR : Z := 0x40000000.
Definition IN_NONBLOCK : Z := 2048. (* O_NONBLOCK, octal 04000 *)

Definition NAME_MAX : Z := 255.
Definition PATH_MAX : Z := 4096.
(** [sizeof(struct inotify_event)]: four 32-bit fields. *)
Definition EVENT_SIZE : Z := 16.

(** [static uint32_t default_events = IN_CREATE | IN_DELETE | IN_MODIFY |
    IN_MOVE | IN_MOVE_SELF | IN_DELETE_SELF;] *)
Definition default_events : Z :=
  Z.lor (Z.lor (Z.lor (Z.lor (Z.lor IN_CREATE IN_DELETE) IN_MODIFY) IN_MOVE)
           IN_MOVE_SELF) IN_DELETE_SELF.

(** [static char buf[sizeof(struct inotify_event) + NAME_MAX + 1];] *)
Definition READ_BUF_SIZE : Z := EVENT_SIZE + NAME_MAX + 1.

(** ** The C view: [struct inotify_event] *)

Record inotify_event := mk_event {
  ev_wd : Z;        (** [int wd] *)
  ev_mask : Z;      (** [uint32_t mask] *)
  ev_cookie : Z;    (** [uint32_t cookie] *)
  ev_len : Z;       (** [uint32_t len] *)
  ev_name : string  (** [char name[]], read as a C string *)
}.

(** The fields of the record at the head of the buffer, as the program
    reads them through [event = (struct inotify_event * )buf]: the four
    header words in little-endian order ([wd] as a signed [int]) and
    [event->name], the C string starting right after the header. *)
Definition decode_event (buf : list Z) : inotify_event :=
  {| ev_wd := s32 (le_decode (take 4 buf));
     ev_mask := le_decode (take 4 (drop 4 buf));
     ev_cookie := le_decode (take 4 (drop 8 buf));
     ev_len := le_decode (take 4 (drop 12 buf));
     ev_name := cstr_of_bytes (drop 16 buf) |}.

(** [read(fd, buf, n)] stores the [k] bytes it returns at the head of the
    buffer and leaves the rest of the buffer as it was. *)
Definition buf_store (buf data : list Z) : list Z := data ++ drop (length data) buf.

Lemma length_buf_store buf data :
  (length data <= length buf)%nat -> length (buf_store buf data) = length buf.
Proof. intros. unfold buf_store. rewrite length_app, length_drop. lia. Qed.

(** ** The kernel view: a queued record and its bytes *)

Record kevent := mk_kevent {
  k_wd : Z; k_mask : Z; k_cookie : Z; k_name : string
}.

(** The kernel pads a name with NULs to a multiple of the header size,
    leaving at least one NUL; a record without a name has [len = 0]. *)
Definition round_up (n m : Z) : Z := (n + m - 1) / m * m.

Definition name_len (name : string) : Z :=
  if String.eqb name "" then 0
  else round_up (Z.of_nat (String.length name) + 1) EVENT_SIZE.

Definition encode_event (e : kevent) : list Z :=
  le_encode 4 (u32 (k_wd e)) ++ le_encode 4 (k_mask e) ++ le_encode 4 (k_cookie e)
  ++ le_encode 4 (name_len (k_name e))
  ++ bytes_of_string (k_name e)
  ++ replicate (Z.to_nat (name_len (k_name e)) - String.length (k_name e)) 0.

Definition record_size (e : kevent) : Z := EVENT_SIZE + name_len (k_name e).

(** The records the kernel can queue: a watch descriptor is a positive
    [int], the mask and cookie are 32-bit, a name has at most [NAME_MAX]
    bytes and no NUL. *)
Definition kevent_ok (e : kevent) : Prop :=
  1 <= k_wd e < 2 ^ 31 /\ 0 <= k_mask e < 2 ^ 32 /\ 0 <= k_cookie e < 2 ^ 32 /\
  (String.length (k_name e) <= Z.to_nat NAME_MAX)%nat /\ no_nul (k_name e).

(** What the program sees when the record [e] sits at the head of the
    buffer and [rest] follows it. *)
Definition seen_event (e : kevent) (rest : list Z) : inotify_event :=
  {| ev_wd := k_wd e; ev_mask := k_mask e; ev_cookie := k_cookie e;
     ev_len := name_len (k_name e);
     ev_name := if String.eqb (k_name e) "" then cstr_of_bytes rest else k_name e |}.

(** ** Layout lemmas *)

Lemma name_len_empty : name_len "" = 0.
Proof. reflexivity. Qed.

Lemma name_len_nonempty name :
  name <> ""%string ->
  Z.of_nat (String.length name) + 1 <= name_len name <= Z.of_nat (String.length name) + 16 /\
  name_len name mod 16 = 0.
Proof.
  intros Hne. unfold name_len, round_up, EVENT_SIZE.
  destruct (String.eqb_spec name ""); [done|].
  rewrite Z.mod_mul by lia.
  pose proof (Z.mul_div_le (Z.of_nat (String.length name) + 1 + 16 - 1) 16).
  pose proof (Z.mod_pos_bound (Z.of_nat (String.length name) + 1 + 16 - 1) 16).
  pose proof (Z.div_mod (Z.of_nat (String.length name) + 1 + 16 - 1) 16). lia.
Qed.

(** The largest record fits the program's read buffer exactly. *)
Lemma record_size_le_buf e :
  (String.length (k_name e) <= Z.to_nat NAME_MAX)%nat -> record_size e <= READ_BUF_SIZE.
Proof.
  intros Hl. unfold record_size, READ_BUF_SIZE.
  destruct (String.eqb_spec (k_name e) "") as [->|Hne].
  - rewrite name_len_empty. unfold EVENT_SIZE, NAME_MAX. lia.
  - unfold name_len, round_up. destruct (String.eqb_spec (k_name e) ""); [done|].
    unfold NAME_MAX, EVENT_SIZE in *. change (Z.to_nat 255) with 255%nat in Hl.
    assert ((Z.of_nat (String.length (k_name e)) + 1 + 16 - 1) / 16 < 17)
      by (apply Z.div_lt_upper_bound; lia). lia.
Qed.

Lemma length_encode_event e :
  Z.of_nat (length (encode_event e)) = record_size e.
Proof.
  unfold encode_event, record_size, EVENT_SIZE.
  rewrite !length_app, !length_le_encode, length_bytes_of_string, length_replicate.
  destruct (String.eqb_spec (k_name e) "") as [->|Hne].
  - rewrite name_len_empty. reflexivity.
  - pose proof (name_len_nonempty _ Hne). lia.
Qed.

Lemma le_decode_take4 x l :
  0 <= x < 2 ^ 32 -> le_decode (take 4 (le_encode 4 x ++ l)) = x.
Proof.
  intros Hx. rewrite take_app_length' by (by rewrite length_le_encode).
  rewrite le_decode_encode. apply Z.mod_small. simpl. lia.
Qed.

Lemma drop4_encode x l : drop 4 (le_encode 4 x ++ l) = l.
Proof. apply drop_app_length'. by rewrite length_le_encode. Qed.

(** The padding after a non-empty name starts with a NUL. *)
Lemma name_padding_nonempty name :
  name <> ""%string ->
  exists k, replicate (Z.to_nat (name_len name) - String.length name) 0 = 0 :: replicate k 0.
Proof.
  intros Hne. destruct (name_len_nonempty _ Hne) as [[Hlo _] _].
  destruct (Z.to_nat (name_len name) - String.length name)%nat as [|k] eqn:E; [lia|].
  by exists k.
Qed.

Lemma drop_encode4 n x l : drop (4 + n) (le_encode 4 x ++ l) = drop n l.
Proof. by rewrite <- drop_drop, drop4_encode. Qed.

Lemma name_len_range name :
  (String.length name <= Z.to_nat NAME_MAX)%nat -> 0 <= name_len name < 2 ^ 32.
Proof.
  intros Hl. destruct (String.eqb_spec name "") as [->|Hne]; [done|].
  pose proof (name_len_nonempty _ Hne). unfold NAME_MAX in Hl. lia.
Qed.

(** The name field of an encoded record, as [event->name] reads it. *)
Lemma cstr_name_field name rest :
  no_nul name ->
  cstr_of_bytes (bytes_of_string name
                   ++ replicate (Z.to_nat (name_len name) - String.length name) 0 ++ rest)
  = if String.eqb name "" then cstr_of_bytes rest else name.
Proof.
  intros Hn. destruct (String.eqb_spec name "") as [->|Hne]; [reflexivity|].
  destruct (name_padding_nonempty _ Hne) as [k ->]. by apply cstr_of_bytes_string.
Qed.

(** decoding the head of the buffer after the
    kernel wrote the record [e] followed by [rest] yields [e]'s header, and
    as [event->name] either [e]'s name or, for a nameless record, the C
    string that starts where the record ends. *)
Lemma decode_encode_head e rest :
  kevent_ok e -> decode_event (encode_event e ++ rest) = seen_event e rest.
Proof.
  intros (Hwd & Hm & Hc & Hl & Hn).
  unfold decode_event, encode_event, seen_event. rewrite <- !app_assoc.
  change 16%nat with (4 + (4 + (4 + 4)))%nat.
  change 12%nat with (4 + (4 + 4))%nat. change 8%nat with (4 + 4)%nat.
  rewrite !drop_encode4, !drop4_encode, !le_decode_take4
    by (try apply u32_range; try apply name_len_range; lia).
  rewrite u32_id, s32_small by lia.
  by rewrite cstr_name_field.
Qed.

(** C6: decoding the head of the buffer after the
    kernel wrote the record [e] followed by [rest] yields [e]'s header, and
    as [event->name] either [e]'s name or, for a nameless record, the C
    string that starts where the record ends. *)
Theorem decode_event_encode e rest :
  kevent_ok e -> decode_event (encode_event e ++ rest) = seen_event e rest.
Proof. apply decode_encode_head. Qed.

(** C20: a nameless record (an event on the watched object itself) that
    [read] returns alone overwrites only the 16 bytes of its header: the
    program sees the record's header, and as [event->name] the C string
    the previous contents of the static [buf] hold after the header. *)
Theorem decode_nameless_stale e old :
  kevent_ok e -> k_name e = ""%string ->
  decode_event (buf_store old (encode_event e)) =
  mk_event (k_wd e) (k_mask e) (k_cookie e) 0 (cstr_of_bytes (drop 16 old)).
Proof.
  intros Hok Hn. unfold buf_store.
  assert (Hl : length (encode_event e) = 16%nat).
  { pose proof (length_encode_event e) as Hl. unfold record_size, EVENT_SIZE in Hl.
    rewrite Hn, name_len_empty in Hl. lia. }
  rewrite Hl, decode_encode_head by done. unfold seen_event. by rewrite Hn.
Qed.

Lemma decode_nameless_stale_witness :
  kevent_ok (mk_kevent 1 IN_MOVE_SELF 0 "") /\ k_name (mk_kevent 1 IN_MOVE_SELF 0 "") = ""%string /\
  decode_event (buf_store (replicate 16 0 ++ [120; 0]) (encode_event (mk_kevent 1 IN_MOVE_SELF 0 ""))) =
  mk_event 1 IN_MOVE_SELF 0 0 (cstr_of_bytes [120; 0]).
Proof.
  assert (Hok : kevent_ok (mk_kevent 1 IN_MOVE_SELF 0 "")).
  { unfold kevent_ok, IN_MOVE_SELF, NAME_MAX. simpl. repeat split; try lia. constructor. }
  split; [exact Hok|]. split; [reflexivity|].
  exact (decode_nameless_stale (mk_kevent 1 IN_MOVE_SELF 0 "") (replicate 16 0 ++ [120; 0]) Hok eq_refl).
Defined.

Lemma decode_event_encode_witness :
  kevent_ok (mk_kevent 1 IN_CREATE 0 "x") /\
  decode_event (encode_event (mk_kevent 1 IN_CREATE 0 "x") ++ [7; 0]) =
  seen_event (mk_kevent 1 IN_CREATE 0 "x") [7; 0].
Proof.
  assert (Hok : kevent_ok (mk_kevent 1 IN_CREATE 0 "x")).
  { unfold kevent_ok, IN_CREATE, NAME_MAX. simpl. repeat split; try lia.
    all: repeat constructor; discriminate. }
  split; [exact Hok|]. exact (decode_event_encode _ _ Hok).
Defined.
