(* ===== verification/Kernel.v ===== *)
(** * The kernel facilities the program calls, as interfaces with laws

    The program calls [inotify_init1], [inotify_add_watch], [read],
    [epoll_create], [epoll_ctl] and [epoll_wait]. They are not code of the
    repository: the class [Kernel] gives their signatures over an abstract
    kernel state, and the class [KernelLaws] states the promises the
    program's theorems rely on (spec section 6: the core depends only on
    these contracts). [KernelModel.v] gives an executable instance and
    proves it lawful.

    A system call returns [SysOk v], fails with an [errno] ([SysErr]; the C
    call returns [-1] and sets [errno]), or does not return at all
    ([SysBlock]: [epoll_wait] with timeout [-1] and nothing ready).

    The state of a running process is a [world]: the kernel state and the
    lines written so far on standard output and standard error. *)

From S2P Require Import Prelude CStr Abi.

Local Open Scope Z_scope.
Local Open Scope cprog_scope.

Inductive errno :=
| EINTR | EAGAIN | EBADF | EINVAL | ENOENT | EEXIST | EACCES | ENOSPC | ENOMEM.

#[export] Instance errno_eq_dec : EqDecision errno.
Proof. solve_decision. Defined.

(** [%m]: glibc's [strerror] text. *)
Definition strerror (e : errno) : string :=
  match e with
  | EINTR => "Interrupted system call"
  | EAGAIN => "Resource temporarily unavailable"
  | EBADF => "Bad file descriptor"
  | EINVAL => "Invalid argument"
  | ENOENT => "No such file or directory"
  | EEXIST => "File exists"
  | EACCES => "Permission denied"
  | ENOSPC => "No space left on device"
  | ENOMEM => "Cannot allocate memory"
  end.

Inductive sysret (A : Type) :=
| SysOk (a : A)
| SysErr (e : errno)
| SysBlock.
Arguments SysOk {A} a.
Arguments SysErr {A} e.
Arguments SysBlock {A}.

(** The [int] a C call returns: its value, or [-1] on error. *)
Definition ret_code (r : sysret Z) : Z :=
  match r with SysOk v => v | _ => -1 end.

(** ** epoll's ABI *)

Record epoll_event := mk_epoll_event { ep_events : Z; ep_data_fd : Z }.

Definition EPOLLIN : Z := 0x001.
Definition EPOLLERR : Z := 0x008.
Definition EPOLLHUP : Z := 0x010.
Definition EPOLLET : Z := 2 ^ 31.
Definition EPOLL_CTL_ADD : Z := 1.
Definition EPOLL_CTL_DEL : Z := 2.

(** ** The interface *)

Class Kernel (K : Type) := {
  sys_inotify_init1 : K -> Z -> K * sysret Z;
  sys_inotify_add_watch : K -> Z -> string -> Z -> K * sysret Z;
  sys_read : K -> Z -> nat -> K * sysret (list Z);
  sys_epoll_create : K -> Z -> K * sysret Z;
  (** [epoll_ctl(epfd, op, fd, event)]; [None] for the uninitialised
      event the program passes with [EPOLL_CTL_DEL]. *)
  sys_epoll_ctl : K -> Z -> Z -> Z -> option epoll_event -> K * sysret unit;
  (** [epoll_wait(epfd, events, maxevents, -1)] *)
  sys_epoll_wait : K -> Z -> nat -> K * sysret (list epoll_event);
  (** Observations used to state the laws: the inode a path names, the
      inode a watch descriptor of an inotify instance watches, the work
      left on a descriptor (records queued, interruptions pending), and the
      interest list of an epoll instance. *)
  obs_inode : K -> string -> option Z;
  obs_watch : K -> Z -> Z -> option Z;
  obs_pending : K -> Z -> nat;
  obs_interest : K -> Z -> list (Z * epoll_event);
  (** The records queued on a descriptor, ready to be read. *)
  obs_queued : K -> Z -> nat;
  (** The ready list of an epoll instance: the descriptors of its
      interest list with a wakeup that [epoll_wait] has not reported yet. *)
  obs_ready : K -> Z -> list Z;
}.

Class KernelLaws (K : Type) `{Kernel K} : Prop := {
  (** Creating an inotify instance returns a descriptor and changes no
      file, watch of another instance, or epoll interest list. *)
  init1_ok : forall k fl k' fd, sys_inotify_init1 k fl = (k', SysOk fd) -> 0 <= fd;
  init1_noblock : forall k fl k', sys_inotify_init1 k fl <> (k', SysBlock);
  init1_keeps : forall k fl k' r,
    sys_inotify_init1 k fl = (k', r) ->
    obs_inode k' = obs_inode k /\ obs_interest k' = obs_interest k;
  (** A successful [inotify_add_watch] returns a positive descriptor that
      now watches the inode the path names. *)
  add_watch_ok : forall k fd p m k' w,
    sys_inotify_add_watch k fd p m = (k', SysOk w) ->
    1 <= w < 2 ^ 31 /\ exists i, obs_inode k p = Some i /\ obs_watch k' fd w = Some i;
  add_watch_noblock : forall k fd p m k', sys_inotify_add_watch k fd p m <> (k', SysBlock);
  (** Adding a watch keeps the existing watches, the files, the queued
      work and the epoll interest lists. *)
  add_watch_keeps : forall k fd p m k' r,
    sys_inotify_add_watch k fd p m = (k', r) ->
    (forall ifd w i, obs_watch k ifd w = Some i -> obs_watch k' ifd w = Some i) /\
    obs_inode k' = obs_inode k /\ (forall fd', obs_pending k' fd' = obs_pending k fd') /\
    obs_interest k' = obs_interest k;
  (** [read] never blocks here (the inotify descriptor is non-blocking)
      and every call that returns data or [EINTR] consumes work. *)
  read_progress : forall k fd n k' r,
    sys_read k fd n = (k', r) ->
    r <> SysBlock /\
    ((exists bs, r = SysOk bs) \/ r = SysErr EINTR ->
     (obs_pending k' fd < obs_pending k fd)%nat);
  (** [EAGAIN] means the descriptor has nothing left to read. *)
  read_eagain : forall k fd n k',
    sys_read k fd n = (k', SysErr EAGAIN) -> obs_pending k' fd = 0%nat;
  read_keeps : forall k fd n k' r,
    sys_read k fd n = (k', r) ->
    obs_interest k' = obs_interest k /\ obs_inode k' = obs_inode k /\
    (forall ifd w i, obs_watch k ifd w = Some i -> obs_watch k' ifd w = Some i) /\
    (forall fd', (obs_pending k' fd' <= obs_pending k fd')%nat);
  (** [epoll_create] returns a descriptor whose interest list is empty
      and changes no other interest list. *)
  epoll_create_ok : forall k n k' fd,
    sys_epoll_create k n = (k', SysOk fd) ->
    0 <= fd /\ obs_interest k' fd = [] /\
    (forall e, e <> fd -> obs_interest k' e = obs_interest k e);
  epoll_create_noblock : forall k n k', sys_epoll_create k n <> (k', SysBlock);
  (** A successful [epoll_ctl(ADD)] adds the descriptor with the event it
      was given to the interest list and changes no other list; a failed
      [epoll_ctl] changes no list. *)
  epoll_add_ok : forall k epfd fd ev k',
    sys_epoll_ctl k epfd EPOLL_CTL_ADD fd (Some ev) = (k', SysOk tt) ->
    (forall x, x ∈ obs_interest k' epfd <-> x = (fd, ev) \/ x ∈ obs_interest k epfd) /\
    (forall e, e <> epfd -> obs_interest k' e = obs_interest k e);
  epoll_ctl_err : forall k epfd op fd ev k' e,
    sys_epoll_ctl k epfd op fd ev = (k', SysErr e) -> obs_interest k' = obs_interest k;
  epoll_ctl_noblock : forall k epfd op fd ev k', sys_epoll_ctl k epfd op fd ev <> (k', SysBlock);
  (** The epoll calls leave files, watches and queued work alone. *)
  epoll_keeps : forall k k',
    ((exists n r, sys_epoll_create k n = (k', r)) \/
     (exists epfd op fd ev r, sys_epoll_ctl k epfd op fd ev = (k', r)) \/
     (exists epfd n r, sys_epoll_wait k epfd n = (k', r))) ->
    obs_inode k' = obs_inode k /\ obs_watch k' = obs_watch k /\ obs_pending k' = obs_pending k;
  (** [epoll_wait] with an infinite timeout returns between one and
      [maxevents] events, each carrying the data registered with a
      descriptor of the interest list, and changes no interest list. *)
  epoll_wait_ok : forall k epfd n k' evs,
    sys_epoll_wait k epfd n = (k', SysOk evs) ->
    (1 <= length evs <= n)%nat /\
    (forall e, e ∈ evs -> exists fd ev, (fd, ev) ∈ obs_interest k epfd /\
                                    ep_data_fd e = ep_data_fd ev);
  (** [epoll_wait] blocks only while no descriptor of the interest list
      is ready: none has records queued, or each that has is registered
      edge-triggered ([EPOLLET]) and has no wakeup pending. *)
  epoll_wait_block : forall k epfd n k',
    sys_epoll_wait k epfd n = (k', SysBlock) ->
    forall fd ev, (fd, ev) ∈ obs_interest k epfd ->
    obs_queued k fd = 0%nat \/ ((ep_events ev &? EPOLLET) = true /\ fd ∉ obs_ready k epfd);
  epoll_wait_keeps : forall k epfd n k' r,
    sys_epoll_wait k epfd n = (k', r) -> obs_interest k' = obs_interest k;
  (** Edge-triggered readiness. A wakeup is taken off the ready list only
      by an [epoll_wait] that reports the descriptor as readable; reading
      and adding watches neither wake an instance nor take a wakeup away;
      registering a descriptor that has records queued wakes the
      instance. New records arrive from other processes (the environment),
      not through the program's calls. *)
  epoll_wait_report : forall k epfd n k' evs,
    sys_epoll_wait k epfd n = (k', SysOk evs) ->
    forall fd ev, (fd, ev) ∈ obs_interest k epfd -> fd ∈ obs_ready k epfd ->
    fd ∈ obs_ready k' epfd \/
    exists e ev', e ∈ evs /\ (fd, ev') ∈ obs_interest k epfd /\ ep_data_fd e = ep_data_fd ev' /\
                  (ep_events e &? EPOLLIN) = true;
  epoll_add_ready : forall k epfd fd ev k',
    sys_epoll_ctl k epfd EPOLL_CTL_ADD fd (Some ev) = (k', SysOk tt) ->
    (0 < obs_queued k fd)%nat -> fd ∈ obs_ready k' epfd;
  epoll_queued : forall k k',
    ((exists n r, sys_epoll_create k n = (k', r)) \/
     (exists epfd op fd ev r, sys_epoll_ctl k epfd op fd ev = (k', r)) \/
     (exists epfd n r, sys_epoll_wait k epfd n = (k', r))) ->
    obs_queued k' = obs_queued k;
  read_ready : forall k fd n k' r,
    sys_read k fd n = (k', r) ->
    obs_ready k' = obs_ready k /\ forall fd', (obs_queued k' fd' <= obs_queued k fd')%nat;
  add_watch_ready : forall k fd p m k' r,
    sys_inotify_add_watch k fd p m = (k', r) ->
    obs_ready k' = obs_ready k /\ forall fd', obs_queued k' fd' = obs_queued k fd';
  (** Queued records are part of a descriptor's pending work. *)
  queued_pending : forall k fd, (obs_queued k fd <= obs_pending k fd)%nat;
}.

(** ** Processes: the kernel and the two output streams *)

Record world (K : Type) := mk_world {
  w_kern : K;
  w_out : list string;
  w_err : list string;
}.
Arguments mk_world {K} _ _ _.
Arguments w_kern {K} _.
Arguments w_out {K} _.
Arguments w_err {K} _.

Section Process.
Context {K : Type} `{Kernel K}.

Definition set_kern (k : K) (w : world K) : world K := mk_world k (w_out w) (w_err w).

(** Run a system call on the kernel; a call that blocks for ever stops
    the process where it is. *)
Definition syscall {A} (f : K -> K * sysret A) : M (world K) (sysret A) :=
  fun w => let '(k', r) := f (w_kern w) in
           match r with
           | SysBlock => Blocked w
           | _ => Done r (set_kern k' w)
           end.

(** [printf] of one line (the newline is implicit). *)
Definition print (line : string) : M (world K) unit :=
  mmodify (fun w => mk_world (w_kern w) (w_out w ++ [line]) (w_err w)).

(** [fprintf(stderr, ...)] of one line. *)
Definition eprint (line : string) : M (world K) unit :=
  mmodify (fun w => mk_world (w_kern w) (w_out w) (w_err w ++ [line])).

(** [fatal(fmt, ...)] ([util.h]): "fatal error: " and the message on
    standard error, then [exit(EXIT_FAILURE)]. *)
Definition fatal {A} (msg : string) : M (world K) A :=
  eprint ("fatal error: " +:+ msg) ;;; mfatal msg.

(** [%m] after a failed call. *)
Definition errmsg {A} (r : sysret A) : string :=
  match r with SysErr e => strerror e | _ => "Success" end.

Lemma syscall_done {A} (f : K -> K * sysret A) w r w' :
  syscall f w = Done r w' -> exists k', f (w_kern w) = (k', r) /\ w' = set_kern k' w /\ r <> SysBlock.
Proof.
  unfold syscall. destruct (f (w_kern w)) as [k' r'] eqn:Hf.
  destruct r'; intros Hd; inversion Hd; subst; eauto.
Qed.

Lemma syscall_ok {A} (f : K -> K * sysret A) w k' r :
  f (w_kern w) = (k', r) -> r <> SysBlock -> syscall f w = Done r (set_kern k' w).
Proof. unfold syscall. intros -> Hr. by destruct r. Qed.

Lemma fatal_not_done {B} msg (w : world K) (b : B) w' :
  (fatal msg : M (world K) B) w <> Done b w'.
Proof. unfold fatal, mbind, eprint, mmodify, mfatal. discriminate. Qed.

Lemma ret_code_nonneg (r : sysret Z) : 0 <= ret_code r -> r = SysOk (ret_code r).
Proof. destruct r; simpl; auto with lia. Qed.

End Process.
