(* ===== verification/KernelModel.v ===== *)
(** * An executable kernel satisfying [KernelLaws]

    Not code of the repository: a small model of Linux's inotify and
    epoll, used to run the program's model on concrete inputs (the
    witnesses and the scenarios) and to show that [KernelLaws] is
    satisfiable. Files are a table from paths to inode numbers; an inotify
    instance has its watches (watch descriptor, inode), the next watch
    descriptor and its queue of records; an epoll instance has its
    interest list; [ks_intr] counts signals that will interrupt the next
    [read]s; [ks_rdy] is epoll's ready list, the pairs (epoll instance,
    descriptor) woken since [epoll_wait] last reported them. An entry
    registered with [EPOLLET] is reported only while it is on the ready
    list and has records queued (edge-triggered); any other entry whenever
    its queue is non-empty (level-triggered). Reporting an entry takes it
    off the ready list; new records ([env_post]) and the registration of a
    readable descriptor put it on.

    The model refuses what Linux never returns ([ENOSPC] when the next
    watch descriptor is out of [int] range or already taken), so that the
    laws hold in every state, not only in reachable ones. The environment
    (other processes changing files) appends records with [env_post]. *)

From S2P Require Import Prelude CStr Abi Kernel.

Local Open Scope Z_scope.
Local Open Scope cprog_scope.

(** ** Association lists keyed by descriptors *)

Fixpoint alookup {A} (x : Z) (l : list (Z * A)) : option A :=
  match l with
  | [] => None
  | (y, a) :: t => if Z.eqb x y then Some a else alookup x t
  end.

Fixpoint aupdate {A} (x : Z) (f : A -> A) (l : list (Z * A)) : list (Z * A) :=
  match l with
  | [] => []
  | (y, a) :: t => if Z.eqb x y then (y, f a) :: t else (y, a) :: aupdate x f t
  end.

Lemma alookup_aupdate_eq {A} x (f : A -> A) l : alookup x (aupdate x f l) = f <$> alookup x l.
Proof.
  induction l as [|[y a] t IH]; [done|]. simpl.
  destruct (Z.eqb_spec x y) as [->|Hne]; simpl; [by rewrite Z.eqb_refl|].
  rewrite (proj2 (Z.eqb_neq _ _) Hne). exact IH.
Qed.

Lemma alookup_aupdate_ne {A} x y (f : A -> A) l :
  y <> x -> alookup y (aupdate x f l) = alookup y l.
Proof.
  intros Hne. induction l as [|[z a] t IH]; [done|]. simpl.
  destruct (Z.eqb_spec x z) as [->|]; simpl.
  - destruct (Z.eqb_spec y z); [lia|done].
  - by rewrite IH.
Qed.

Fixpoint path_lookup (p : string) (fs : list (string * Z)) : option Z :=
  match fs with
  | [] => None
  | (q, i) :: t => if String.eqb p q then Some i else path_lookup p t
  end.

(** ** State *)

Record ino_inst := mk_ino {
  ii_watches : list (Z * Z);   (** (watch descriptor, inode) *)
  ii_next_wd : Z;
  ii_queue : list kevent;
}.

Record kstate := mk_kstate {
  ks_fs : list (string * Z);
  ks_next_fd : nat;
  ks_ino : list (Z * ino_inst);
  ks_ep : list (Z * list (Z * epoll_event));
  ks_intr : nat;
  ks_rdy : list (Z * Z);
}.

Definition set_ino (l : list (Z * ino_inst)) (k : kstate) : kstate :=
  mk_kstate (ks_fs k) (ks_next_fd k) l (ks_ep k) (ks_intr k) (ks_rdy k).
Definition set_ep (l : list (Z * list (Z * epoll_event))) (k : kstate) : kstate :=
  mk_kstate (ks_fs k) (ks_next_fd k) (ks_ino k) l (ks_intr k) (ks_rdy k).
Definition set_rdy (l : list (Z * Z)) (k : kstate) : kstate :=
  mk_kstate (ks_fs k) (ks_next_fd k) (ks_ino k) (ks_ep k) (ks_intr k) l.

(** ** Operations *)

Definition k_init1 (k : kstate) (_ : Z) : kstate * sysret Z :=
  let fd := Z.of_nat (ks_next_fd k) in
  (mk_kstate (ks_fs k) (S (ks_next_fd k)) ((fd, mk_ino [] 1 []) :: ks_ino k) (ks_ep k) (ks_intr k)
     (ks_rdy k),
   SysOk fd).

Definition wd_free (w : Z) (ws : list (Z * Z)) : bool := bool_decide (alookup w ws = None).

Definition k_add_watch (k : kstate) (fd : Z) (p : string) (_ : Z) : kstate * sysret Z :=
  match alookup fd (ks_ino k), path_lookup p (ks_fs k) with
  | None, _ => (k, SysErr EBADF)
  | _, None => (k, SysErr ENOENT)
  | Some ii, Some i =>
      match list_find (fun wi => wi.2 = i) (ii_watches ii) with
      | Some (_, (w, _)) =>
          if bool_decide (1 <= w < 2 ^ 31 /\ alookup w (ii_watches ii) = Some i)
          then (k, SysOk w) else (k, SysErr ENOSPC)
      | None =>
          let w := ii_next_wd ii in
          if bool_decide (1 <= w < 2 ^ 31) && wd_free w (ii_watches ii) then
            (set_ino (aupdate fd (fun ii => mk_ino ((w, i) :: ii_watches ii) (w + 1) (ii_queue ii))
                        (ks_ino k)) k, SysOk w)
          else (k, SysErr ENOSPC)
      end
  end.

(** The records of the queue that fit in [n] bytes, taken whole. *)
Fixpoint take_fit (n : Z) (q : list kevent) : list Z * list kevent :=
  match q with
  | [] => ([], [])
  | e :: t =>
      if record_size e <=? n then
        let '(bs, rest) := take_fit (n - record_size e) t in (encode_event e ++ bs, rest)
      else ([], q)
  end.

Definition k_read (k : kstate) (fd : Z) (n : nat) : kstate * sysret (list Z) :=
  match ks_intr k with
  | S i => (mk_kstate (ks_fs k) (ks_next_fd k) (ks_ino k) (ks_ep k) i (ks_rdy k), SysErr EINTR)
  | O =>
      match alookup fd (ks_ino k) with
      | None => (k, SysErr EBADF)
      | Some ii =>
          match ii_queue ii with
          | [] => (k, SysErr EAGAIN)
          | e :: t =>
              if Z.of_nat n <? record_size e then (k, SysErr EINVAL)
              else
                let '(bs, rest) := take_fit (Z.of_nat n - record_size e) t in
                (set_ino (aupdate fd (fun ii => mk_ino (ii_watches ii) (ii_next_wd ii) rest)
                            (ks_ino k)) k,
                 SysOk (encode_event e ++ bs))
          end
      end
  end.

Definition k_epoll_create (k : kstate) (_ : Z) : kstate * sysret Z :=
  let fd := Z.of_nat (ks_next_fd k) in
  (mk_kstate (ks_fs k) (S (ks_next_fd k)) (ks_ino k) ((fd, []) :: ks_ep k) (ks_intr k)
     (filter (fun x => x.1 <> fd) (ks_rdy k)), SysOk fd).

(** A descriptor with records queued. *)
Definition fd_ready (k : kstate) (fd : Z) : bool :=
  match alookup fd (ks_ino k) with
  | Some ii => bool_decide (ii_queue ii <> [])
  | None => false
  end.

Definition k_epoll_ctl (k : kstate) (epfd op fd : Z) (ev : option epoll_event)
    : kstate * sysret unit :=
  match alookup epfd (ks_ep k) with
  | None => (k, SysErr EBADF)
  | Some il =>
      if op =? EPOLL_CTL_ADD then
        match ev, alookup fd (ks_ino k) with
        | None, _ => (k, SysErr EINVAL)
        | _, None => (k, SysErr EBADF)
        | Some ev, Some _ =>
            if bool_decide (is_Some (alookup fd il)) then (k, SysErr EEXIST)
            else (set_rdy (if fd_ready k fd then (epfd, fd) :: ks_rdy k else ks_rdy k)
                    (set_ep (aupdate epfd (fun il => (fd, ev) :: il) (ks_ep k)) k), SysOk tt)
        end
      else if op =? EPOLL_CTL_DEL then
        if bool_decide (is_Some (alookup fd il)) then
          (set_ep (aupdate epfd (fun il => filter (fun x => x.1 <> fd) il) (ks_ep k)) k, SysOk tt)
        else (k, SysErr ENOENT)
      else (k, SysErr EINVAL)
  end.

(** An entry of the interest list of [epfd] that [epoll_wait] reports:
    its descriptor has records queued and, when registered with
    [EPOLLET], a wakeup on the ready list. *)
Definition entry_ready (k : kstate) (epfd : Z) (x : Z * epoll_event) : bool :=
  fd_ready k x.1 &&
  (if ep_events x.2 &? EPOLLET then bool_decide ((epfd, x.1) ∈ ks_rdy k) else true).

Definition k_epoll_wait (k : kstate) (epfd : Z) (n : nat) : kstate * sysret (list epoll_event) :=
  match alookup epfd (ks_ep k) with
  | None => (k, SysErr EBADF)
  | Some il =>
      if bool_decide (n = 0%nat) then (k, SysErr EINVAL)
      else
        match take n (filter (fun x => entry_ready k epfd x = true) il) with
        | [] => (k, SysBlock)
        | rep =>
            (set_rdy (filter (fun y => y.1 <> epfd \/ y.2 ∉ rep.*1) (ks_rdy k)) k,
             SysOk ((fun x => mk_epoll_event EPOLLIN (ep_data_fd x.2)) <$> rep))
        end
  end.

(** ** Observations *)

Definition k_obs_watch (k : kstate) (fd w : Z) : option Z :=
  alookup fd (ks_ino k) ≫= fun ii => alookup w (ii_watches ii).

Definition k_obs_pending (k : kstate) (fd : Z) : nat :=
  ks_intr k + from_option (fun ii => length (ii_queue ii)) 0%nat (alookup fd (ks_ino k)).

Definition k_obs_interest (k : kstate) (epfd : Z) : list (Z * epoll_event) :=
  from_option id [] (alookup epfd (ks_ep k)).

Definition k_obs_queued (k : kstate) (fd : Z) : nat :=
  from_option (fun ii => length (ii_queue ii)) 0%nat (alookup fd (ks_ino k)).

Definition k_obs_ready (k : kstate) (epfd : Z) : list Z :=
  (filter (fun y => y.1 = epfd) (ks_rdy k)).*2.

#[export] Instance kstate_kernel : Kernel kstate := {|
  sys_inotify_init1 := k_init1;
  sys_inotify_add_watch := k_add_watch;
  sys_read := k_read;
  sys_epoll_create := k_epoll_create;
  sys_epoll_ctl := k_epoll_ctl;
  sys_epoll_wait := k_epoll_wait;
  obs_inode := fun k p => path_lookup p (ks_fs k);
  obs_watch := k_obs_watch;
  obs_pending := k_obs_pending;
  obs_interest := k_obs_interest;
  obs_queued := k_obs_queued;
  obs_ready := k_obs_ready;
|}.

(** ** The environment *)

(** Another process changes a file: the kernel queues [e] on instance
    [fd] and wakes every epoll instance whose interest list holds [fd]. *)
Definition env_post (fd : Z) (e : kevent) (k : kstate) : kstate :=
  set_rdy (((fun x => (x.1, fd)) <$> filter (fun x => fd ∈ x.2.*1) (ks_ep k)) ++ ks_rdy k)
    (set_ino (aupdate fd (fun ii => mk_ino (ii_watches ii) (ii_next_wd ii) (ii_queue ii ++ [e]))
                (ks_ino k)) k).

(** Another process creates the file [p], inode [i]. *)
Definition env_create (p : string) (i : Z) (k : kstate) : kstate :=
  mk_kstate ((p, i) :: ks_fs k) (ks_next_fd k) (ks_ino k) (ks_ep k) (ks_intr k) (ks_rdy k).

(** A signal arrives: the next [read] fails with [EINTR]. *)
Definition env_signal (k : kstate) : kstate :=
  mk_kstate (ks_fs k) (ks_next_fd k) (ks_ino k) (ks_ep k) (S (ks_intr k)) (ks_rdy k).

(** A machine with the given files, nothing open yet, descriptors from 3. *)
Definition boot (fs : list (string * Z)) : kstate := mk_kstate fs 3 [] [] 0 [].

(** ** The model satisfies the laws *)

Lemma take_fit_length n q bs rest : take_fit n q = (bs, rest) -> (length rest <= length q)%nat.
Proof.
  revert n bs rest. induction q as [|e t IH]; intros n bs rest Hf; simpl in Hf.
  - by injection Hf as _ <-.
  - destruct (record_size e <=? n); [|injection Hf as _ <-; done].
    destruct (take_fit _ t) as [bs' rest'] eqn:Ht. injection Hf as _ <-.
    apply IH in Ht. simpl. lia.
Qed.

Ltac kcase :=
  repeat match goal with
  | H : context [match ?x with _ => _ end] |- _ => destruct x eqn:?
  | H : (_, _) = (_, _) |- _ => injection H as <- <-
  | H : bool_decide _ = true |- _ => apply bool_decide_eq_true in H
  | H : bool_decide _ = false |- _ => apply bool_decide_eq_false in H
  | H : (_ && _)%bool = true |- _ => apply andb_true_iff in H as [? ?]
  | H : wd_free _ _ = true |- _ => apply bool_decide_eq_true in H
  end.

Lemma k_add_watch_noblock k fd p m k' : k_add_watch k fd p m <> (k', SysBlock).
Proof. unfold k_add_watch. intros Hk. kcase; discriminate. Qed.

Lemma k_add_watch_ok k fd p m k' w :
  k_add_watch k fd p m = (k', SysOk w) ->
  1 <= w < 2 ^ 31 /\ exists i, path_lookup p (ks_fs k) = Some i /\ k_obs_watch k' fd w = Some i.
Proof.
  unfold k_add_watch, k_obs_watch. intros Hk. kcase; simplify_eq/=.
  - split; [lia|]. eexists; split; [done|]. rewrite Heqo. simpl. tauto.
  - split; [lia|]. eexists; split; [done|]. rewrite alookup_aupdate_eq, Heqo. simpl.
    by rewrite Z.eqb_refl.
Qed.

Lemma k_add_watch_keeps k fd p m k' r :
  k_add_watch k fd p m = (k', r) ->
  (forall ifd w i, k_obs_watch k ifd w = Some i -> k_obs_watch k' ifd w = Some i) /\
  ks_fs k' = ks_fs k /\ (forall fd', k_obs_pending k' fd' = k_obs_pending k fd') /\
  ks_ep k' = ks_ep k.
Proof.
  unfold k_add_watch, k_obs_watch, k_obs_pending. intros Hk. kcase; try by repeat split.
  repeat split; simpl.
  - intros ifd w' i'. destruct (Z.eq_dec ifd fd) as [->|Hne]; [|by rewrite alookup_aupdate_ne].
    rewrite alookup_aupdate_eq, Heqo. simpl. intros Hw'.
    destruct (Z.eqb_spec w' (ii_next_wd i)) as [->|]; [congruence|done].
  - intros fd'. destruct (Z.eq_dec fd' fd) as [->|Hne].
    + rewrite alookup_aupdate_eq. by destruct (alookup fd (ks_ino k)).
    + by rewrite alookup_aupdate_ne.
Qed.

Lemma k_read_progress k fd n k' r :
  k_read k fd n = (k', r) ->
  r <> SysBlock /\
  ((exists bs, r = SysOk bs) \/ r = SysErr EINTR -> (k_obs_pending k' fd < k_obs_pending k fd)%nat).
Proof.
  unfold k_read, k_obs_pending. intros Hk. kcase; (split; [discriminate|]);
    intros [[? [=]]|[=]]; simpl; try lia.
  rewrite alookup_aupdate_eq, Heqo. simpl. rewrite Heql.
  match goal with H : take_fit _ _ = _ |- _ => apply take_fit_length in H end. simpl. lia.
Qed.

Lemma k_read_keeps k fd n k' r :
  k_read k fd n = (k', r) ->
  ks_ep k' = ks_ep k /\ ks_fs k' = ks_fs k /\
  (forall ifd w i, k_obs_watch k ifd w = Some i -> k_obs_watch k' ifd w = Some i) /\
  (forall fd', (k_obs_pending k' fd' <= k_obs_pending k fd')%nat).
Proof.
  unfold k_read, k_obs_watch, k_obs_pending. intros Hk.
  kcase; repeat split; simpl; try (intros; lia); try done.
  - intros ifd. destruct (Z.eq_dec ifd fd) as [->|Hne]; [|by rewrite alookup_aupdate_ne].
    by rewrite alookup_aupdate_eq, Heqo.
  - intros ifd. rewrite Heqn0. destruct (Z.eq_dec ifd fd) as [->|Hne];
      [|by rewrite alookup_aupdate_ne].
    rewrite alookup_aupdate_eq, Heqo. simpl. rewrite Heql. simpl.
    match goal with H : take_fit _ _ = _ |- _ => apply take_fit_length in H end. lia.
Qed.

Lemma k_read_ready k fd n k' r :
  k_read k fd n = (k', r) ->
  k_obs_ready k' = k_obs_ready k /\ forall fd', (k_obs_queued k' fd' <= k_obs_queued k fd')%nat.
Proof.
  unfold k_read, k_obs_queued. intros Hk. kcase; split; simpl; try done; try (intros; lia).
  intros fd'. destruct (Z.eq_dec fd' fd) as [->|Hne]; [|by rewrite alookup_aupdate_ne].
  rewrite alookup_aupdate_eq, Heqo. simpl. rewrite Heql. simpl.
  match goal with H : take_fit _ _ = _ |- _ => apply take_fit_length in H end. lia.
Qed.

Lemma k_add_watch_ready k fd p m k' r :
  k_add_watch k fd p m = (k', r) ->
  k_obs_ready k' = k_obs_ready k /\ forall fd', k_obs_queued k' fd' = k_obs_queued k fd'.
Proof.
  unfold k_add_watch. intros Hk. kcase; split; try done.
  intros fd'. unfold k_obs_queued. simpl.
  destruct (Z.eq_dec fd' fd) as [->|Hne]; [|by rewrite alookup_aupdate_ne].
  rewrite alookup_aupdate_eq. by destruct (alookup fd (ks_ino k)).
Qed.

Lemma k_read_eagain k fd n k' :
  k_read k fd n = (k', SysErr EAGAIN) -> k_obs_pending k' fd = 0%nat.
Proof.
  unfold k_read, k_obs_pending. intros Hk. kcase; simplify_eq/=.
  rewrite Heqn0, Heqo. simpl. by rewrite Heql.
Qed.

Lemma k_epoll_add_ok k epfd fd ev k' :
  k_epoll_ctl k epfd EPOLL_CTL_ADD fd (Some ev) = (k', SysOk tt) ->
  (forall x, x ∈ k_obs_interest k' epfd <-> x = (fd, ev) \/ x ∈ k_obs_interest k epfd) /\
  (forall e, e <> epfd -> k_obs_interest k' e = k_obs_interest k e).
Proof.
  unfold k_epoll_ctl, k_obs_interest. intros Hk. kcase; simplify_eq/=.
  all: split; [intros x; rewrite alookup_aupdate_eq, Heqo; apply elem_of_cons|].
  all: intros e Hne; by rewrite alookup_aupdate_ne.
Qed.

Lemma fd_ready_queued k fd : (0 < k_obs_queued k fd)%nat -> fd_ready k fd = true.
Proof.
  unfold k_obs_queued, fd_ready. destruct (alookup fd (ks_ino k)) as [ii|]; simpl; [|lia].
  intros Hq. apply bool_decide_eq_true. intros Hnil. rewrite Hnil in Hq. simpl in Hq. lia.
Qed.

Lemma k_epoll_add_ready k epfd fd ev k' :
  k_epoll_ctl k epfd EPOLL_CTL_ADD fd (Some ev) = (k', SysOk tt) ->
  (0 < k_obs_queued k fd)%nat -> fd ∈ k_obs_ready k' epfd.
Proof.
  unfold k_epoll_ctl. intros Hk Hq%fd_ready_queued. rewrite Hq in Hk. kcase; simplify_eq/=.
  unfold k_obs_ready. simpl. apply list_elem_of_fmap. exists (epfd, fd).
  split; [done|]. apply list_elem_of_filter. split; [done|]. by left.
Qed.

Lemma k_epoll_ctl_cases k epfd op fd ev k' r :
  k_epoll_ctl k epfd op fd ev = (k', r) ->
  r <> SysBlock /\ ks_fs k' = ks_fs k /\ ks_ino k' = ks_ino k /\ ks_intr k' = ks_intr k /\
  (forall e, r = SysErr e -> k' = k).
Proof. unfold k_epoll_ctl. intros Hk. kcase; by repeat split. Qed.

Definition ready_entries (k : kstate) (epfd : Z) (il : list (Z * epoll_event)) :=
  filter (fun x => entry_ready k epfd x = true) il.

(** What [epoll_wait] can do: fail without a change, block with nothing
    to report, or report the first [n] ready entries and take them off
    the ready list. *)
Lemma k_epoll_wait_cases k epfd n k' r :
  k_epoll_wait k epfd n = (k', r) ->
  (exists e, r = SysErr e /\ k' = k) \/
  exists il, alookup epfd (ks_ep k) = Some il /\ n <> 0%nat /\
    ((r = SysBlock /\ k' = k /\ ready_entries k epfd il = []) \/
     (take n (ready_entries k epfd il) <> [] /\
      k' = set_rdy (filter (fun y => y.1 <> epfd \/ y.2 ∉ (take n (ready_entries k epfd il)).*1)
                      (ks_rdy k)) k /\
      r = SysOk ((fun x => mk_epoll_event EPOLLIN (ep_data_fd x.2)) <$>
                   take n (ready_entries k epfd il)))).
Proof.
  unfold k_epoll_wait, ready_entries. intros Hk.
  destruct (alookup epfd (ks_ep k)) as [il|]; [|injection Hk as <- <-; eauto].
  case_bool_decide; [injection Hk as <- <-; eauto|]. right. exists il. do 2 (split; [done|]).
  destruct (take n _) as [|x t] eqn:Ht; injection Hk as <- <-.
  - left. repeat split. destruct (filter _ il); [done|]. destruct n; [done|discriminate].
  - right. done.
Qed.

Lemma k_epoll_wait_ok k epfd n k' evs :
  k_epoll_wait k epfd n = (k', SysOk evs) ->
  (1 <= length evs <= n)%nat /\
  (forall e, e ∈ evs -> exists fd ev, (fd, ev) ∈ k_obs_interest k epfd /\
                                  ep_data_fd e = ep_data_fd ev).
Proof.
  intros Hk. apply k_epoll_wait_cases in Hk
    as [(e & [=] & _)|(il & Hil & Hn & [([=] & _)|(Hne & _ & [= ->])])].
  split.
  - rewrite length_fmap, length_take. destruct (take n _) eqn:Ht; [done|].
    apply (f_equal length) in Ht. rewrite length_take in Ht. simpl in Ht. lia.
  - intros e He. apply list_elem_of_fmap in He as ([fd ev] & -> & He).
    apply elem_of_take in He as (i & He & _). apply list_elem_of_lookup_2 in He.
    apply list_elem_of_filter in He as [_ Hin]. exists fd, ev.
    unfold k_obs_interest. by rewrite Hil.
Qed.

Lemma k_epoll_wait_report k epfd n k' evs :
  k_epoll_wait k epfd n = (k', SysOk evs) ->
  forall fd ev, (fd, ev) ∈ k_obs_interest k epfd -> fd ∈ k_obs_ready k epfd ->
  fd ∈ k_obs_ready k' epfd \/
  exists e ev', e ∈ evs /\ (fd, ev') ∈ k_obs_interest k epfd /\ ep_data_fd e = ep_data_fd ev' /\
                (ep_events e &? EPOLLIN) = true.
Proof.
  intros Hk fd ev _ Hr. apply k_epoll_wait_cases in Hk
    as [(e & [=] & _)|(il & Hil & Hn & [([=] & _)|(Hne & -> & [= ->])])].
  set (rep := take n (ready_entries k epfd il)) in *.
  destruct (decide (fd ∈ rep.*1)) as [Hin|Hout].
  - right. apply list_elem_of_fmap in Hin as ([fd' ev'] & Hfd & Hin). simpl in Hfd. subst fd'.
    exists (mk_epoll_event EPOLLIN (ep_data_fd ev')), ev'. split; [|split; [|split]].
    + apply list_elem_of_fmap. by exists (fd, ev').
    + unfold k_obs_interest. rewrite Hil. simpl.
      apply elem_of_take in Hin as (i & Hin & _). apply list_elem_of_lookup_2 in Hin.
      by apply list_elem_of_filter in Hin as [_ ?].
    + done.
    + reflexivity.
  - left. unfold k_obs_ready in *. simpl.
    apply list_elem_of_fmap in Hr as ([e' fd'] & Hfd & Hr). simpl in Hfd. subst fd'.
    apply list_elem_of_filter in Hr as [He' Hr]. simpl in He'. subst e'.
    apply list_elem_of_fmap. exists (epfd, fd). split; [done|].
    apply list_elem_of_filter. split; [done|]. apply list_elem_of_filter. split; [|done].
    by right.
Qed.

Lemma k_epoll_wait_block k epfd n k' :
  k_epoll_wait k epfd n = (k', SysBlock) ->
  forall fd ev, (fd, ev) ∈ k_obs_interest k epfd ->
  k_obs_queued k fd = 0%nat \/ ((ep_events ev &? EPOLLET) = true /\ fd ∉ k_obs_ready k epfd).
Proof.
  intros Hk fd ev Hin. apply k_epoll_wait_cases in Hk
    as [(e & [=] & _)|(il & Hil & Hn & [(_ & _ & Hnil)|(_ & _ & [=])])].
  unfold k_obs_interest in Hin. rewrite Hil in Hin. simpl in Hin.
  assert (Hr : entry_ready k epfd (fd, ev) = false).
  { destruct (entry_ready k epfd (fd, ev)) eqn:Hr; [|done].
    assert (Hx : (fd, ev) ∈ ready_entries k epfd il) by (by apply list_elem_of_filter).
    rewrite Hnil in Hx. by apply elem_of_nil in Hx. }
  unfold entry_ready in Hr. simpl in Hr.
  destruct (fd_ready k fd) eqn:Hq; simpl in Hr.
  - right. destruct (ep_events ev &? EPOLLET); [|done]. split; [done|].
    apply bool_decide_eq_false in Hr. intros Hfd. apply Hr.
    unfold k_obs_ready in Hfd. apply list_elem_of_fmap in Hfd as ([e' fd'] & Hfd & Hx).
    apply list_elem_of_filter in Hx as [He' Hx]. simpl in *. by subst.
  - left. destruct (k_obs_queued k fd) eqn:Hz; [done|].
    rewrite fd_ready_queued in Hq; [done|lia].
Qed.

Lemma k_epoll_wait_keeps k epfd n k' r :
  k_epoll_wait k epfd n = (k', r) ->
  ks_fs k' = ks_fs k /\ ks_ino k' = ks_ino k /\ ks_ep k' = ks_ep k /\ ks_intr k' = ks_intr k.
Proof.
  intros Hk. apply k_epoll_wait_cases in Hk
    as [(e & _ & ->)|(il & _ & _ & [(_ & -> & _)|(_ & -> & _)])]; done.
Qed.

#[export] Instance kstate_laws : KernelLaws kstate.
Proof.
  split; cbn.
  - intros k fl k' fd [= _ <-]. lia.
  - by intros k fl k' [=].
  - by intros k fl k' r [= <- _].
  - intros k fd p m k' w Hk. by apply k_add_watch_ok in Hk.
  - exact k_add_watch_noblock.
  - intros k fd p m k' r Hk. apply k_add_watch_keeps in Hk as (Hw & Hf & Hp & He).
    unfold k_obs_interest. rewrite Hf, He. eauto.
  - exact k_read_progress.
  - exact k_read_eagain.
  - intros k fd n k' r Hk. apply k_read_keeps in Hk as (He & Hf & Hw & Hp).
    unfold k_obs_interest. rewrite Hf, He. eauto.
  - intros k n k' fd [= <- <-]. unfold k_obs_interest. simpl. rewrite Z.eqb_refl.
    split; [lia|split; [done|]]. intros e Hne. by rewrite (proj2 (Z.eqb_neq _ _) Hne).
  - by intros k n k' [=].
  - exact k_epoll_add_ok.
  - intros k epfd op fd ev k' e Hk. apply k_epoll_ctl_cases in Hk as (_ & _ & _ & _ & Hk).
    by rewrite (Hk e).
  - intros k epfd op fd ev k' Hk. by apply k_epoll_ctl_cases in Hk as [? _].
  - intros k k' [(n & r & [= <- _])|[(epfd & op & fd & ev & r & Hk)|(epfd & n & r & Hk)]].
    + done.
    + apply k_epoll_ctl_cases in Hk as (_ & Hf & Hi & Hn & _).
      unfold k_obs_watch, k_obs_pending. by rewrite Hf, Hi, Hn.
    + apply k_epoll_wait_keeps in Hk as (Hf & Hi & _ & Hn).
      unfold k_obs_watch, k_obs_pending. by rewrite Hf, Hi, Hn.
  - exact k_epoll_wait_ok.
  - exact k_epoll_wait_block.
  - intros k epfd n k' r Hk. apply k_epoll_wait_keeps in Hk as (_ & _ & He & _).
    unfold k_obs_interest. by rewrite He.
  - exact k_epoll_wait_report.
  - exact k_epoll_add_ready.
  - intros k k' [(n & r & [= <- _])|[(epfd & op & fd & ev & r & Hk)|(epfd & n & r & Hk)]].
    + done.
    + apply k_epoll_ctl_cases in Hk as (_ & _ & Hi & _). unfold k_obs_queued. by rewrite Hi.
    + apply k_epoll_wait_keeps in Hk as (_ & Hi & _). unfold k_obs_queued. by rewrite Hi.
  - exact k_read_ready.
  - exact k_add_watch_ready.
  - intros k fd. unfold k_obs_queued, k_obs_pending. lia.
Qed.
