(* ===== verification/Registry.v ===== *)
(** * WatchRegistry: [struct inotify], [indexof], [path_of],
      [register_inotify_files] ([src/main.c])

    The registry is the array [ctx.inotifies] of [len] slots allocated by
    [calloc]: slot [i] holds the watch descriptor and the path of the
    [i]-th command-line argument, or stays zeroed ([watchfd = 0],
    [path = NULL]) when its watch could not be added. [indexof] scans it
    for a descriptor; [path_of] builds the path an event names.

    Theorems: [indexof] is [list_find] ([indexof_spec]); [path_of]'s two
    branches and the substring heuristic (spec section 4.2, 9); the bound
    on the length it writes into [char path[PATH_MAX]]; and, for
    [register_inotify_files], the length invariant, the content of every
    slot, the distinctness of the handles and the report of every failed
    registration on standard error, against [KernelLaws]. *)

From S2P Require Import Prelude CStr Abi Kernel.

Local Open Scope Z_scope.
Local Open Scope cprog_scope.

(** ** Data *)

(** [struct inotify { int watchfd; const char *path; }]; [None] is [NULL]. *)
Record inotify := mk_inotify { watchfd : Z; path : option string }.

(** A slot as [calloc] leaves it. *)
Definition empty_slot : inotify := mk_inotify 0 None.

(** [struct inotify_context { int inofd; struct inotify *inotifies; }] *)
Record inotify_context := mk_ctx { inofd : Z; inotifies : list inotify }.

(** ** [indexof] *)

(** [for (int i = 0; i < (int)len; i++) if (inotifies[i].watchfd ==
    watchfd) return i; return -1;] The loop counter [i] runs from [0];
    [n] counts the iterations left. *)
Fixpoint indexof_loop (inotifies : list inotify) (wfd : Z) (i n : nat) : Z :=
  match n with
  | O => -1
  | S n' =>
      if bool_decide (watchfd (nth i inotifies empty_slot) = wfd) then Z.of_nat i
      else indexof_loop inotifies wfd (S i) n'
  end.

Definition indexof (inotifies : list inotify) (len : nat) (wfd : Z) : Z :=
  indexof_loop inotifies wfd 0 len.

(** ** [path_of] *)

(** [if (strstr(inotify->path, event->name) != NULL) return strcpy(path,
    inotify->path); path[0] = '\0'; strcpy(path, inotify->path); if
    (inotify->path[strlen(path) - 1] != '/') strcat(path, "/"); return
    strcat(path, event->name);] For an empty [inotify->path] the C code
    reads [path[-1]]; the model treats that byte as not ['/']. *)
Definition path_of (ipath name : string) : string :=
  if strstr_found ipath name then ipath
  else (if bool_decide (last_char ipath = Some "/"%char) then ipath
        else ipath +:+ "/") +:+ name.

(** The resolution the spec asks for (section 4.2): the watched path for
    a nameless event, the path joined with the name otherwise. *)
Definition resolve_full_path (ipath name : string) : string :=
  if String.eqb name "" then ipath
  else (if bool_decide (last_char ipath = Some "/"%char) then ipath
        else ipath +:+ "/") +:+ name.

(** ** Lemmas on [indexof] *)

Definition find_slot (l : list inotify) (len : nat) (wfd : Z) : Z :=
  match list_find (fun e => watchfd e = wfd) (take len l) with
  | Some (i, _) => Z.of_nat i
  | None => -1
  end.

Lemma indexof_loop_find l w i n :
  (i + n <= length l)%nat ->
  indexof_loop l w i n =
  match list_find (fun e => watchfd e = w) (take n (drop i l)) with
  | Some (j, _) => Z.of_nat (i + j)
  | None => -1
  end.
Proof.
  revert i. induction n as [|n IH]; intros i Hle; [done|].
  destruct (drop i l) as [|x rest] eqn:Hd.
  { apply (f_equal length) in Hd. rewrite length_drop in Hd. simpl in Hd. lia. }
  assert (nth i l empty_slot = x) as Hx.
  { rewrite <- (take_drop i l), Hd, app_nth2; rewrite length_take; [|lia].
    by replace (i - i `min` length l)%nat with O by lia. }
  assert (drop (S i) l = rest) as Hr.
  { replace (S i) with (i + 1)%nat by lia. by rewrite <- drop_drop, Hd. }
  simpl. rewrite Hx. case_bool_decide as Hw.
  - rewrite decide_True by done. f_equal. lia.
  - rewrite decide_False by done. rewrite IH by lia. rewrite Hr.
    destruct (list_find _ (take n rest)) as [[j e]|]; simpl; [f_equal; lia|done].
Qed.

(** ** Properties of [indexof] *)

(** [indexof] computes the first slot among the first [len] whose
    descriptor is [wfd], as [list_find] does, and [-1] when there is none. *)
Lemma indexof_find l len w :
  (len <= length l)%nat -> indexof l len w = find_slot l len w.
Proof.
  intros Hlen. unfold indexof, find_slot. rewrite indexof_loop_find by lia.
  rewrite drop_0. by destruct (list_find _ _) as [[j e]|].
Qed.

(** C8: [indexof] computes the first slot among the first [len] whose
    descriptor is [wfd], as [list_find] does, and [-1] when there is none. *)
Theorem indexof_spec l len w :
  (len <= length l)%nat -> indexof l len w = find_slot l len w.
Proof. apply indexof_find. Qed.

Lemma indexof_spec_witness :
  (2 <= length [mk_inotify 0 None; mk_inotify 5 (Some "/tmp"); mk_inotify 5 (Some "/a")])%nat /\
  indexof [mk_inotify 0 None; mk_inotify 5 (Some "/tmp"); mk_inotify 5 (Some "/a")] 2 5 =
  find_slot [mk_inotify 0 None; mk_inotify 5 (Some "/tmp"); mk_inotify 5 (Some "/a")] 2 5.
Proof. split; [simpl; lia|]. apply indexof_spec. simpl. lia. Defined.

Lemma find_slot_cases l len w :
  (find_slot l len w = -1 /\ forall i e, (i < len)%nat -> l !! i = Some e -> watchfd e <> w) \/
  (exists i e, find_slot l len w = Z.of_nat i /\ (i < len)%nat /\ l !! i = Some e /\
     watchfd e = w /\ forall j e', (j < i)%nat -> l !! j = Some e' -> watchfd e' <> w).
Proof.
  unfold find_slot. destruct (list_find _ _) as [[i e]|] eqn:Hf.
  - right. apply list_find_Some in Hf as (Hi & Hw & Hmin).
    apply lookup_take_Some in Hi as [Hi Hlt]. exists i, e. repeat split; auto.
    intros j e' Hj Hl. apply (Hmin j e'); [|done]. apply lookup_take_Some. split; [done|lia].
  - left. split; [done|]. intros i e Hi Hl. apply list_find_None in Hf.
    rewrite Forall_lookup in Hf. apply (Hf i). by apply lookup_take_Some.
Qed.

(** ** Properties of [path_of] *)

Definition join_path (ipath name : string) : string :=
  (if bool_decide (last_char ipath = Some "/"%char) then ipath else ipath +:+ "/") +:+ name.

Lemma path_of_found p name : strstr_found p name = true -> path_of p name = p.
Proof. unfold path_of. by intros ->. Qed.

Lemma path_of_not_found p name : strstr_found p name = false -> path_of p name = join_path p name.
Proof. unfold path_of. by intros ->. Qed.

Lemma length_join_path p name :
  (String.length p + String.length name <= String.length (join_path p name) <=
   String.length p + 1 + String.length name)%nat.
Proof.
  unfold join_path. case_bool_decide; rewrite !length_append; simpl; lia.
Qed.

(** C7: [path_of] agrees with the resolution the spec asks for exactly
    when the event has no name or its name does not occur in the watched
    path; when the name is a non-empty substring of the watched path it
    returns the watched path instead of the child's path. *)
Theorem path_of_resolve p name :
  path_of p name = resolve_full_path p name <->
  name = ""%string \/ strstr_found p name = false.
Proof.
  unfold resolve_full_path. fold (join_path p name).
  destruct (String.eqb_spec name "") as [->|Hne].
  - rewrite path_of_found by apply strstr_found_empty. tauto.
  - destruct (strstr_found p name) eqn:Hf.
    + rewrite path_of_found by done. split; [|intros [?|?]; congruence].
      intros Heq. pose proof (length_join_path p name) as Hl. rewrite <- Heq in Hl.
      destruct name; [done|]. simpl in Hl. lia.
    + rewrite path_of_not_found by done. tauto.
Qed.

(** C21: [path_of] writes at most [strlen(inotify->path) + 1 +
    strlen(event->name)] characters and the terminator into
    [char path[PATH_MAX]]: it stays within the buffer whenever the
    watched path and the name leave two bytes of it free. *)
Theorem path_of_fits p name :
  (String.length p + String.length name + 2 <= Z.to_nat PATH_MAX)%nat ->
  (String.length (path_of p name) + 1 <= Z.to_nat PATH_MAX)%nat.
Proof.
  intros Hl. pose proof (length_join_path p name).
  destruct (strstr_found p name) eqn:Hf;
    [rewrite path_of_found by done|rewrite path_of_not_found by done]; lia.
Qed.

Lemma path_of_fits_witness :
  (String.length "/tmp/a" + String.length "x" + 2 <= Z.to_nat PATH_MAX)%nat /\
  (String.length (path_of "/tmp/a" "x") + 1 <= Z.to_nat PATH_MAX)%nat.
Proof.
  assert (Hl : (String.length "/tmp/a" + String.length "x" + 2 <= Z.to_nat PATH_MAX)%nat)
    by (vm_compute; lia).
  split; [exact Hl|]. exact (path_of_fits _ _ Hl).
Defined.

(** C22: the exact length [path_of] writes: the watched path alone when
    the name occurs in it; otherwise the path, a ['/'] unless the path
    ends in one, and the name. With its terminator the text overflows
    [char path[PATH_MAX]] exactly when that length reaches [PATH_MAX]:
    nothing in the code bounds it, and a watched path shorter than
    [PATH_MAX] with a name of up to [NAME_MAX] bytes reaches it. *)
Theorem path_of_overflow p name :
  (Z.to_nat PATH_MAX < String.length (path_of p name) + 1)%nat <->
  (Z.to_nat PATH_MAX <=
     if strstr_found p name then String.length p
     else String.length p + (if bool_decide (last_char p = Some "/"%char) then 0 else 1) +
          String.length name)%nat.
Proof.
  destruct (strstr_found p name) eqn:Hf;
    [rewrite path_of_found by done|rewrite path_of_not_found by done]; [lia|].
  unfold join_path. case_bool_decide; rewrite !length_append; simpl; lia.
Qed.

(** ** [register_inotify_files] *)

Section Register.
Context {K : Type} `{Kernel K}.

(** [for (int i = 0; i < (int)len && files[i] != NULL; i++) { watchfd =
    inotify_add_watch(inofd, files[i], default_events); if (watchfd < 0) {
    fprintf(stderr, "inotify_add_watch('%s') error: %m\n", files[i]);
    continue; } inotifies[i] = (struct inotify){ .watchfd = watchfd,
    .path = files[i] }; }] The argument vector is [files], a [None] lookup
    is its terminating [NULL]; [n] bounds the iterations left. *)
Fixpoint register_loop (files : list string) (len : nat) (ifd : Z) (i n : nat)
    (slots : list inotify) : M (world K) (list inotify) :=
  match n with
  | O => mret slots
  | S n' =>
      if bool_decide (i < len)%nat then
        match files !! i with
        | None => mret slots
        | Some f =>
            r <- syscall (fun k => sys_inotify_add_watch k ifd f default_events) ;;
            if ret_code r <? 0 then
              eprint ("inotify_add_watch('" +:+ f +:+ "') error: " +:+ errmsg r) ;;;
              register_loop files len ifd (S i) n' slots
            else
              register_loop files len ifd (S i) n'
                (<[i := mk_inotify (ret_code r) (Some f)]> slots)
        end
      else mret slots
  end.

(** [if ((inofd = inotify_init1(IN_NONBLOCK)) < 0) fatal("inotify_init1:
    %m"); inotifies = calloc(len, sizeof( *inotifies)); <loop>; ctx.inofd =
    inofd; ctx.inotifies = inotifies; return ctx;] *)
Definition register_inotify_files (files : list string) (len : nat)
    : M (world K) inotify_context :=
  r <- syscall (fun k => sys_inotify_init1 k IN_NONBLOCK) ;;
  if ret_code r <? 0 then fatal ("inotify_init1: " +:+ errmsg r)
  else
    slots <- register_loop files len (ret_code r) 0 len (replicate len empty_slot) ;;
    mret (mk_ctx (ret_code r) slots).

(** What a slot of the registry holds: nothing, or the path of the
    argument at the same index with a positive descriptor that watches the
    inode the path named when the program started. *)
Definition slot_ok (k0 k : K) (ifd : Z) (files : list string) (j : nat) (s : inotify) : Prop :=
  s = empty_slot \/
  exists f n, files !! j = Some f /\ path s = Some f /\ 1 <= watchfd s < 2 ^ 31 /\
              obs_inode k0 f = Some n /\ obs_watch k ifd (watchfd s) = Some n.

Definition slots_ok (k0 k : K) (ifd : Z) (files : list string) (l : list inotify) : Prop :=
  forall j s, l !! j = Some s -> slot_ok k0 k ifd files j s.

End Register.

(** The arguments whose slot is empty, in order. *)
Definition failed_args (files : list string) (slots : list inotify) : list string :=
  omap (fun x => match path x.2 with None => Some x.1 | Some _ => None end) (zip files slots).

(** The report of a failed registration on standard error. *)
Definition add_watch_error_line (f msg : string) : string :=
  "inotify_add_watch('" +:+ f +:+ "') error: " +:+ msg.

Section RegisterLaws.
Context {K : Type} `{KernelLaws K}.

Lemma slots_ok_mono k0 k k' ifd files l :
  (forall w i, obs_watch k ifd w = Some i -> obs_watch k' ifd w = Some i) ->
  slots_ok k0 k ifd files l -> slots_ok k0 k' ifd files l.
Proof.
  intros Hw Hl j s Hj. destruct (Hl j s Hj) as [->|(f & n & ? & ? & ? & ? & Hn)]; [by left|].
  right. exists f, n. eauto 10.
Qed.

Lemma slots_ok_empty k0 k ifd files len : slots_ok k0 k ifd files (replicate len empty_slot).
Proof. intros j s Hj. apply lookup_replicate in Hj as [-> _]. by left. Qed.

Lemma slots_ok_insert k0 k ifd files l i f n v :
  slots_ok k0 k ifd files l -> files !! i = Some f -> 1 <= v < 2 ^ 31 ->
  obs_inode k0 f = Some n -> obs_watch k ifd v = Some n ->
  slots_ok k0 k ifd files (<[i := mk_inotify v (Some f)]> l).
Proof.
  intros Hl Hf Hv Hi Hw j s Hj. rewrite list_lookup_insert in Hj.
  case_decide as Hij; [|by apply Hl].
  destruct Hij as [-> _]. injection Hj as <-. right. exists f, n. done.
Qed.

(** One round of the registration loop keeps the slots' meaning, the
    files and standard output; it only grows standard error. *)
Lemma register_loop_inv files len ifd n :
  forall i l w l' w', register_loop files len ifd i n l w = Done l' w' ->
  forall k0, obs_inode (w_kern w) = obs_inode k0 ->
  slots_ok k0 (w_kern w) ifd files l ->
  length l' = length l /\ obs_inode (w_kern w') = obs_inode k0 /\
  slots_ok k0 (w_kern w') ifd files l' /\ w_out w' = w_out w.
Proof.
  induction n as [|n IH]; intros i l w l' w' Hrun k0 Hino Hok; simpl in Hrun.
  { injection Hrun as <- <-. done. }
  case_bool_decide; [|injection Hrun as <- <-; done].
  destruct (files !! i) as [f|] eqn:Hf; [|injection Hrun as <- <-; done].
  apply mbind_done_inv in Hrun as (r & w1 & Hsc & Hk).
  apply syscall_done in Hsc as (k1 & Hcall & -> & _).
  destruct (add_watch_keeps _ _ _ _ _ _ Hcall) as (Hw & Hino1 & _ & _).
  destruct (ret_code r <? 0) eqn:Hneg.
  - apply mbind_done_inv in Hk as ([] & w2 & Hep & Hk). injection Hep as <-.
    edestruct (IH _ _ _ _ _ Hk k0) as (? & ? & ? & Hout); simpl; [congruence|..].
    { eapply slots_ok_mono; [|done]. apply Hw. }
    done.
  - apply Z.ltb_ge, ret_code_nonneg in Hneg. rewrite Hneg in Hcall.
    destruct (add_watch_ok _ _ _ _ _ _ Hcall) as (Hv & m & Hm & Hwm).
    edestruct (IH _ _ _ _ _ Hk k0) as (Hlen & ? & ? & Hout); simpl; [congruence|..].
    { eapply slots_ok_insert; eauto; [|congruence]. eapply slots_ok_mono; [|done]. apply Hw. }
    rewrite length_insert in Hlen. done.
Qed.

(** With a kernel that never blocks [inotify_add_watch], the loop always
    completes: a failed registration is reported and skipped. *)
Lemma register_loop_done files len ifd n :
  forall i l w, exists l' w', register_loop files len ifd i n l w = Done l' w'.
Proof.
  induction n as [|n IH]; intros i l w; simpl; [eauto|].
  case_bool_decide; [|eauto]. destruct (files !! i) as [f|]; [|eauto].
  destruct (sys_inotify_add_watch (w_kern w) ifd f default_events) as [k1 r] eqn:Hc.
  assert (r <> SysBlock) by (intros ->; by eapply add_watch_noblock).
  erewrite mbind_done by (by apply syscall_ok).
  destruct (ret_code r <? 0); [|apply IH]. unfold mbind, eprint, mmodify. apply IH.
Qed.

Lemma failed_args_cons f fs s ss :
  failed_args (f :: fs) (s :: ss) =
  match path s with None => f :: failed_args fs ss | Some _ => failed_args fs ss end.
Proof. unfold failed_args. simpl. by destruct (path s). Qed.

Lemma take_S_agree {A} (l l' : list A) i : take (S i) l = take (S i) l' -> take i l = take i l'.
Proof.
  intros Ht. apply (f_equal (take i)) in Ht. rewrite !take_take in Ht.
  by rewrite Nat.min_l in Ht by lia.
Qed.

(** What the registration loop writes on standard error: from index [i]
    on, one report per argument whose slot stays empty, in order, with
    the [strerror] text of its failure; the slots before [i] are kept. *)
Lemma register_loop_err files ifd n : forall i l w l' w',
  register_loop files (length files) ifd i n l w = Done l' w' ->
  length l = length files -> (length files <= i + n)%nat ->
  (forall j s, (i <= j)%nat -> l !! j = Some s -> path s = None) ->
  take i l' = take i l /\ length l' = length l /\
  exists msgs, Forall (fun m => exists e, m = strerror e) msgs /\
    length msgs = length (failed_args (drop i files) (drop i l')) /\
    w_err w' = w_err w ++ zip_with add_watch_error_line (failed_args (drop i files) (drop i l')) msgs.
Proof.
  induction n as [|n IH]; intros i l w l' w' Hrun Hlen Hn Hempty; simpl in Hrun.
  { injection Hrun as <- <-. rewrite drop_ge by lia.
    split; [done|split; [done|]]. exists []. simpl. by rewrite app_nil_r. }
  case_bool_decide as Hi; [|injection Hrun as <- <-; rewrite drop_ge by lia;
                           split; [done|split; [done|]]; exists []; simpl; by rewrite app_nil_r].
  destruct (lookup_lt_is_Some_2 files i Hi) as [f Hf]. rewrite Hf in Hrun.
  apply mbind_done_inv in Hrun as (r & w1 & Hsc & Hk).
  apply syscall_done in Hsc as (k1 & Hcall & -> & Hnb).
  destruct (lookup_lt_is_Some_2 l i ltac:(lia)) as [s Hs].
  rewrite (drop_S files f i Hf).
  destruct (ret_code r <? 0) eqn:Hneg.
  - apply mbind_done_inv in Hk as ([] & w2 & [= <-] & Hk).
    destruct (IH _ _ _ _ _ Hk) as (Ht & Hl & msgs & Hm & Hml & He);
      [done|lia|intros j s' Hj; apply Hempty; lia|].
    assert (Hs' : l' !! i = Some s).
    { rewrite <- (lookup_take_lt l' (S i)) by lia. rewrite Ht. by rewrite lookup_take_lt by lia. }
    rewrite (drop_S l' s i Hs'). split; [by apply take_S_agree|].
    split; [done|]. rewrite failed_args_cons, (Hempty i s ltac:(lia) Hs).
    destruct r as [v|e|]; [|exists (strerror e :: msgs)|done].
    + apply Z.ltb_lt in Hneg. simpl in Hneg. apply add_watch_ok in Hcall. lia.
    + split; [constructor; eauto|]. split; [simpl; lia|]. simpl in He |- *.
      rewrite He. by rewrite <- app_assoc.
  - apply Z.ltb_ge, ret_code_nonneg in Hneg.
    set (l1 := <[i := mk_inotify (ret_code r) (Some f)]> l) in Hk.
    destruct (IH _ _ _ _ _ Hk) as (Ht & Hl & msgs & Hm & Hml & He);
      [unfold l1; by rewrite length_insert|lia|
       intros j s' Hj; unfold l1; rewrite list_lookup_insert_ne by lia; apply Hempty; lia|].
    assert (Hs' : l' !! i = Some (mk_inotify (ret_code r) (Some f))).
    { rewrite <- (lookup_take_lt l' (S i)) by lia. rewrite Ht, lookup_take_lt by lia.
      unfold l1. apply list_lookup_insert_eq. lia. }
    rewrite (drop_S l' _ i Hs'). unfold l1 in Ht, Hl. rewrite length_insert in Hl.
    split; [|split; [done|]].
    + apply take_S_agree in Ht. rewrite Ht. by rewrite take_insert_ge by lia.
    + rewrite failed_args_cons. by exists msgs.
Qed.

End RegisterLaws.

Section RegisterTheorems.
Context {K : Type} `{KernelLaws K}.

(** after [register_inotify_files files len] the registry has exactly
    [len] slots, each empty or holding the path of the argument at its
    index with a positive descriptor that watches the inode that path
    names; nothing is written on standard output. *)
Lemma register_slots files len w ctx w' :
  register_inotify_files files len w = Done ctx w' ->
  length (inotifies ctx) = len /\
  slots_ok (w_kern w) (w_kern w') (inofd ctx) files (inotifies ctx) /\
  w_out w' = w_out w.
Proof.
  unfold register_inotify_files. intros Hrun.
  apply mbind_done_inv in Hrun as (r & w1 & Hsc & Hk).
  apply syscall_done in Hsc as (k1 & Hcall & -> & _).
  destruct (init1_keeps _ _ _ _ Hcall) as [Hino _].
  destruct (ret_code r <? 0); [by destruct (fatal_not_done _ _ _ _ Hk)|].
  apply mbind_done_inv in Hk as (l & w2 & Hl & Hret).
  injection Hret as <- <-. simpl.
  destruct (register_loop_inv _ _ _ _ _ _ _ _ _ Hl (w_kern w)) as (Hlen & _ & Hok & Hout);
    [done|apply slots_ok_empty|].
  rewrite length_replicate in Hlen. done.
Qed.

(** C4: after [register_inotify_files files len] the registry has exactly
    [len] slots, each empty or holding the path of the argument at its
    index with a positive descriptor that watches the inode that path
    names; nothing is written on standard output. *)
Theorem register_inotify_files_slots files len w ctx w' :
  register_inotify_files files len w = Done ctx w' ->
  length (inotifies ctx) = len /\
  slots_ok (w_kern w) (w_kern w') (inofd ctx) files (inotifies ctx) /\
  w_out w' = w_out w.
Proof. apply register_slots. Qed.

(** C25: the outcome of [register_inotify_files]: it stops the process with
    ["inotify_init1: %m"] exactly when [inotify_init1] fails, and
    otherwise returns a registry on the new descriptor, whatever the
    individual [inotify_add_watch] calls do. *)
Theorem register_inotify_files_outcome files len w :
  match sys_inotify_init1 (w_kern w) IN_NONBLOCK with
  | (_, SysErr e) => exists w', register_inotify_files files len w =
                                Fatal ("inotify_init1: " +:+ strerror e) w'
  | (_, SysOk fd) => exists ctx w', register_inotify_files files len w = Done ctx w' /\
                                   inofd ctx = fd
  | (_, SysBlock) => False
  end.
Proof.
  unfold register_inotify_files.
  destruct (sys_inotify_init1 (w_kern w) IN_NONBLOCK) as [k1 r] eqn:Hc.
  destruct r as [fd|e|]; [| |by eapply init1_noblock].
  - pose proof (init1_ok _ _ _ _ Hc).
    erewrite mbind_done by (apply syscall_ok; [exact Hc|discriminate]).
    simpl. destruct (Z.ltb_spec fd 0); [lia|].
    destruct (register_loop_done files len fd len 0 (replicate len empty_slot) (set_kern k1 w))
      as (l & w2 & Hl).
    erewrite mbind_done by exact Hl. eauto.
  - erewrite mbind_done by (apply syscall_ok; [exact Hc|discriminate]).
    simpl. eexists. reflexivity.
Qed.

(** C30: when the arguments name pairwise distinct inodes, the registered
    handles are pairwise distinct (spec section 8); two arguments naming
    the same inode share one handle, since the kernel reuses the watch. *)
Theorem register_handles_distinct files w ctx w' :
  register_inotify_files files (length files) w = Done ctx w' ->
  (forall i j fi fj n, i <> j -> files !! i = Some fi -> files !! j = Some fj ->
     obs_inode (w_kern w) fi = Some n -> obs_inode (w_kern w) fj <> Some n) ->
  forall i j si sj, i <> j -> inotifies ctx !! i = Some si -> inotifies ctx !! j = Some sj ->
  path si <> None -> path sj <> None -> watchfd si <> watchfd sj.
Proof.
  intros Hrun Hdist i j si sj Hij Hi Hj Hpi Hpj Heq.
  destruct (register_slots _ _ _ _ _ Hrun) as (_ & Hok & _).
  destruct (Hok i si Hi) as [->|(fi & ni & Hfi & _ & _ & Hni & Hwi)]; [done|].
  destruct (Hok j sj Hj) as [->|(fj & nj & Hfj & _ & _ & Hnj & Hwj)]; [done|].
  rewrite Heq in Hwi. rewrite Hwi in Hwj. injection Hwj as <-.
  by apply (Hdist i j fi fj ni).
Qed.

(** C29: the error path of the registration (spec section 7): each
    argument whose watch could not be added is reported once on standard
    error, in argument order, as ["inotify_add_watch('<path>') error:
    <strerror>"], and nothing else is written there; those arguments are
    exactly the ones whose slot stays empty. *)
Theorem register_reports_failures files w ctx w' :
  register_inotify_files files (length files) w = Done ctx w' ->
  exists msgs, Forall (fun m => exists e, m = strerror e) msgs /\
    length msgs = length (failed_args files (inotifies ctx)) /\
    w_err w' = w_err w ++ zip_with add_watch_error_line (failed_args files (inotifies ctx)) msgs.
Proof.
  unfold register_inotify_files. intros Hrun.
  apply mbind_done_inv in Hrun as (r & w1 & Hsc & Hk).
  apply syscall_done in Hsc as (k1 & _ & -> & _).
  destruct (ret_code r <? 0); [by destruct (fatal_not_done _ _ _ _ Hk)|].
  apply mbind_done_inv in Hk as (l & w2 & Hl & [= <- <-]). simpl.
  destruct (register_loop_err _ _ _ _ _ _ _ _ Hl) as (_ & _ & Herr);
    [by rewrite length_replicate|lia|intros j s _ Hj; apply lookup_replicate in Hj as [-> _]; done|].
  done.
Qed.

(** C31: a positive watch descriptor, as the kernel hands out, is only
    ever found by [indexof] in a filled slot of a registry whose slots
    are well formed, so the dispatcher never reads a [NULL] path for it. *)
Lemma indexof_filled k0 k ifd files l len w i :
  slots_ok k0 k ifd files l -> 1 <= w -> (len <= length l)%nat ->
  indexof l len w = Z.of_nat i ->
  exists s p, l !! i = Some s /\ path s = Some p /\ watchfd s = w.
Proof.
  intros Hok Hw Hlen Hidx. rewrite indexof_find in Hidx by done.
  destruct (find_slot_cases l len w) as [[Hm _]|(i' & s & Hi' & _ & Hs & Hws & _)]; [lia|].
  rewrite Hi' in Hidx. apply Nat2Z.inj in Hidx as <-.
  destruct (Hok _ _ Hs) as [->|(f & n & _ & Hp & _)]; [simpl in Hws; lia|].
  eauto.
Qed.

End RegisterTheorems.

(** the spec's examples: a child [foo.txt] of [/tmp] or of [/tmp/] is
    [/tmp/foo.txt], with no doubled separator. *)
Example path_of_spec_examples :
  path_of "/tmp" "foo.txt" = "/tmp/foo.txt"%string /\
  path_of "/tmp/" "foo.txt" = "/tmp/foo.txt"%string.
Proof. split; vm_compute; reflexivity. Qed.

(** the substring heuristic misreports a child whose name occurs in the
    watched path: creating [/tmp/a/tmp] under the watch on [/tmp/a] is
    reported as [/tmp/a] itself (and the new watch goes on [/tmp/a]). *)
Example path_of_substring_misreport :
  path_of "/tmp/a" "tmp" = "/tmp/a"%string /\
  resolve_full_path "/tmp/a" "tmp" = "/tmp/a/tmp"%string.
Proof. split; vm_compute; reflexivity. Qed.
