(* ===== verification/Describe.v ===== *)
(** * EventDispatcher, first half: [inspect_inotify_event] ([src/main.c])

    The symbolic description of an event: the names of the mask bits the
    code tests, in the code's order, separated by commas, and for a rename
    half ([IN_MOVE]) the cookie printed with [%d] into what is left of the
    static [char desc[NAME_MAX]]. The function also prints a line of its
    own for a rename half.

    Theorems: the description is the comma-joined list of the set bits
    followed by the cookie ([inspect_desc_spec], against the table
    [event_names]); it never fills [desc] ([inspect_desc_bound]); the
    printed cookie reads back as the cookie ([inspect_cookie_roundtrip]). *)

From S2P Require Import Prelude CStr Abi.

Local Open Scope Z_scope.
Local Open Scope cprog_scope.

(** [if (strlen(desc) > 0) strcat(desc, ","); strcat(desc, evname);] *)
Definition CONCAT_INOTIFY_EVENT (desc evname : string) : string :=
  (if bool_decide (0 < String.length desc)%nat then desc +:+ "," else desc) +:+ evname.

(** [static char *inspect_inotify_event(struct inotify_event *event)]: the
    description left in [desc], and the lines the function prints itself
    ([printf("IN_MOVE for event: wd=%d, name='%s'\n", ...)]). The mask is
    read as an [int] ([int events = event->mask]); [snprintf(desc +
    strlen(desc), sizeof(desc) - strlen(desc), " cookie=%d", cookie)]
    writes at most [sizeof(desc) - strlen(desc) - 1] characters. *)
Definition inspect_inotify_event (ev : inotify_event) : string * list string :=
  let events := s32 (ev_mask ev) in
  let desc := ""%string in
  let desc := if events &? IN_CREATE then CONCAT_INOTIFY_EVENT desc "CREATE" else desc in
  let desc := if events &? IN_DELETE then CONCAT_INOTIFY_EVENT desc "DELETE" else desc in
  let desc := if events &? IN_MODIFY then CONCAT_INOTIFY_EVENT desc "MODIFY" else desc in
  let desc := if events &? IN_ISDIR then CONCAT_INOTIFY_EVENT desc "ISDIR" else desc in
  let desc := if events &? IN_MOVE_SELF then CONCAT_INOTIFY_EVENT desc "MOVE_SELF" else desc in
  let desc := if events &? IN_MOVED_TO then CONCAT_INOTIFY_EVENT desc "MOVED_TO" else desc in
  let desc := if events &? IN_MOVED_FROM then CONCAT_INOTIFY_EVENT desc "MOVED_FROM" else desc in
  if events &? IN_MOVE then
    (desc +:+ String.substring 0 (Z.to_nat NAME_MAX - String.length desc - 1)
                 (" cookie=" +:+ fmt_d (s32 (ev_cookie ev))),
     ["IN_MOVE for event: wd=" +:+ fmt_d (ev_wd ev) +:+ ", name='" +:+ ev_name ev +:+ "'"])
  else (desc, []).

(** ** The reference description *)

(** The bits the code names, in the order it tests them. *)
Definition event_names : list (Z * string) :=
  [(IN_CREATE, "CREATE"); (IN_DELETE, "DELETE"); (IN_MODIFY, "MODIFY");
   (IN_ISDIR, "ISDIR"); (IN_MOVE_SELF, "MOVE_SELF"); (IN_MOVED_TO, "MOVED_TO");
   (IN_MOVED_FROM, "MOVED_FROM")]%string.

Definition describe_bits (m : Z) : string :=
  String.concat "," (snd <$> filter (fun p => (m &? p.1) = true) event_names).

Definition cookie_text (c : Z) : string := " cookie=" +:+ fmt_d (s32 c).

(** ** Lemmas *)

Lemma land_mod32 a b : 0 <= b < 2 ^ 32 -> Z.land a b = Z.land (a mod 2 ^ 32) b.
Proof.
  intros Hb. rewrite <- (Z.land_ones a 32) by lia.
  rewrite <- Z.land_assoc, (Z.land_comm (Z.ones 32) b), Z.land_ones by lia.
  by rewrite Z.mod_small.
Qed.

(** Reading the mask as an [int] changes none of the bits the code tests. *)
Lemma mask_has_s32 m b :
  0 <= m < 2 ^ 32 -> 0 <= b < 2 ^ 32 -> (s32 m &? b) = (m &? b).
Proof.
  intros Hm Hb. unfold mask_has. f_equal. f_equal.
  rewrite (land_mod32 (s32 m)), (land_mod32 m) by done. f_equal.
  destruct (Z.ltb_spec m (2 ^ 31)).
  - by rewrite s32_small by lia.
  - rewrite s32_high by lia.
    replace (m - 2 ^ 32) with (m + (-1) * 2 ^ 32) by lia. by rewrite Z.mod_add.
Qed.

Lemma substring_full s n : (String.length s <= n)%nat -> String.substring 0 n s = s.
Proof.
  revert n. induction s as [|c s IH]; intros [|n] Hn; simpl in *; try done; [lia|].
  rewrite IH by lia. done.
Qed.

Lemma length_cookie_text c : 0 <= c < 2 ^ 32 -> (String.length (cookie_text c) <= 42)%nat.
Proof.
  intros Hc. unfold cookie_text. rewrite length_append.
  pose proof (length_fmt_d (s32 c)) as Hl. pose proof (s32_range c). simpl. lia.
Qed.

Lemma substring_cookie d ct :
  (String.length ct <= 42)%nat -> (String.length d <= 200)%nat ->
  String.substring 0 (Z.to_nat NAME_MAX - String.length d - 1) ct = ct.
Proof. intros. apply substring_full. unfold NAME_MAX. lia. Qed.

Ltac mask_const_range :=
  cbv [IN_CREATE IN_DELETE IN_MODIFY IN_ISDIR IN_MOVE_SELF IN_MOVED_TO IN_MOVED_FROM IN_MOVE];
  vm_compute; split; congruence.

(** The code's chain of [CONCAT_INOTIFY_EVENT]s, one per tested bit. *)
Fixpoint concat_chain (desc : string) (l : list (bool * string)) : string :=
  match l with
  | [] => desc
  | (b, n) :: t => concat_chain (if b then CONCAT_INOTIFY_EVENT desc n else desc) t
  end.

Definition selected (l : list (bool * string)) : list string :=
  snd <$> filter (fun p => p.1 = true) l.

(** The text the chain appends after a non-empty description. *)
Definition tail_text (l : list string) : string := foldr (fun n acc => "," +:+ n +:+ acc) "" l.

Lemma concat_comma_cons n l : String.concat "," (n :: l) = n +:+ tail_text l.
Proof.
  revert n. induction l as [|m l IH]; intros n; [by rewrite append_nil_r|].
  change (String.concat "," (n :: m :: l)) with (n +:+ "," +:+ String.concat "," (m :: l)).
  rewrite IH. done.
Qed.

Lemma concat_chain_nonempty d l :
  d <> ""%string -> concat_chain d l = d +:+ tail_text (selected l).
Proof.
  revert d. induction l as [|[b n] t IH]; intros d Hd; simpl.
  - by rewrite append_nil_r.
  - unfold selected. rewrite filter_cons. destruct b; simpl.
    + unfold CONCAT_INOTIFY_EVENT. rewrite bool_decide_true
        by (destruct d; [done|simpl; lia]).
      rewrite IH by (destruct d; [done|discriminate]).
      change (tail_text (n :: selected t)) with ("," +:+ n +:+ tail_text (selected t)).
      rewrite <- !append_assoc_str. done.
    + by apply IH.
Qed.

(** Starting from the empty [desc], the chain writes the selected names
    separated by commas (names are non-empty). *)
Lemma concat_chain_spec l :
  Forall (fun p => p.2 <> ""%string) l ->
  concat_chain "" l = String.concat "," (selected l).
Proof.
  induction 1 as [|[b n] t Hn _ IH]; [done|]. cbn [concat_chain].
  change (selected ((b, n) :: t)) with (snd <$> filter (fun p => p.1 = true) ((b, n) :: t)).
  rewrite filter_cons. destruct b.
  - rewrite decide_True by done.
    change (snd <$> ((true, n) :: filter (fun p => p.1 = true) t)) with (n :: selected t).
    change (CONCAT_INOTIFY_EVENT "" n) with n.
    rewrite concat_chain_nonempty by done. by rewrite concat_comma_cons.
  - rewrite decide_False by done. exact IH.
Qed.

Lemma length_concat_chain d l :
  (String.length (concat_chain d l) <=
   String.length d + foldr (fun p acc => S (String.length p.2) + acc) 0 l)%nat.
Proof.
  revert d. induction l as [|[b n] t IH]; intros d; cbn [concat_chain foldr]; [lia|].
  specialize (IH (if b then CONCAT_INOTIFY_EVENT d n else d)).
  destruct b; [|cbn [fst snd]; lia]. unfold CONCAT_INOTIFY_EVENT in *. cbn [fst snd].
  case_bool_decide; rewrite ?length_append in IH; cbn [String.length] in IH; lia.
Qed.

(** The tested bits of a mask, paired with their names. *)
Definition mask_bits (m : Z) : list (bool * string) :=
  (fun p => (m &? p.1, p.2)) <$> event_names.

Lemma filter_selected (f : Z -> bool) (l : list (Z * string)) :
  snd <$> filter (fun p => f p.1 = true) l = selected ((fun p => (f p.1, p.2)) <$> l).
Proof.
  unfold selected. induction l as [|p l IH]; [done|].
  rewrite fmap_cons, !filter_cons. cbn [fst snd].
  destruct (f p.1); [rewrite !decide_True by done | rewrite !decide_False by done];
    rewrite ?fmap_cons, IH; done.
Qed.

Lemma describe_bits_selected m : describe_bits m = String.concat "," (selected (mask_bits m)).
Proof. unfold describe_bits, mask_bits. by rewrite filter_selected. Qed.

Lemma mask_bits_s32 m : 0 <= m < 2 ^ 32 -> mask_bits (s32 m) = mask_bits m.
Proof.
  intros Hm. unfold mask_bits, event_names. cbn [fmap list_fmap fst snd].
  rewrite !mask_has_s32 by (done || mask_const_range). done.
Qed.

Lemma inspect_fst_chain ev :
  fst (inspect_inotify_event ev) =
  (if s32 (ev_mask ev) &? IN_MOVE then
     concat_chain "" (mask_bits (s32 (ev_mask ev))) +:+
       String.substring 0 (Z.to_nat NAME_MAX -
                           String.length (concat_chain "" (mask_bits (s32 (ev_mask ev)))) - 1)
         (cookie_text (ev_cookie ev))
   else concat_chain "" (mask_bits (s32 (ev_mask ev)))).
Proof. unfold inspect_inotify_event. by destruct (s32 (ev_mask ev) &? IN_MOVE). Qed.

Lemma event_names_nonempty m : Forall (fun p => p.2 <> ""%string) (mask_bits m).
Proof. repeat constructor; discriminate. Qed.

Lemma length_chain_bits m : (String.length (concat_chain "" (mask_bits m)) <= 57)%nat.
Proof.
  eapply Nat.le_trans; [apply length_concat_chain|]. apply Nat.eq_le_incl. reflexivity.
Qed.

(** for every mask and cookie the kernel can deliver, the description
    is the comma-separated names of the tested bits that are set, in the
    code's order, followed for a rename half by [" cookie=%d"]. *)
Lemma inspect_desc_bits ev :
  0 <= ev_mask ev < 2 ^ 32 -> 0 <= ev_cookie ev < 2 ^ 32 ->
  fst (inspect_inotify_event ev) =
  describe_bits (ev_mask ev) +:+
  (if ev_mask ev &? IN_MOVE then cookie_text (ev_cookie ev) else "").
Proof.
  intros Hm Hc. rewrite inspect_fst_chain, mask_bits_s32, mask_has_s32 by (done || mask_const_range).
  rewrite describe_bits_selected, <- concat_chain_spec by apply event_names_nonempty.
  pose proof (length_chain_bits (ev_mask ev)). pose proof (length_cookie_text _ Hc).
  destruct (ev_mask ev &? IN_MOVE); [|by rewrite append_nil_r].
  rewrite substring_cookie by lia. done.
Qed.

(** C9: for every mask and cookie the kernel can deliver, the description
    is the comma-separated names of the tested bits that are set, in the
    code's order, followed for a rename half by [" cookie=%d"]. *)
Theorem inspect_desc_spec ev :
  0 <= ev_mask ev < 2 ^ 32 -> 0 <= ev_cookie ev < 2 ^ 32 ->
  fst (inspect_inotify_event ev) =
  describe_bits (ev_mask ev) +:+
  (if ev_mask ev &? IN_MOVE then cookie_text (ev_cookie ev) else "").
Proof. apply inspect_desc_bits. Qed.

Lemma inspect_desc_spec_witness :
  0 <= ev_mask (mk_event 1 (Z.lor IN_CREATE IN_ISDIR) 0 0 "d") < 2 ^ 32 /\
  0 <= ev_cookie (mk_event 1 (Z.lor IN_CREATE IN_ISDIR) 0 0 "d") < 2 ^ 32 /\
  fst (inspect_inotify_event (mk_event 1 (Z.lor IN_CREATE IN_ISDIR) 0 0 "d")) =
  describe_bits (Z.lor IN_CREATE IN_ISDIR) +:+
  (if Z.lor IN_CREATE IN_ISDIR &? IN_MOVE then cookie_text 0 else "").
Proof.
  assert (H1 : 0 <= ev_mask (mk_event 1 (Z.lor IN_CREATE IN_ISDIR) 0 0 "d") < 2 ^ 32)
    by (simpl; mask_const_range).
  assert (H2 : 0 <= ev_cookie (mk_event 1 (Z.lor IN_CREATE IN_ISDIR) 0 0 "d") < 2 ^ 32)
    by (simpl; lia).
  split; [exact H1|]. split; [exact H2|]. exact (inspect_desc_spec _ H1 H2).
Defined.

(** C26: whatever the event, the description fits the static
    [char desc[NAME_MAX]] with its terminator: the unbounded [strcat]s
    write at most 57 bytes and the cookie at most 42. *)
Theorem inspect_desc_bound ev :
  (String.length (fst (inspect_inotify_event ev)) < Z.to_nat NAME_MAX)%nat.
Proof.
  rewrite inspect_fst_chain. pose proof (length_chain_bits (s32 (ev_mask ev))).
  assert (String.length (cookie_text (ev_cookie ev)) <= 42)%nat.
  { unfold cookie_text. rewrite length_append.
    pose proof (length_fmt_d (s32 (ev_cookie ev))) as Hl. pose proof (s32_range (ev_cookie ev)).
    simpl. lia. }
  destruct (s32 (ev_mask ev) &? IN_MOVE); [|unfold NAME_MAX; lia].
  rewrite length_append, substring_cookie by lia. unfold NAME_MAX. lia.
Qed.

(** C27: the cookie of a rename half is printed so that it reads back:
    the digits after [" cookie="] parse to an [int] whose 32 bits are the
    cookie, so the two halves of a rename can be paired downstream. *)
Theorem inspect_cookie_roundtrip ev :
  0 <= ev_mask ev < 2 ^ 32 -> 0 <= ev_cookie ev < 2 ^ 32 -> (ev_mask ev &? IN_MOVE) = true ->
  exists digits,
    fst (inspect_inotify_event ev) = describe_bits (ev_mask ev) +:+ " cookie=" +:+ digits /\
    option_map (fun i => u32 (Z.of_int i)) (NilZero.int_of_string digits) = Some (ev_cookie ev).
Proof.
  intros Hm Hc Hmove. exists (fmt_d (s32 (ev_cookie ev))).
  rewrite inspect_desc_bits, Hmove by done. split; [done|].
  pose proof (fmt_d_roundtrip (s32 (ev_cookie ev))) as Hr.
  destruct (NilZero.int_of_string _) as [i|]; [|done]. simpl in *.
  injection Hr as ->. f_equal. by apply u32_s32.
Qed.

Lemma inspect_cookie_roundtrip_witness :
  0 <= ev_mask (mk_event 1 IN_MOVED_FROM 42 0 "a") < 2 ^ 32 /\
  0 <= ev_cookie (mk_event 1 IN_MOVED_FROM 42 0 "a") < 2 ^ 32 /\
  (ev_mask (mk_event 1 IN_MOVED_FROM 42 0 "a") &? IN_MOVE) = true /\
  exists digits,
    fst (inspect_inotify_event (mk_event 1 IN_MOVED_FROM 42 0 "a")) =
      describe_bits IN_MOVED_FROM +:+ " cookie=" +:+ digits /\
    option_map (fun i => u32 (Z.of_int i)) (NilZero.int_of_string digits) = Some 42.
Proof.
  assert (H1 : 0 <= ev_mask (mk_event 1 IN_MOVED_FROM 42 0 "a") < 2 ^ 32) by (simpl; mask_const_range).
  assert (H2 : 0 <= ev_cookie (mk_event 1 IN_MOVED_FROM 42 0 "a") < 2 ^ 32) by (simpl; lia).
  assert (H3 : (ev_mask (mk_event 1 IN_MOVED_FROM 42 0 "a") &? IN_MOVE) = true) by reflexivity.
  split; [exact H1|]. split; [exact H2|]. split; [exact H3|].
  exact (inspect_cookie_roundtrip (mk_event 1 IN_MOVED_FROM 42 0 "a") H1 H2 H3).
Defined.

(** the two halves of a rename sharing cookie 42 are described as
    ["MOVED_FROM cookie=42"] and ["MOVED_TO cookie=42"] (spec section 8),
    and each prints its own [IN_MOVE for event] line first. *)
Example inspect_rename_pair :
  inspect_inotify_event (mk_event 1 IN_MOVED_FROM 42 16 "a") =
    ("MOVED_FROM cookie=42", ["IN_MOVE for event: wd=1, name='a'"])%string /\
  inspect_inotify_event (mk_event 1 IN_MOVED_TO 42 16 "b") =
    ("MOVED_TO cookie=42", ["IN_MOVE for event: wd=1, name='b'"])%string.
Proof. split; vm_compute; reflexivity. Qed.

(** a cookie of [2^31] or more is printed negative: [%d] reads the
    [uint32_t] as an [int]. *)
Example inspect_cookie_negative :
  fst (inspect_inotify_event (mk_event 1 IN_MOVED_TO (2 ^ 31) 16 "b")) =
    "MOVED_TO cookie=-2147483648"%string.
Proof. vm_compute. reflexivity. Qed.
