(* ===== verification/Poller.v ===== *)
(** * Poller: [struct poller] and its epoll backend ([src/poller.h],
      [src/poller.c])

    [struct poller] is a table of three operations; [struct epoll_poller]
    embeds it next to the epoll descriptor, and each operation recovers
    the [epoll_poller] with [container_of]. Here the table is the record
    [poller] of operations in the process monad, and the epoll backend
    [epoll_poller_ops ep] closes over the [epoll_poller] [ep], which is
    what [container_of] recovers.

    Theorems: [epoll_poll_loop] equals a reference definition: the kept
    descriptors in order at the front, the count set to their number or
    left untouched when it keeps none ([epoll_poll_loop_ref]); against
    what [epoll_wait] returned, the backend refines the poller contract
    of spec section 4.1 and hands back the caller's array only when no
    returned event is kept ([epoll_poll_refines]). For the edge-triggered
    registration: a [poll] that blocks had no ready descriptor
    ([epoll_poll_blocked]), and a pending wakeup of a registered
    descriptor survives a [poll] unless the [poll] returned it
    ([epoll_poll_wakeup]). *)

From S2P Require Import Prelude CStr Abi Kernel.

Local Open Scope Z_scope.
Local Open Scope cprog_scope.

(** [struct poller_event { int fd; }] *)
Record poller_event := mk_poller_event { pe_fd : Z }.

(** [struct poller]: [poll_add], [poll_delete] and [poll(poller, events,
    &len)], whose [len] is the capacity on entry and the count on return. *)
Record poller (K : Type) := mk_poller {
  poll_add : Z -> M (world K) Z;
  poll_delete : Z -> M (world K) Z;
  poll : list poller_event -> Z -> M (world K) (list poller_event * Z);
}.
Arguments mk_poller {K} _ _ _.
Arguments poll_add {K} _ _.
Arguments poll_delete {K} _ _.
Arguments poll {K} _ _ _.

(** [struct epoll_poller { int epollfd; struct poller poller; }] *)
Record epoll_poller := mk_epoll_poller { epollfd : Z }.

(** The body of [epoll_poll]'s loop: [for (int i = 0, j = 0; i < n; i++)
    { if (events[i].data.fd > 0 && events[i].events & EPOLLIN) {
    pevents[j++].fd = events[i].data.fd; *len = j; } }] *)
Fixpoint epoll_poll_loop (evs : list epoll_event) (j : nat) (pevents : list poller_event)
    (len : Z) : list poller_event * Z :=
  match evs with
  | [] => (pevents, len)
  | e :: evs' =>
      if bool_decide (0 < ep_data_fd e) && (ep_events e &? EPOLLIN) then
        epoll_poll_loop evs' (S j) (<[j := mk_poller_event (ep_data_fd e)]> pevents)
          (Z.of_nat (S j))
      else epoll_poll_loop evs' j pevents len
  end.

Section Epoll.
Context {K : Type} `{Kernel K}.

(** [epoll_operate]: [if (op != EPOLL_CTL_DEL) { event.events = EPOLLIN |
    EPOLLET; event.data.fd = fd; } return epoll_ctl(epoller->epollfd, op,
    fd, &event);] ([None]: the event is left uninitialised). *)
Definition epoll_operate (ep : epoll_poller) (fd op : Z) : M (world K) Z :=
  r <- syscall (fun k => sys_epoll_ctl k (epollfd ep) op fd
                   (if bool_decide (op <> EPOLL_CTL_DEL)
                    then Some (mk_epoll_event (Z.lor EPOLLIN EPOLLET) fd) else None)) ;;
  mret (match r with SysOk _ => 0 | _ => -1 end).

Definition epoll_poll_add (ep : epoll_poller) (fd : Z) : M (world K) Z :=
  epoll_operate ep fd EPOLL_CTL_ADD.

Definition epoll_poll_del (ep : epoll_poller) (fd : Z) : M (world K) Z :=
  epoll_operate ep fd EPOLL_CTL_DEL.

(** [epoll_poll]: [if ((n = epoll_wait(epoller->epollfd, events, *len,
    -1)) < 0) fatal("epoll_wait: %m");] then the loop above. *)
Definition epoll_poll (ep : epoll_poller) (pevents : list poller_event) (len : Z)
    : M (world K) (list poller_event * Z) :=
  r <- syscall (fun k => sys_epoll_wait k (epollfd ep) (Z.to_nat len)) ;;
  match r with
  | SysOk evs => mret (epoll_poll_loop evs 0 pevents len)
  | _ => fatal ("epoll_wait: " +:+ errmsg r)
  end.

(** [static struct poller poller_ops = { .poll = epoll_poll, .poll_add =
    epoll_poll_add, .poll_delete = epoll_poll_del };] with the
    [container_of] recovery made explicit. *)
Definition epoll_poller_ops (ep : epoll_poller) : poller K :=
  mk_poller (epoll_poll_add ep) (epoll_poll_del ep) (epoll_poll ep).

(** [poller_create]: [poller = malloc(sizeof( *poller)); poller->poller =
    poller_ops; if ((poller->epollfd = epoll_create(1)) < 0)
    fatal("epoll_create1: %m"); return &poller->poller;] *)
Definition poller_create : M (world K) epoll_poller :=
  r <- syscall (fun k => sys_epoll_create k 1) ;;
  if ret_code r <? 0 then fatal ("epoll_create1: " +:+ errmsg r)
  else mret (mk_epoll_poller (ret_code r)).

(** [poller_destroy]: [free(epoller)]; the epoll descriptor is not
    closed. *)
Definition poller_destroy (ep : epoll_poller) : M (world K) unit := mret tt.

End Epoll.

(** ** The loop of [epoll_poll] *)

(** The events [epoll_poll] keeps: a positive descriptor that is readable. *)
Definition kept (e : epoll_event) : bool := bool_decide (0 < ep_data_fd e) && (ep_events e &? EPOLLIN).

Definition kept_events (evs : list epoll_event) : list epoll_event :=
  filter (fun e => kept e = true) evs.

Definition fds_of (evs : list epoll_event) : list poller_event :=
  (fun e => mk_poller_event (ep_data_fd e)) <$> evs.

Lemma take_S_insert {A} (l : list A) j x :
  (j < length l)%nat -> take (S j) (<[j := x]> l) = take j l ++ [x].
Proof.
  intros Hj. rewrite (take_S_r _ _ x) by (by apply list_lookup_insert_eq).
  by rewrite take_insert_ge by lia.
Qed.

Lemma epoll_poll_loop_spec evs : forall j pev len pev' n,
  epoll_poll_loop evs j pev len = (pev', n) -> (j + length evs <= length pev)%nat ->
  (kept_events evs = [] /\ pev' = pev /\ n = len) \/
  (kept_events evs <> [] /\ n = Z.of_nat (j + length (kept_events evs)) /\
   length pev' = length pev /\
   take (j + length (kept_events evs)) pev' = take j pev ++ fds_of (kept_events evs)).
Proof.
  induction evs as [|e evs IH]; intros j pev len pev' n Hrun Hlen; simpl in Hrun.
  { injection Hrun as <- <-. by left. }
  unfold kept_events. rewrite filter_cons. fold (kept e). fold (kept_events evs).
  simpl in Hlen. fold (kept e) in Hrun. destruct (kept e) eqn:Hk.
  - rewrite decide_True by done. right. split; [done|].
    destruct (IH _ _ _ _ _ Hrun) as [(Hnil & -> & ->)|(Hne & -> & Hl & Ht)];
      rewrite ?length_insert; [lia| |].
    + rewrite Hnil. simpl. rewrite ?length_insert. split; [f_equal; lia|]. split; [done|].
      rewrite Nat.add_1_r, take_S_insert by lia. done.
    + cbn [length fds_of fmap list_fmap]. rewrite length_insert in Hl.
      split; [f_equal; lia|]. split; [done|].
      replace (j + S (length (kept_events evs)))%nat with (S j + length (kept_events evs))%nat by lia.
      rewrite Ht, take_S_insert by lia. by rewrite <- app_assoc.
  - rewrite decide_False by done. eapply IH; [exact Hrun|lia].
Qed.

(** The reference behaviour of the loop: the kept descriptors in order
    at the front of the array, the rest of the array as it was, and the
    count set to their number only when there is one. *)
Definition epoll_poll_ref (evs : list epoll_event) (pevents : list poller_event) (len : Z)
    : list poller_event * Z :=
  let ks := fds_of (kept_events evs) in
  (ks ++ drop (length ks) pevents, match ks with [] => len | _ => Z.of_nat (length ks) end).

Lemma epoll_poll_loop_from evs : forall j pev len,
  (j + length evs <= length pev)%nat ->
  epoll_poll_loop evs j pev len =
  (take j pev ++ fds_of (kept_events evs) ++ drop (j + length (kept_events evs)) pev,
   match kept_events evs with [] => len | _ => Z.of_nat (j + length (kept_events evs)) end).
Proof.
  induction evs as [|e evs IH]; intros j pev len Hlen; simpl.
  { by rewrite Nat.add_0_r, take_drop. }
  unfold kept_events. rewrite filter_cons. fold (kept e). fold (kept_events evs).
  simpl in Hlen. destruct (kept e) eqn:Hk; simpl; [|apply IH; lia].
  rewrite IH by (rewrite length_insert; lia).
  rewrite take_S_insert by lia. rewrite drop_insert_lt by lia. rewrite <- app_assoc. simpl.
  rewrite Nat.add_succ_r. f_equal. destruct (kept_events evs); [simpl; lia|done].
Qed.

(** C11: the loop of [epoll_poll], run on the [n <= *len] events
    [epoll_wait] returned, computes the reference behaviour: the kept
    descriptors in order at the front of [pevents], the other entries
    untouched, and [*len] set to their number, or left as it was when no
    event is kept. *)
Theorem epoll_poll_loop_ref evs pevents len :
  (length evs <= length pevents)%nat ->
  epoll_poll_loop evs 0 pevents len = epoll_poll_ref evs pevents len.
Proof.
  intros Hlen. rewrite epoll_poll_loop_from by (simpl; lia).
  unfold epoll_poll_ref, fds_of. rewrite length_fmap. simpl.
  by destruct (kept_events evs).
Qed.

Lemma epoll_poll_loop_ref_witness :
  (length [mk_epoll_event EPOLLIN 3; mk_epoll_event EPOLLERR 5; mk_epoll_event EPOLLIN 4]
     <= length (replicate 4 (mk_poller_event 0)))%nat /\
  epoll_poll_loop [mk_epoll_event EPOLLIN 3; mk_epoll_event EPOLLERR 5; mk_epoll_event EPOLLIN 4] 0
    (replicate 4 (mk_poller_event 0)) 4 =
  epoll_poll_ref [mk_epoll_event EPOLLIN 3; mk_epoll_event EPOLLERR 5; mk_epoll_event EPOLLIN 4]
    (replicate 4 (mk_poller_event 0)) 4.
Proof.
  assert (Hl : (length [mk_epoll_event EPOLLIN 3; mk_epoll_event EPOLLERR 5; mk_epoll_event EPOLLIN 4]
                <= length (replicate 4 (mk_poller_event 0)))%nat) by (simpl; lia).
  split; [exact Hl|]. exact (epoll_poll_loop_ref _ _ 4 Hl).
Defined.

(** ** The poller contract (spec section 4.1) and its refinement *)

(** What [wait] promises: a non-empty list of descriptors, each of them
    registered. *)
Definition wait_contract (registered ready : list Z) : Prop :=
  ready <> [] /\ forall fd, fd ∈ ready -> fd ∈ registered.

(** The interest list of the poller: every entry carries its own
    descriptor as data, as [epoll_operate] registers it. *)
Definition interest_ok (l : list (Z * epoll_event)) : Prop :=
  forall fd ev, (fd, ev) ∈ l -> ep_data_fd ev = fd.

Definition registered_fds (l : list (Z * epoll_event)) : list Z := fst <$> l.

(** The interface [inotify_all_file] relies on, for any backend of
    [struct poller]: an invariant [ps_inv] of the kernel state and the set
    [ps_reg] of registered descriptors. [poll_add] returns and keeps what
    was registered; [poll] either fills the first [n] entries with
    registered descriptors or hands back the caller's array and count
    (the contract of spec section 4.1, with the escape the C interface
    allows); the calls of the other components keep the registration. *)
Record poller_spec {K : Type} `{Kernel K} (p : poller K) := {
  ps_inv : K -> Prop;
  ps_reg : K -> list Z;
  ps_add : forall fd w, ps_inv (w_kern w) ->
    exists r w', poll_add p fd w = Done r w' /\ w_out w' = w_out w /\ ps_inv (w_kern w') /\
      (r = 0 -> fd ∈ ps_reg (w_kern w')) /\
      (forall x, x ∈ ps_reg (w_kern w) -> x ∈ ps_reg (w_kern w')) /\
      (forall fd', obs_pending (w_kern w') fd' = obs_pending (w_kern w) fd');
  ps_poll : forall pev len w pev' n w',
    poll p pev len w = Done (pev', n) w' -> 0 <= len -> length pev = Z.to_nat len ->
    ps_inv (w_kern w) ->
    ps_inv (w_kern w') /\ ps_reg (w_kern w') = ps_reg (w_kern w) /\ w_out w' = w_out w /\
    (forall fd, obs_pending (w_kern w') fd = obs_pending (w_kern w) fd) /\
    ((1 <= n <= len /\ length pev' = length pev /\
      wait_contract (ps_reg (w_kern w)) (pe_fd <$> take (Z.to_nat n) pev')) \/
     (pev' = pev /\ n = len));
  ps_poll_runs : forall pev len w, poll p pev len w <> NoFuel;
  ps_poll_blocked : forall pev len w w', poll p pev len w = Blocked w' -> w' = w;
  ps_sys_keeps : forall k k',
    ((exists fd n r, sys_read k fd n = (k', r)) \/
     (exists fd q m r, sys_inotify_add_watch k fd q m = (k', r))) ->
    ps_inv k -> ps_inv k' /\ ps_reg k' = ps_reg k;
}.
Arguments ps_inv {K _ p} _ _.
Arguments ps_reg {K _ p} _ _.

Section EpollLaws.
Context {K : Type} `{KernelLaws K}.

Lemma fds_of_take_kept evs :
  pe_fd <$> fds_of (kept_events evs) = ep_data_fd <$> kept_events evs.
Proof. unfold fds_of. rewrite <- list_fmap_compose. done. Qed.

Lemma kept_registered k epfd evs :
  interest_ok (obs_interest k epfd) ->
  (forall e, e ∈ evs -> exists fd ev, (fd, ev) ∈ obs_interest k epfd /\ ep_data_fd e = ep_data_fd ev) ->
  forall fd, fd ∈ ep_data_fd <$> kept_events evs -> fd ∈ registered_fds (obs_interest k epfd).
Proof.
  intros Hok Hreg fd Hfd. apply list_elem_of_fmap in Hfd as (e & -> & He).
  apply list_elem_of_filter in He as [_ He]. destruct (Hreg e He) as (fd & ev & Hin & Hd).
  rewrite Hd, (Hok fd ev Hin). apply list_elem_of_fmap. by exists (fd, ev).
Qed.

(** refinement of the poller contract: a [poll] of capacity [len] into
    an array of [len] entries either returns [nready >= 1] registered
    descriptors in its first [nready] entries, or — when no reported event
    has a positive readable descriptor — returns the caller's array and
    count unchanged. *)
Lemma epoll_poll_cases ep pev len w pev' n w' :
  epoll_poll ep pev len w = Done (pev', n) w' ->
  0 <= len -> length pev = Z.to_nat len ->
  interest_ok (obs_interest (w_kern w) (epollfd ep)) ->
  (1 <= n <= len /\ length pev' = length pev /\
   wait_contract (registered_fds (obs_interest (w_kern w) (epollfd ep)))
                 (pe_fd <$> take (Z.to_nat n) pev')) \/
  (pev' = pev /\ n = len).
Proof.
  intros Hrun Hlen Hpev Hok. unfold epoll_poll in Hrun.
  apply mbind_done_inv in Hrun as (r & w1 & Hsc & Hk).
  apply syscall_done in Hsc as (k1 & Hcall & -> & _).
  destruct r as [evs|e|]; [|by destruct (fatal_not_done _ _ _ _ Hk)|by destruct (fatal_not_done _ _ _ _ Hk)].
  injection Hk as Hloop _.
  destruct (epoll_wait_ok _ _ _ _ _ Hcall) as [Hn Hreg].
  destruct (epoll_poll_loop_spec _ _ _ _ _ _ Hloop) as [(_ & -> & ->)|(Hne & -> & Hl & Ht)]; [lia|by right|].
  left. rewrite Nat2Z.id, Ht. simpl. split; [|split; [done|]].
  - pose proof (length_filter (fun e => kept e = true) evs). fold (kept_events evs) in *.
    destruct (kept_events evs); [done|simpl in *; lia].
  - unfold fds_of. rewrite <- list_fmap_compose. split.
    + by destruct (kept_events evs).
    + apply (kept_registered _ _ evs Hok Hreg).
Qed.

(** What a completed [epoll_poll] did: one [epoll_wait], then the loop
    over the events it returned. *)
Lemma epoll_poll_done ep pev len w pev' n w' :
  epoll_poll ep pev len w = Done (pev', n) w' ->
  exists evs, sys_epoll_wait (w_kern w) (epollfd ep) (Z.to_nat len) = (w_kern w', SysOk evs) /\
    w' = set_kern (w_kern w') w /\ epoll_poll_loop evs 0 pev len = (pev', n).
Proof.
  unfold epoll_poll. intros Hrun. apply mbind_done_inv in Hrun as (r & w1 & Hsc & Hk).
  apply syscall_done in Hsc as (k1 & Hcall & -> & _).
  destruct r as [evs|e|]; [|by destruct (fatal_not_done _ _ _ _ Hk)|by destruct (fatal_not_done _ _ _ _ Hk)].
  injection Hk as Hloop <-. by exists evs.
Qed.

(** C5: refinement of the poller contract (spec section 4.1) by the
    epoll backend, against what [epoll_wait] returned: when some returned
    event has a positive readable descriptor, [poll] returns
    [nready >= 1] and the first [nready] entries are exactly those
    descriptors, in order, all registered; only when no returned event
    has one does it hand back the caller's array and count unchanged. *)
Theorem epoll_poll_refines ep pev len w pev' n w' :
  epoll_poll ep pev len w = Done (pev', n) w' ->
  0 <= len -> length pev = Z.to_nat len ->
  interest_ok (obs_interest (w_kern w) (epollfd ep)) ->
  exists evs, sys_epoll_wait (w_kern w) (epollfd ep) (Z.to_nat len) = (w_kern w', SysOk evs) /\
  ((kept_events evs <> [] /\ 1 <= n <= len /\ length pev' = length pev /\
    pe_fd <$> take (Z.to_nat n) pev' = ep_data_fd <$> kept_events evs /\
    wait_contract (registered_fds (obs_interest (w_kern w) (epollfd ep)))
                  (pe_fd <$> take (Z.to_nat n) pev')) \/
   (kept_events evs = [] /\ pev' = pev /\ n = len)).
Proof.
  intros Hrun Hlen Hpev Hok. apply epoll_poll_done in Hrun as (evs & Hcall & _ & Hloop).
  exists evs. split; [done|]. destruct (epoll_wait_ok _ _ _ _ _ Hcall) as [Hn Hreg].
  destruct (epoll_poll_loop_spec _ _ _ _ _ _ Hloop) as [(Hnil & -> & ->)|(Hne & -> & Hl & Ht)];
    [lia|by right|].
  left. rewrite Nat2Z.id, Ht. simpl. rewrite fds_of_take_kept.
  pose proof (length_filter (fun e => kept e = true) evs). fold (kept_events evs) in *.
  split; [done|]. split; [destruct (kept_events evs); [done|simpl in *; lia]|].
  split; [done|]. split; [done|]. split; [by destruct (kept_events evs)|].
  apply (kept_registered _ _ evs Hok Hreg).
Qed.

(** [poll_add] of the epoll backend always returns; it registers the
    descriptor with itself as data when it returns [0], changes nothing
    when it returns [-1], keeps every registered descriptor, the interest
    list well formed and the kernel's pending work as they were. *)
Lemma epoll_poll_add_spec ep fd w :
  interest_ok (obs_interest (w_kern w) (epollfd ep)) ->
  exists r w', epoll_poll_add ep fd w = Done r w' /\ w_out w' = w_out w /\
  interest_ok (obs_interest (w_kern w') (epollfd ep)) /\
  (r = 0 -> fd ∈ registered_fds (obs_interest (w_kern w') (epollfd ep))) /\
  (forall x, x ∈ registered_fds (obs_interest (w_kern w) (epollfd ep)) ->
             x ∈ registered_fds (obs_interest (w_kern w') (epollfd ep))) /\
  (forall fd', obs_pending (w_kern w') fd' = obs_pending (w_kern w) fd').
Proof.
  unfold epoll_poll_add, epoll_operate. intros Hok.
  rewrite bool_decide_true by (unfold EPOLL_CTL_ADD, EPOLL_CTL_DEL; lia).
  match goal with |- context [sys_epoll_ctl _ ?a ?b ?c ?d] =>
    destruct (sys_epoll_ctl (w_kern w) a b c d) as [k1 res] eqn:Hcall end.
  assert (res <> SysBlock) by (intros ->; by eapply epoll_ctl_noblock).
  erewrite mbind_done by (apply syscall_ok; [exact Hcall|done]).
  do 2 eexists. split; [reflexivity|]. simpl. split; [done|].
  destruct (epoll_keeps (w_kern w) k1) as (_ & _ & Hp); [right; left; eauto 10|].
  rewrite Hp. destruct res as [[]|e|]; [|apply epoll_ctl_err in Hcall; rewrite Hcall;
    split; [done|split; [lia|done]]|done].
  destruct (epoll_add_ok _ _ _ _ _ Hcall) as [Hin _]. split; [|split; [|split; [|done]]].
  - intros fd' ev Hx. apply Hin in Hx as [Hx|Hx]; [by injection Hx as -> ->|by eapply Hok].
  - intros _. apply list_elem_of_fmap. exists (fd, mk_epoll_event (Z.lor EPOLLIN EPOLLET) fd).
    split; [done|]. apply Hin. by left.
  - intros x Hx. apply list_elem_of_fmap in Hx as ([x' ev] & -> & Hx).
    apply list_elem_of_fmap. exists (x', ev). split; [done|]. apply Hin. by right.
Qed.

(** The epoll backend implements the interface: its invariant is that
    every entry of the interest list carries its own descriptor, its
    registered descriptors are those of the interest list. *)
Definition epoll_poller_spec (ep : epoll_poller) : poller_spec (epoll_poller_ops ep).
Proof.
  refine {| ps_inv k := interest_ok (obs_interest k (epollfd ep));
            ps_reg k := registered_fds (obs_interest k (epollfd ep)) |}; cbn.
  - intros fd w Hok. by apply epoll_poll_add_spec.
  - intros pev len w pev' n w' Hrun Hlen Hpev Hok.
    pose proof (epoll_poll_cases _ _ _ _ _ _ _ Hrun Hlen Hpev Hok) as Href.
    unfold epoll_poll in Hrun. apply mbind_done_inv in Hrun as (r & w1 & Hsc & Hk).
    apply syscall_done in Hsc as (k1 & Hcall & -> & _).
    destruct r as [evs|e|]; [|by destruct (fatal_not_done _ _ _ _ Hk)|by destruct (fatal_not_done _ _ _ _ Hk)].
    injection Hk as _ <-. simpl. rewrite (epoll_wait_keeps _ _ _ _ _ Hcall).
    destruct (epoll_keeps (w_kern w) k1) as (_ & _ & ->); [right; right; eauto|]. done.
  - intros pev len w. unfold epoll_poll, syscall, mbind.
    destruct (sys_epoll_wait _ _ _) as [k1 []]; try done; simpl; unfold fatal, mbind, eprint, mmodify, mfatal; done.
  - intros pev len w w'. unfold epoll_poll, syscall, mbind.
    destruct (sys_epoll_wait _ _ _) as [k1 []]; try done; simpl; unfold fatal, mbind, eprint, mmodify, mfatal; try done.
    by intros [= ->].
  - intros k k' [(fd & n & r & Hc)|(fd & q & m & r & Hc)] Hok.
    + destruct (read_keeps _ _ _ _ _ Hc) as (-> & _). done.
    + destruct (add_watch_keeps _ _ _ _ _ _ Hc) as (_ & _ & _ & ->). done.
Defined.

End EpollLaws.

Section EpollReady.
Context {K : Type} `{KernelLaws K}.

Lemma epoll_poll_loop_none evs : forall j pev len,
  kept_events evs = [] -> epoll_poll_loop evs j pev len = (pev, len).
Proof.
  induction evs as [|e evs IH]; intros j pev len Hnone; [done|]. simpl.
  unfold kept_events in Hnone. rewrite filter_cons in Hnone. fold (kept e) in *.
  destruct (kept e) eqn:Hk; [done|]. by apply IH.
Qed.

(** When [epoll_wait] returns only events [epoll_poll] does not keep,
    the caller gets its array and its count back. *)
Lemma epoll_poll_none ep pev len (w : world K) k' evs :
  sys_epoll_wait (w_kern w) (epollfd ep) (Z.to_nat len) = (k', SysOk evs) ->
  kept_events evs = [] ->
  epoll_poll ep pev len w = Done (pev, len) (set_kern k' w).
Proof.
  intros Hcall Hnone. unfold epoll_poll.
  erewrite mbind_done by (apply syscall_ok; [exact Hcall|done]).
  simpl. by rewrite epoll_poll_loop_none.
Qed.

(** A [poll] that blocks had no ready descriptor: each registered one has
    no records queued, or is edge-triggered with no wakeup pending. *)
Lemma epoll_poll_blocked ep pev len (w w' : world K) :
  epoll_poll ep pev len w = Blocked w' ->
  forall fd ev, (fd, ev) ∈ obs_interest (w_kern w) (epollfd ep) ->
  obs_queued (w_kern w) fd = 0%nat \/
  ((ep_events ev &? EPOLLET) = true /\ fd ∉ obs_ready (w_kern w) (epollfd ep)).
Proof.
  unfold epoll_poll, syscall, mbind. intros Hb.
  destruct (sys_epoll_wait _ _ _) as [k1 []] eqn:Hc; try done; simpl in Hb;
    unfold fatal, mbind, eprint, mmodify, mfatal in Hb; try done.
  by eapply epoll_wait_block.
Qed.

(** A pending wakeup of a registered positive descriptor survives a
    completed [poll], or [poll] returned the descriptor in its first
    [nready] entries. *)
Lemma epoll_poll_wakeup ep pev len (w : world K) pev' n w' fd :
  epoll_poll ep pev len w = Done (pev', n) w' -> length pev = Z.to_nat len ->
  interest_ok (obs_interest (w_kern w) (epollfd ep)) -> 0 < fd ->
  fd ∈ registered_fds (obs_interest (w_kern w) (epollfd ep)) ->
  fd ∈ obs_ready (w_kern w) (epollfd ep) ->
  fd ∈ obs_ready (w_kern w') (epollfd ep) \/ fd ∈ pe_fd <$> take (Z.to_nat n) pev'.
Proof.
  intros Hrun Hpev Hok Hfd Hreg Hrdy. apply epoll_poll_done in Hrun as (evs & Hcall & _ & Hloop).
  apply list_elem_of_fmap in Hreg as ([fd' ev] & Hfd' & Hin). simpl in Hfd'. subst fd'.
  destruct (epoll_wait_report _ _ _ _ _ Hcall fd ev Hin Hrdy)
    as [?|(e & ev' & He & Hin' & Hd & Hm)]; [by left|right].
  rewrite (Hok fd ev' Hin') in Hd.
  assert (Hke : e ∈ kept_events evs).
  { apply list_elem_of_filter. split; [|done]. unfold kept. rewrite Hd, Hm.
    by rewrite bool_decide_true. }
  destruct (epoll_wait_ok _ _ _ _ _ Hcall) as [Hn _].
  rewrite epoll_poll_loop_from in Hloop by (simpl; lia). injection Hloop as <- <-.
  replace (match kept_events evs with [] => len | _ => Z.of_nat (length (kept_events evs)) end)
    with (Z.of_nat (length (kept_events evs)))
    by (destruct (kept_events evs); [by apply elem_of_nil in Hke|simpl; lia]).
  rewrite Nat2Z.id. simpl. rewrite take_app_length'; [|unfold fds_of; by rewrite length_fmap].
  rewrite fds_of_take_kept. apply list_elem_of_fmap. by exists e.
Qed.

End EpollReady.
