(* ===== verification/Reader.v ===== *)
(** * NotificationReader and EventDispatcher: [read_inotify_events]
      ([src/main.c])

    [read_inotify_events(inofd, inotifies, len)] reads the inotify
    descriptor into the static [buf] until [read] fails with [EAGAIN],
    retries on [EINTR], stops the process on any other error, and for each
    successful read decodes the record at the head of [buf], looks its
    watch descriptor up in the registry, prints the event line and, on
    [IN_CREATE], adds a watch on the resolved path.

    The static [buf] outlives the call: the process state [pstate] is the
    [world] plus the contents of [buf]. [read] overwrites only the bytes it
    returns, so [event->name] of a nameless record is read from what the
    buffer held before ([buf_store], [decode_event]).

    The loop is a [Fixpoint] with fuel; [read_loop_terminates] shows that
    fuel above the kernel's pending work on the descriptor always suffices,
    so the model never runs out of fuel on a lawful kernel.

    Theorems: the dispatcher's output and re-arm ([dispatch_event_spec]);
    termination of the drain ([read_loop_terminates]); a drain that
    returns has emptied its descriptor ([read_inotify_events_drains]);
    the fatal error path ([read_loop_fatal]); the silent skip of a
    stale handle ([read_loop_stale_handle]); and the loss of every record
    after the first of one [read] ([read_loop_head_only]). *)

From S2P Require Import Prelude CStr Abi Kernel Registry Describe.

Local Open Scope Z_scope.
Local Open Scope cprog_scope.

(** The process: its world and the static [buf] of [read_inotify_events]. *)
Record pstate (K : Type) := mk_pstate { p_world : world K; p_buf : list Z }.
Arguments mk_pstate {K} _ _.
Arguments p_world {K} _.
Arguments p_buf {K} _.

(** The zero-initialised static buffer. *)
Definition buf0 : list Z := replicate (Z.to_nat READ_BUF_SIZE) 0.

Section Reader.
Context {K : Type} `{Kernel K}.

(** Run a routine of the world inside the process. *)
Definition lift {A} (c : M (world K) A) : M (pstate K) A :=
  fun st => match c (p_world st) with
            | Done a w => Done a (mk_pstate w (p_buf st))
            | Fatal m w => Fatal m (mk_pstate w (p_buf st))
            | Blocked w => Blocked (mk_pstate w (p_buf st))
            | NoFuel => NoFuel
            end.

(** Dereferencing the [NULL] path of an empty slot. *)
Definition crash {A} : M (pstate K) A := mfatal "Segmentation fault".

(** [printf("`%s`: %s(event.name=`%s`)\n", path_of(inotify, event, path),
    inspect_inotify_event(event), event->name);] The arguments are
    evaluated first, so the line [inspect_inotify_event] prints comes
    before the event line. *)
Definition event_line (full desc name : string) : string :=
  "`" +:+ full +:+ "`: " +:+ desc +:+ "(event.name=`" +:+ name +:+ "`)".

(** One record at the head of the buffer, for the registry slot it names:
    the print, and on [IN_CREATE] [path_of(inotify, event, path);
    inotify_add_watch(inofd, path, default_events);] with its result
    ignored. *)
Definition dispatch_event (inofd : Z) (ipath : string) (ev : inotify_event) : M (pstate K) unit :=
  let '(desc, own_lines) := inspect_inotify_event ev in
  lift (foldr (fun l c => print l ;;; c) (mret tt) own_lines) ;;;
  lift (print (event_line (path_of ipath (ev_name ev)) desc (ev_name ev))) ;;;
  if ev_mask ev &? IN_CREATE then
    _ <- lift (syscall (fun k => sys_inotify_add_watch k inofd (path_of ipath (ev_name ev))
                                  default_events)) ;;
    mret tt
  else mret tt.

(** [do { ... } while (1);] with [fuel] bounding the iterations. *)
Fixpoint read_loop (fuel : nat) (inofd : Z) (slots : list inotify) (len : nat)
    : M (pstate K) unit :=
  match fuel with
  | O => mnofuel
  | S fuel' =>
      r <- lift (syscall (fun k => sys_read k inofd (Z.to_nat READ_BUF_SIZE))) ;;
      match r with
      | SysErr EINTR => read_loop fuel' inofd slots len
      | SysErr EAGAIN => mret tt
      | SysOk data =>
          st <- mget ;;
          let buf := buf_store (p_buf st) data in
          mput (mk_pstate (p_world st) buf) ;;;
          let ev := decode_event buf in
          let idx := indexof slots len (ev_wd ev) in
          if idx =? -1 then read_loop fuel' inofd slots len
          else
            match nth (Z.to_nat idx) slots empty_slot with
            | mk_inotify _ (Some ipath) =>
                dispatch_event inofd ipath ev ;;; read_loop fuel' inofd slots len
            | mk_inotify _ None => crash
            end
      | _ => lift (fatal ("read(" +:+ fmt_d inofd +:+ "): " +:+ errmsg r))
      end
  end.

Definition read_inotify_events (fuel : nat) (inofd : Z) (slots : list inotify) (len : nat)
    : M (pstate K) unit :=
  read_loop fuel inofd slots len.

End Reader.

Section ReaderLaws.
Context {K : Type} `{KernelLaws K}.

Definition pending (fd : Z) (st : pstate K) : nat := obs_pending (w_kern (p_world st)) fd.

Lemma lift_syscall {A} (f : K -> K * sysret A) (st : pstate K) k' r :
  f (w_kern (p_world st)) = (k', r) -> r <> SysBlock ->
  lift (syscall f) st = Done r (mk_pstate (set_kern k' (p_world st)) (p_buf st)).
Proof. intros Hf Hr. unfold lift. by rewrite (syscall_ok _ _ _ _ Hf Hr). Qed.

Lemma lift_prints lines (st : pstate K) :
  lift (foldr (fun l c => print l ;;; c) (mret tt) lines) st =
  Done tt (mk_pstate (mk_world (w_kern (p_world st)) (w_out (p_world st) ++ lines)
                              (w_err (p_world st))) (p_buf st)).
Proof.
  destruct st as [[k o e] b]. simpl. revert o.
  induction lines as [|l ls IH]; intros o; simpl.
  - unfold lift, mret. simpl. by rewrite app_nil_r.
  - unfold lift in *. unfold mbind at 1, print, mmodify. simpl.
    specialize (IH (o ++ [l])). rewrite <- app_assoc in IH. exact IH.
Qed.

Lemma lift_print line (st : pstate K) :
  lift (print line) st =
  Done tt (mk_pstate (mk_world (w_kern (p_world st)) (w_out (p_world st) ++ [line])
                              (w_err (p_world st))) (p_buf st)).
Proof. reflexivity. Qed.

(** What one dispatch does (the statement of [dispatch_event_spec]). *)
Lemma dispatch_event_run inofd ipath ev (st : pstate K) :
  exists st', dispatch_event inofd ipath ev st = Done tt st' /\
    w_out (p_world st') = w_out (p_world st) ++ (inspect_inotify_event ev).2 ++
      [event_line (path_of ipath (ev_name ev)) (inspect_inotify_event ev).1 (ev_name ev)] /\
    w_err (p_world st') = w_err (p_world st) /\ p_buf st' = p_buf st /\
    (if ev_mask ev &? IN_CREATE
     then exists r, sys_inotify_add_watch (w_kern (p_world st)) inofd (path_of ipath (ev_name ev))
                      default_events = (w_kern (p_world st'), r)
     else w_kern (p_world st') = w_kern (p_world st)).
Proof.
  unfold dispatch_event. destruct (inspect_inotify_event ev) as [desc own]. simpl.
  erewrite mbind_done by apply lift_prints. erewrite mbind_done by apply lift_print.
  destruct (ev_mask ev &? IN_CREATE).
  - match goal with |- context [sys_inotify_add_watch _ ?fd ?p ?m] =>
      destruct (sys_inotify_add_watch (w_kern (p_world st)) fd p m) as [k1 r] eqn:Hc end.
    assert (r <> SysBlock) by (intros ->; by eapply add_watch_noblock).
    erewrite mbind_done by (apply lift_syscall; [exact Hc|done]).
    eexists. split; [reflexivity|]. simpl. rewrite <- app_assoc. eauto.
  - eexists. split; [reflexivity|]. simpl. by rewrite <- app_assoc.
Qed.

(** Dispatching one event always completes and leaves the pending work of
    every descriptor as it was. *)
Lemma dispatch_event_done inofd ipath ev st :
  exists st', dispatch_event inofd ipath ev st = Done tt st' /\
              forall fd, pending fd st' = pending fd st.
Proof.
  destruct (dispatch_event_run inofd ipath ev st) as (st' & Hd & _ & _ & _ & Hk).
  exists st'. split; [done|]. intros fd. unfold pending.
  destruct (ev_mask ev &? IN_CREATE); [|by rewrite Hk].
  destruct Hk as [r Hc]. by destruct (add_watch_keeps _ _ _ _ _ _ Hc) as (_ & _ & -> & _).
Qed.

(** The kernel steps the reader takes: [read] and [inotify_add_watch]. *)
Definition proc_step (k k' : K) : Prop :=
  (exists fd n r, sys_read k fd n = (k', r)) \/
  (exists fd q m r, sys_inotify_add_watch k fd q m = (k', r)).

Definition kern (st : pstate K) : K := w_kern (p_world st).
Definition out (st : pstate K) : list string := w_out (p_world st).

(** [st'] follows [st] by reader steps, with standard output extended. *)
Definition proc_le (st st' : pstate K) : Prop :=
  rtc proc_step (kern st) (kern st') /\ out st `prefix_of` out st'.

Lemma proc_le_refl st : proc_le st st.
Proof. split; [apply rtc_refl|done]. Qed.

Lemma proc_le_trans st1 st2 st3 : proc_le st1 st2 -> proc_le st2 st3 -> proc_le st1 st3.
Proof. intros [??] [??]. split; [by etrans|by etrans]. Qed.

Lemma lift_done_inv {A} (c : M (world K) A) st a st' :
  lift c st = Done a st' -> c (p_world st) = Done a (p_world st') /\ p_buf st' = p_buf st.
Proof. unfold lift. destruct (c (p_world st)); intros [=]; subst; done. Qed.

Lemma lift_fatal_not_done {A} msg (st : pstate K) (a : A) st' : lift (fatal msg) st <> Done a st'.
Proof. intros Hl. apply lift_done_inv in Hl as [Hl _]. by eapply fatal_not_done. Qed.

(** A system call of the reader is one reader step with output kept. *)
Lemma lift_syscall_le {A} (f : K -> K * sysret A) st r st' :
  lift (syscall f) st = Done r st' -> (forall k k' r, f k = (k', r) -> proc_step k k') ->
  proc_le st st'.
Proof.
  intros Hl Hf. apply lift_done_inv in Hl as [Hl _].
  apply syscall_done in Hl as (k' & Hc & Hw & _). unfold proc_le, kern, out. rewrite Hw.
  split; [apply rtc_once; by eapply Hf|done].
Qed.

Lemma dispatch_event_le inofd ipath ev st st' :
  dispatch_event inofd ipath ev st = Done tt st' -> proc_le st st'.
Proof.
  destruct (dispatch_event_run inofd ipath ev st) as (st'' & Hd & Ho & _ & _ & Hk).
  rewrite Hd. intros [= <-]. split; [|unfold out; rewrite Ho; by eexists].
  destruct (ev_mask ev &? IN_CREATE); [|unfold kern; rewrite Hk; apply rtc_refl].
  destruct Hk as [r Hc]. apply rtc_once. right. eauto.
Qed.

(** C10: the functional behaviour of the dispatcher on both branches: it
    appends to standard output the lines [inspect_inotify_event] prints
    and then the event line with the resolved path, the description and
    the raw name; on [IN_CREATE] it makes exactly one
    [inotify_add_watch] call, on the resolved path with [default_events],
    whose result is ignored; otherwise it leaves the kernel alone.
    Standard error and the static buffer are untouched. *)
Theorem dispatch_event_spec inofd ipath ev (st : pstate K) :
  exists st', dispatch_event inofd ipath ev st = Done tt st' /\
    w_out (p_world st') = w_out (p_world st) ++ (inspect_inotify_event ev).2 ++
      [event_line (path_of ipath (ev_name ev)) (inspect_inotify_event ev).1 (ev_name ev)] /\
    w_err (p_world st') = w_err (p_world st) /\ p_buf st' = p_buf st /\
    (if ev_mask ev &? IN_CREATE
     then exists r, sys_inotify_add_watch (w_kern (p_world st)) inofd (path_of ipath (ev_name ev))
                      default_events = (w_kern (p_world st'), r)
     else w_kern (p_world st') = w_kern (p_world st)).
Proof. apply dispatch_event_run. Qed.

(** A drain that completes took reader steps and only appended to
    standard output. *)
Lemma read_loop_le fuel inofd slots len st st' :
  read_loop fuel inofd slots len st = Done tt st' -> proc_le st st'.
Proof.
  revert st. induction fuel as [|fuel IH]; intros st Hrun; [done|]. cbn [read_loop] in Hrun.
  apply mbind_done_inv in Hrun as (r & st1 & Hsc & Hk).
  assert (Hle : proc_le st st1) by (eapply lift_syscall_le; [exact Hsc|intros ???; left; eauto]).
  eapply proc_le_trans; [exact Hle|].
  destruct r as [data|[]|]; try by apply lift_fatal_not_done in Hk.
  - unfold mbind at 1, mget in Hk. unfold mbind at 1, mput in Hk.
    set (st2 := mk_pstate (p_world st1) (buf_store (p_buf st1) data)) in Hk.
    assert (Hle2 : proc_le st1 st2) by (split; [apply rtc_refl|done]).
    eapply proc_le_trans; [exact Hle2|].
    destruct (_ =? -1); [by apply IH|].
    destruct (nth _ slots empty_slot) as [? [ipath|]]; [|done].
    apply mbind_done_inv in Hk as ([] & st3 & Hd & Hk).
    eapply proc_le_trans; [by eapply dispatch_event_le|]. by apply IH.
  - by apply IH.
  - injection Hk as <-. apply proc_le_refl.
Qed.

Lemma proc_steps_pending k k' : rtc proc_step k k' -> forall fd, (obs_pending k' fd <= obs_pending k fd)%nat.
Proof.
  induction 1 as [|k1 k2 k3 [(? & ? & ? & Hc)|(? & ? & ? & ? & Hc)] _ IH]; intros fd; [done|..].
  - destruct (read_keeps _ _ _ _ _ Hc) as (_ & _ & _ & Hp). specialize (Hp fd). specialize (IH fd). lia.
  - destruct (add_watch_keeps _ _ _ _ _ _ Hc) as (_ & _ & Hp & _). rewrite <- Hp. apply IH.
Qed.

(** The drain loop returns only after [read] failed with [EAGAIN]. *)
Lemma read_loop_done_eagain fuel inofd slots len (st st' : pstate K) :
  read_loop fuel inofd slots len st = Done tt st' -> pending inofd st' = 0%nat.
Proof.
  revert st. induction fuel as [|fuel IH]; intros st Hrun; [done|]. cbn [read_loop] in Hrun.
  apply mbind_done_inv in Hrun as (r & st1 & Hsc & Hk).
  apply lift_done_inv in Hsc as [Hsc Hb]. apply syscall_done in Hsc as (k1 & Hc & Hw & _).
  destruct r as [data|[]|]; try by apply lift_fatal_not_done in Hk.
  - unfold mbind at 1, mget in Hk. unfold mbind at 1, mput in Hk.
    destruct (_ =? -1); [by eapply IH|].
    destruct (nth _ slots empty_slot) as [? [ipath|]]; [|done].
    apply mbind_done_inv in Hk as ([] & st3 & _ & Hk). by eapply IH.
  - by eapply IH.
  - injection Hk as <-. unfold pending. rewrite Hw. by eapply read_eagain.
Qed.

(** termination of the drain loop: with more fuel than the kernel's
    pending work on the descriptor, [read_inotify_events] neither runs out
    of fuel nor blocks; it returns, or stops the process through [fatal]
    or a [NULL] dereference. *)
Lemma read_loop_runs fuel inofd slots len st :
  (pending inofd st < fuel)%nat ->
  match read_loop fuel inofd slots len st with
  | NoFuel | Blocked _ => False
  | _ => True
  end.
Proof.
  revert st. induction fuel as [|fuel IH]; intros st Hlt; [lia|]. cbn [read_loop].
  destruct (sys_read (w_kern (p_world st)) inofd (Z.to_nat READ_BUF_SIZE)) as [k1 r] eqn:Hr.
  destruct (read_progress _ _ _ _ _ Hr) as [Hnb Hdec].
  erewrite mbind_done by (apply lift_syscall; [exact Hr|done]).
  set (st1 := mk_pstate (set_kern k1 (p_world st)) (p_buf st)).
  assert (Hp1 : ((exists bs, r = SysOk bs) \/ r = SysErr EINTR) -> (pending inofd st1 < fuel)%nat).
  { intros Hc. specialize (Hdec Hc). unfold pending in *. simpl. lia. }
  destruct r as [data|[]|]; try done.
  - unfold mbind at 1, mget. unfold mbind at 1, mput.
    set (st2 := mk_pstate (p_world st1) (buf_store (p_buf st1) data)).
    assert (Hp2 : (pending inofd st2 < fuel)%nat) by (apply Hp1; eauto).
    destruct (_ =? -1); [by apply IH|].
    destruct (nth _ slots empty_slot) as [? [ipath|]]; [|done].
    destruct (dispatch_event_done inofd ipath (decode_event (buf_store (p_buf st1) data)) st2)
      as (st3 & Hd & Hpend).
    erewrite mbind_done by exact Hd. apply IH. by rewrite Hpend.
  - apply IH. apply Hp1. by right.
Qed.

(** C2: termination of the drain loop: with more fuel than the kernel's
    pending work on the descriptor, [read_inotify_events] neither runs out
    of fuel nor blocks; it returns, or stops the process through [fatal]
    or a [NULL] dereference. *)
Theorem read_loop_terminates fuel inofd slots len st :
  (pending inofd st < fuel)%nat ->
  match read_loop fuel inofd slots len st with
  | NoFuel | Blocked _ => False
  | _ => True
  end.
Proof. apply read_loop_runs. Qed.

(** C12: the drain satisfies the edge-triggered contract of spec section
    4.1: when [read_inotify_events] returns, [read] has reported
    [EAGAIN] and the descriptor has no pending work left. *)
Theorem read_inotify_events_drains fuel inofd slots len (st st' : pstate K) :
  read_inotify_events fuel inofd slots len st = Done tt st' -> pending inofd st' = 0%nat.
Proof. apply read_loop_done_eagain. Qed.

(** C17: the error path of the drain (spec section 7): a [read] that fails
    with an error other than [EINTR] and [EAGAIN] stops the process, with
    ["fatal error: read(<fd>): <strerror>"] as the last line of standard
    error; standard output and the buffer are left as they were. *)
Theorem read_loop_fatal fuel inofd slots len (st : pstate K) k' e :
  sys_read (kern st) inofd (Z.to_nat READ_BUF_SIZE) = (k', SysErr e) -> e <> EINTR -> e <> EAGAIN ->
  read_loop (S fuel) inofd slots len st =
  Fatal ("read(" +:+ fmt_d inofd +:+ "): " +:+ strerror e)
    (mk_pstate (mk_world k' (out st)
                  (w_err (p_world st) ++ ["fatal error: " +:+ ("read(" +:+ fmt_d inofd +:+ "): " +:+ strerror e)]))
       (p_buf st)).
Proof.
  intros Hr H1 H2. cbn [read_loop].
  erewrite mbind_done by (apply lift_syscall; [exact Hr|done]).
  by destruct e.
Qed.

(** C18: a record whose watch descriptor is not in the registry (a stale
    handle, spec section 7) is skipped silently: nothing is printed, no
    call is made, and the drain goes on with the next [read]. *)
Theorem read_loop_stale_handle fuel inofd slots len (st : pstate K) k' data :
  sys_read (kern st) inofd (Z.to_nat READ_BUF_SIZE) = (k', SysOk data) ->
  indexof slots len (ev_wd (decode_event (buf_store (p_buf st) data))) = -1 ->
  read_loop (S fuel) inofd slots len st =
  read_loop fuel inofd slots len (mk_pstate (set_kern k' (p_world st)) (buf_store (p_buf st) data)).
Proof.
  intros Hr Hi. cbn [read_loop].
  erewrite mbind_done by (apply lift_syscall; [exact Hr|done]).
  unfold mbind at 1, mget, mbind at 1, mput. simpl in Hi |- *. by rewrite Hi.
Qed.

(** C19: the records after the first of one [read] are lost (spec
    section 4.3 asks to decode every record of the buffer). When [read]
    returns a named record [e] followed by any bytes [rest] (further
    records), the iteration dispatches [e] alone, with its header and name
    whatever follows it and whatever [buf] held, and then reads again: no
    record of [rest] is ever dispatched. *)
Theorem read_loop_head_only fuel inofd slots len (st : pstate K) k' e rest wd ipath :
  sys_read (kern st) inofd (Z.to_nat READ_BUF_SIZE) = (k', SysOk (encode_event e ++ rest)) ->
  kevent_ok e -> k_name e <> ""%string -> indexof slots len (k_wd e) <> -1 ->
  nth (Z.to_nat (indexof slots len (k_wd e))) slots empty_slot = mk_inotify wd (Some ipath) ->
  read_loop (S fuel) inofd slots len st =
  (dispatch_event inofd ipath
     (mk_event (k_wd e) (k_mask e) (k_cookie e) (name_len (k_name e)) (k_name e)) ;;;
   read_loop fuel inofd slots len)
    (mk_pstate (set_kern k' (p_world st)) (buf_store (p_buf st) (encode_event e ++ rest))).
Proof.
  intros Hr Hok Hn Hi Hs. cbn [read_loop].
  erewrite mbind_done by (apply lift_syscall; [exact Hr|done]).
  unfold mbind at 1, mget, mbind at 1, mput. cbn -[decode_event buf_store encode_event dispatch_event read_loop indexof nth].
  assert (Hd : decode_event (buf_store (p_buf st) (encode_event e ++ rest)) =
               mk_event (k_wd e) (k_mask e) (k_cookie e) (name_len (k_name e)) (k_name e)).
  { unfold buf_store. rewrite <- app_assoc, decode_encode_head by done.
    unfold seen_event. apply String.eqb_neq in Hn. by rewrite Hn. }
  rewrite Hd. cbn [ev_wd]. apply Z.eqb_neq in Hi. rewrite Hi, Hs. done.
Qed.

End ReaderLaws.
