(* ===== verification/MainLoop.v ===== *)
(** * MainLoop: [inotify_all_file] and [main] ([src/main.c])

    [main] checks its arguments and calls [inotify_all_file], which
    registers the watches ([register_inotify_files]), prints the startup
    listing, creates the poller and registers the inotify descriptor with
    it, then loops for ever: [poll] into a zeroed array of [NUM_EVENTS]
    entries and drain every descriptor in the first [nready] entries.

    The start ([main_start]) is a routine of the process monad. The loop
    never ends, so one turn is the routine [main_iter], and the running
    process is the step relation [sys_step]: a completed turn of the loop,
    or a change made by the environment (another process writing files),
    the only way out of a turn that blocks in [epoll_wait]. The loop is
    written against any [struct poller] backend meeting [poller_spec];
    [main_start] creates the epoll one. The whole of [main] ([main],
    [inotify_all_file]) is also written as the code composes it, with the
    loop given [n] turns ([main_loop]) and the teardown after it
    ([poller_destroy], [inotify_context_destroy]).

    Theorems: the usage error (spec section 8); what the start prints and
    registers; that a turn with enough fuel always ends; and, by induction
    on the steps, the invariants of the running process: the inotify
    descriptor stays registered with the poller, the poller's invariant
    holds, standard output only grows (spec section 3, 4.5); with the
    edge-triggered registration, no notification is lost: records queued
    on the inotify descriptor always have a wakeup pending, so the next
    turn does not block ([inotify_no_lost_wakeup]); and the turn in
    which the poller keeps no event drains descriptor [0]
    ([main_iter_nothing_kept]). *)

From S2P Require Import Prelude CStr Abi Kernel Registry Describe Poller Reader.

Local Open Scope Z_scope.
Local Open Scope cprog_scope.

(** [#define NUM_EVENTS 1024] *)
Definition NUM_EVENTS : nat := 1024.

Section Main.
Context {K : Type} `{Kernel K}.

(** [for (int i = 0; i < (int)len; i++) { if (inotifies[i].path == NULL)
    continue; printf("watchfd: %d for path: `%s`\n", ...); }] over the
    [len] slots of the registry. *)
Fixpoint print_watches (slots : list inotify) : M (world K) unit :=
  match slots with
  | [] => mret tt
  | s :: t =>
      match path s with
      | None => print_watches t
      | Some p => print ("watchfd: " +:+ fmt_d (watchfd s) +:+ " for path: `" +:+ p +:+ "`") ;;;
                  print_watches t
      end
  end.

(** The start of [inotify_all_file(argc, argv)]: [len = argc - 1;
    inotityctx = register_inotify_files(argv + 1, len); printf("inotify
    fd: %d\n", inotityctx.inofd);] the listing, [poller = poller_create();
    poller->poll_add(poller, inotityctx.inofd);] with the result of
    [poll_add] ignored. *)
Definition inotify_all_file_start (argv : list string)
    : M (world K) (inotify_context * epoll_poller) :=
  let len := (length argv - 1)%nat in
  ctx <- register_inotify_files (drop 1 argv) len ;;
  print ("inotify fd: " +:+ fmt_d (inofd ctx)) ;;;
  print_watches (inotifies ctx) ;;;
  ep <- poller_create ;;
  _ <- poll_add (epoll_poller_ops ep) (inofd ctx) ;;
  mret (ctx, ep).

(** [fprintf(stderr, "Usage: %s file1 [file2 file3...]\n", argv[0]);] *)
Definition usage (prog : string) : string :=
  "Usage: " +:+ prog +:+ " file1 [file2 file3...]".

(** [main] up to the loop: [if (argc < 2) { <usage>;
    exit(EXIT_FAILURE); } inotify_all_file(argc, argv);]. [Fatal] is the
    exit with status [EXIT_FAILURE]; with [argc = 0], [argv[0]] is [NULL],
    which glibc's [printf] prints as [(null)]. *)
Definition usage_exit {A} (argv : list string) : M (world K) A :=
  eprint (usage (default "(null)" (argv !! 0%nat))) ;;; mfatal "exit(EXIT_FAILURE)".

Definition main_start (argv : list string) : M (world K) (inotify_context * epoll_poller) :=
  if bool_decide (length argv < 2)%nat then usage_exit argv
  else inotify_all_file_start argv.

(** [for (int i = 0; i < (int)nready; i++)
    read_inotify_events(events[i].fd, inotityctx.inotifies, len);] *)
Fixpoint drain_ready (fuel : nat) (ready : list poller_event) (slots : list inotify) (len : nat)
    : M (pstate K) unit :=
  match ready with
  | [] => mret tt
  | e :: t => read_inotify_events fuel (pe_fd e) slots len ;;; drain_ready fuel t slots len
  end.

(** One turn of [for (;;) { struct poller_event events[NUM_EVENTS] = { 0
    }; size_t nready = NUM_EVENTS; poller->poll(poller, events, &nready);
    <drain> }]; [fuel] bounds each drain. *)
Definition main_iter (fuel : nat) (p : poller K) (ctx : inotify_context) (len : nat)
    : M (pstate K) unit :=
  r <- lift (poll p (replicate NUM_EVENTS (mk_poller_event 0)) (Z.of_nat NUM_EVENTS)) ;;
  drain_ready fuel (take (Z.to_nat r.2) r.1) (inotifies ctx) len.

(** The running process: a completed turn of the loop, or a step of the
    environment [env] on the kernel state. A turn that blocks in [poll]
    leaves the state as it was ([ps_poll_blocked]) until the environment
    moves. *)
Inductive sys_step (env : K -> K -> Prop) (p : poller K) (ctx : inotify_context) (len : nat)
    : pstate K -> pstate K -> Prop :=
| step_iter fuel st st' :
    main_iter fuel p ctx len st = Done tt st' -> sys_step env p ctx len st st'
| step_env st k' :
    env (kern st) k' ->
    sys_step env p ctx len st (mk_pstate (set_kern k' (p_world st)) (p_buf st)).

(** [inotify_context_destroy]: [free(ctx->inotifies)]. Memory is not
    part of the model, so freeing changes nothing the process can
    observe. *)
Definition inotify_context_destroy (ctx : inotify_context) : M (pstate K) unit := mret tt.

(** [for (;;) { <turn> }] run for [n] turns: the loop has no exit, so
    running out of turns is running out of fuel. *)
Fixpoint main_loop (n fuel : nat) (p : poller K) (ctx : inotify_context) (len : nat)
    : M (pstate K) unit :=
  match n with
  | O => mnofuel
  | S n' => main_iter fuel p ctx len ;;; main_loop n' fuel p ctx len
  end.

(** The whole of [inotify_all_file(argc, argv)]: the start, the loop,
    then [poller_destroy(poller); inotify_context_destroy(&inotityctx);]
    after it. *)
Definition inotify_all_file (n fuel : nat) (argv : list string) : M (pstate K) unit :=
  r <- lift (inotify_all_file_start argv) ;;
  main_loop n fuel (epoll_poller_ops r.2) r.1 (length argv - 1) ;;;
  lift (poller_destroy r.2) ;;;
  inotify_context_destroy r.1.

(** The whole of [main]: the usage check, [inotify_all_file(argc, argv);
    return 0;]. *)
Definition main (n fuel : nat) (argv : list string) : M (pstate K) Z :=
  if bool_decide (length argv < 2)%nat then lift (usage_exit argv)
  else inotify_all_file n fuel argv ;;; mret 0.

End Main.

(** ** Lemmas *)

(** The lines of the startup listing. *)
Definition watch_lines (slots : list inotify) : list string :=
  omap (fun s => (fun p => "watchfd: " +:+ fmt_d (watchfd s) +:+ " for path: `" +:+ p +:+ "`")
                   <$> path s) slots.

Section MainLemmas.
Context {K : Type} `{KernelLaws K}.

Lemma print_watches_out slots (w : world K) :
  print_watches slots w = Done tt (mk_world (w_kern w) (w_out w ++ watch_lines slots) (w_err w)).
Proof.
  revert w. induction slots as [|s t IH]; intros [k o e]; simpl.
  - by rewrite app_nil_r.
  - destruct (path s) as [p|]; simpl; [|apply IH].
    unfold mbind at 1, print, mmodify. rewrite IH. simpl. by rewrite <- app_assoc.
Qed.

Lemma proc_steps_poller (p : poller K) (S : poller_spec p) k k' :
  rtc proc_step k k' -> ps_inv S k -> ps_inv S k' /\ ps_reg S k' = ps_reg S k.
Proof.
  induction 1 as [|k1 k2 k3 Hs _ IH]; [done|]. intros Hi.
  destruct (ps_sys_keeps _ S k1 k2 Hs Hi) as [Hi2 Hr2].
  destruct (IH Hi2) as [? ->]. done.
Qed.

(** A completed drain of the ready descriptors is a run of reader steps. *)
Lemma drain_ready_le fuel ready slots len (st st' : pstate K) :
  drain_ready fuel ready slots len st = Done tt st' -> proc_le st st'.
Proof.
  revert st. induction ready as [|e t IH]; intros st Hrun; simpl in Hrun.
  - injection Hrun as <-. apply proc_le_refl.
  - apply mbind_done_inv in Hrun as ([] & st1 & Hr & Hk).
    eapply proc_le_trans; [by eapply read_loop_le|]. by apply IH.
Qed.

Lemma proc_le_pending (st st' : pstate K) fuel :
  proc_le st st' -> (forall fd, (pending fd st < fuel)%nat) -> forall fd, (pending fd st' < fuel)%nat.
Proof.
  intros [Hs _] Hf fd. pose proof (proc_steps_pending _ _ Hs fd). specialize (Hf fd).
  unfold pending, kern in *. lia.
Qed.

(** With more fuel than the pending work of every descriptor, the drains
    of a turn neither run out of fuel nor block. *)
Lemma drain_ready_runs fuel ready slots len (st : pstate K) :
  (forall fd, (pending fd st < fuel)%nat) ->
  match drain_ready fuel ready slots len st with
  | NoFuel | Blocked _ => False
  | _ => True
  end.
Proof.
  revert st. induction ready as [|e t IH]; intros st Hf; simpl; [done|].
  pose proof (read_loop_runs fuel (pe_fd e) slots len st (Hf _)) as Ht.
  unfold read_inotify_events, mbind at 1.
  destruct (read_loop fuel (pe_fd e) slots len st) as [[] st1| | |] eqn:Hr; try done.
  apply IH. eapply proc_le_pending; [|exact Hf]. by eapply read_loop_le.
Qed.

(** After a completed drain of the ready list, each of its descriptors
    has no pending work left. *)
Lemma drain_ready_drains fuel ready slots len (st st' : pstate K) :
  drain_ready fuel ready slots len st = Done tt st' ->
  forall fd, fd ∈ pe_fd <$> ready -> pending fd st' = 0%nat.
Proof.
  revert st. induction ready as [|e t IH]; intros st Hrun fd Hfd; [by apply elem_of_nil in Hfd|].
  simpl in Hrun. apply mbind_done_inv in Hrun as ([] & st1 & Hr & Hk).
  apply elem_of_cons in Hfd as [->|Hfd]; [|by eapply IH].
  pose proof (read_loop_done_eagain _ _ _ _ _ _ Hr) as Hz.
  destruct (drain_ready_le _ _ _ _ _ _ Hk) as [Hs _].
  pose proof (proc_steps_pending _ _ Hs (pe_fd e)). unfold pending, kern in *. lia.
Qed.

End MainLemmas.

Section MainStartLemmas.
Context {K : Type} `{KernelLaws K}.

Lemma print_done (line : string) (w : world K) :
  print line w = Done tt (mk_world (w_kern w) (w_out w ++ [line]) (w_err w)).
Proof. reflexivity. Qed.

Lemma poller_create_done (w : world K) ep w' :
  poller_create w = Done ep w' ->
  obs_interest (w_kern w') (epollfd ep) = [] /\ obs_watch (w_kern w') = obs_watch (w_kern w) /\
  w_out w' = w_out w.
Proof.
  unfold poller_create. intros Hrun. apply mbind_done_inv in Hrun as (r & w1 & Hsc & Hk).
  apply syscall_done in Hsc as (k1 & Hc & -> & _).
  destruct (ret_code r <? 0) eqn:Hneg; [by destruct (fatal_not_done _ _ _ _ Hk)|].
  injection Hk as <- <-. apply Z.ltb_ge, ret_code_nonneg in Hneg. rewrite Hneg in Hc.
  destruct (epoll_create_ok _ _ _ _ Hc) as (_ & Hi & _).
  destruct (epoll_keeps (w_kern w) k1) as (_ & Hw & _); [left; eauto|]. done.
Qed.

(** [poll_add] of the epoll backend adds at most the entry
    [epoll_operate] builds. *)
Lemma epoll_poll_add_interest ep fd (w : world K) r w' :
  epoll_poll_add ep fd w = Done r w' ->
  (forall x, x ∈ obs_interest (w_kern w') (epollfd ep) ->
     x = (fd, mk_epoll_event (Z.lor EPOLLIN EPOLLET) fd) \/ x ∈ obs_interest (w_kern w) (epollfd ep)) /\
  obs_watch (w_kern w') = obs_watch (w_kern w) /\ w_out w' = w_out w.
Proof.
  unfold epoll_poll_add, epoll_operate. intros Hrun.
  apply mbind_done_inv in Hrun as (res & w1 & Hsc & [= _ <-]).
  apply syscall_done in Hsc as (k1 & Hc & -> & Hnb).
  rewrite bool_decide_true in Hc by (unfold EPOLL_CTL_ADD, EPOLL_CTL_DEL; lia).
  destruct (epoll_keeps (w_kern w) k1) as (_ & Hw & _); [right; left; eauto 10|].
  simpl. split; [|done].
  destruct res as [[]|e|]; [|apply epoll_ctl_err in Hc; rewrite Hc; intros x ?; by right|done].
  intros x. by apply (epoll_add_ok _ _ _ _ _ Hc).
Qed.

End MainStartLemmas.

(** ** Theorems *)

Section MainTheorems.
Context {K : Type} `{KernelLaws K}.

(** C28: with fewer than one path argument, [main] writes the usage line on
    standard error and exits with [EXIT_FAILURE], writing nothing on
    standard output and making no system call (spec section 6, 8). *)
Theorem main_usage argv (w : world K) :
  (length argv < 2)%nat ->
  main_start argv w =
  Fatal "exit(EXIT_FAILURE)"
    (mk_world (w_kern w) (w_out w) (w_err w ++ [usage (default "(null)" (argv !! 0%nat))])).
Proof. intros Hlt. unfold main_start. by rewrite bool_decide_true by done. Qed.

(** a start that reaches the loop had at least one path argument, has
    printed ["inotify fd: <fd>"] and one line per filled slot of a
    registry of [argc - 1] slots whose descriptors watch the inodes their
    paths named, and has registered at most the inotify descriptor with
    the new poller, with [EPOLLIN | EPOLLET] and the descriptor as data. *)
Lemma main_start_ok argv (w : world K) ctx ep w' :
  main_start argv w = Done (ctx, ep) w' ->
  (2 <= length argv)%nat /\
  w_out w' = w_out w ++ ("inotify fd: " +:+ fmt_d (inofd ctx)) :: watch_lines (inotifies ctx) /\
  length (inotifies ctx) = (length argv - 1)%nat /\
  slots_ok (w_kern w) (w_kern w') (inofd ctx) (drop 1 argv) (inotifies ctx) /\
  (forall x, x ∈ obs_interest (w_kern w') (epollfd ep) ->
             x = (inofd ctx, mk_epoll_event (Z.lor EPOLLIN EPOLLET) (inofd ctx))).
Proof.
  unfold main_start. case_bool_decide as Hlt; [done|]. unfold inotify_all_file_start.
  intros Hrun. apply mbind_done_inv in Hrun as (ctx1 & w1 & Hreg & Hrun).
  destruct (register_slots _ _ _ _ _ Hreg) as (Hlen & Hok & Hout1).
  erewrite mbind_done in Hrun by apply print_done.
  erewrite mbind_done in Hrun by apply print_watches_out.
  apply mbind_done_inv in Hrun as (ep1 & w4 & Hcr & Hrun).
  apply mbind_done_inv in Hrun as (r & w5 & Hadd & [= <- <- <-]).
  destruct (poller_create_done _ _ _ Hcr) as (Hi4 & Hw4 & Ho4).
  destruct (epoll_poll_add_interest _ _ _ _ _ Hadd) as (Hi5 & Hw5 & Ho5).
  split; [lia|]. split; [rewrite Ho5, Ho4; simpl; rewrite Hout1, <- app_assoc; done|].
  split; [done|]. split.
  - eapply slots_ok_mono; [|exact Hok]. intros w0 i. rewrite Hw5, Hw4. done.
  - intros x Hx. destruct (Hi5 x Hx) as [?|Hx']; [done|]. rewrite Hi4 in Hx'. set_solver.
Qed.

(** C16: a start that reaches the loop had at least one path argument, has
    printed ["inotify fd: <fd>"] and one line per filled slot of a
    registry of [argc - 1] slots whose descriptors watch the inodes their
    paths named, and has registered at most the inotify descriptor with
    the new poller, with [EPOLLIN | EPOLLET] and the descriptor as data. *)
Theorem main_start_spec argv (w : world K) ctx ep w' :
  main_start argv w = Done (ctx, ep) w' ->
  (2 <= length argv)%nat /\
  w_out w' = w_out w ++ ("inotify fd: " +:+ fmt_d (inofd ctx)) :: watch_lines (inotifies ctx) /\
  length (inotifies ctx) = (length argv - 1)%nat /\
  slots_ok (w_kern w) (w_kern w') (inofd ctx) (drop 1 argv) (inotifies ctx) /\
  (forall x, x ∈ obs_interest (w_kern w') (epollfd ep) ->
             x = (inofd ctx, mk_epoll_event (Z.lor EPOLLIN EPOLLET) (inofd ctx))).
Proof. apply main_start_ok. Qed.

(** What a turn of the loop can end in: it never runs out of fuel, and
    it blocks only in [poll], before anything has happened. *)
Lemma main_iter_outcome fuel (p : poller K) (S : poller_spec p) ctx len (st : pstate K) :
  ps_inv S (kern st) -> (forall fd, (pending fd st < fuel)%nat) ->
  match main_iter fuel p ctx len st with
  | NoFuel => False
  | Blocked st' => st' = st /\ exists w',
      poll p (replicate NUM_EVENTS (mk_poller_event 0)) (Z.of_nat NUM_EVENTS) (p_world st) = Blocked w'
  | _ => True
  end.
Proof.
  intros Hi Hf. unfold main_iter, mbind at 1, lift.
  set (pev := replicate NUM_EVENTS (mk_poller_event 0)).
  destruct (poll p pev (Z.of_nat NUM_EVENTS) (p_world st)) as [[pev' n] w1|m w1|w1|] eqn:Hp.
  - destruct (ps_poll _ S _ _ _ _ _ _ Hp) as (_ & _ & _ & Hpend & _);
      [lia|unfold pev; by rewrite length_replicate, Nat2Z.id|done|].
    match goal with |- context [drain_ready fuel ?l ?sl ?n' ?st1] =>
      pose proof (drain_ready_runs fuel l sl n' st1) as Hd end.
    destruct (drain_ready _ _ _ _ _); try done; exfalso; apply Hd; intros fd;
      unfold pending; simpl; rewrite Hpend; apply Hf.
  - done.
  - pose proof Hp as Hp'. apply (ps_poll_blocked _ S) in Hp as ->. split; [by destruct st|eauto].
  - by apply (ps_poll_runs _ S) in Hp.
Qed.

(** C14: one turn of the main loop, with more fuel than the pending work of
    every descriptor, never runs out of fuel; it blocks only in [poll],
    before anything has happened, and otherwise completes or stops the
    process. *)
Theorem main_iter_runs fuel (p : poller K) (S : poller_spec p) ctx len (st : pstate K) :
  ps_inv S (kern st) -> (forall fd, (pending fd st < fuel)%nat) ->
  match main_iter fuel p ctx len st with
  | NoFuel => False
  | Blocked st' => st' = st
  | _ => True
  end.
Proof.
  intros Hi Hf. pose proof (main_iter_outcome fuel p S ctx len st Hi Hf) as Ho.
  destruct (main_iter _ _ _ _ _); tauto.
Qed.

(** C3: every completed turn of the main loop leaves every descriptor
    its [poll] reported without pending work, as the edge-triggered
    poller requires (spec section 4.1); those descriptors are registered
    ones, or, when the poller kept no event, [NUM_EVENTS] times
    descriptor [0]. *)
Theorem main_iter_drains fuel (p : poller K) (S : poller_spec p) ctx len (st st' : pstate K) :
  ps_inv S (kern st) -> main_iter fuel p ctx len st = Done tt st' ->
  exists pev n w1,
    poll p (replicate NUM_EVENTS (mk_poller_event 0)) (Z.of_nat NUM_EVENTS) (p_world st) =
      Done (pev, n) w1 /\
    (forall fd, fd ∈ pe_fd <$> take (Z.to_nat n) pev -> pending fd st' = 0%nat) /\
    (wait_contract (ps_reg S (kern st)) (pe_fd <$> take (Z.to_nat n) pev) \/
     pe_fd <$> take (Z.to_nat n) pev = replicate NUM_EVENTS 0).
Proof.
  unfold main_iter. intros Hi Hrun. apply mbind_done_inv in Hrun as ([pev n] & st1 & Hp & Hd).
  apply lift_done_inv in Hp as [Hp _]. simpl in Hd.
  exists pev, n, (p_world st1). split; [done|]. split; [by eapply drain_ready_drains|].
  destruct (ps_poll _ S _ _ _ _ _ _ Hp) as (_ & _ & _ & _ & [(_ & _ & Hc)|[-> ->]]);
    [lia|by rewrite length_replicate, Nat2Z.id|done|by left|right].
  rewrite Nat2Z.id, take_replicate, Nat.min_id. by rewrite fmap_replicate.
Qed.

End MainTheorems.

Section Running.
Context {K : Type} `{KernelLaws K}.
Variable env : K -> K -> Prop.
Variables (p : poller K) (S : poller_spec p).
(** The environment leaves the poller's registrations alone: another
    process cannot change this process's epoll instance. *)
Hypothesis env_keeps : forall k k', env k k' -> ps_inv S k -> ps_inv S k' /\ ps_reg S k' = ps_reg S k.

Lemma main_iter_keeps fuel ctx len (st st' : pstate K) :
  main_iter fuel p ctx len st = Done tt st' -> ps_inv S (kern st) ->
  ps_inv S (kern st') /\ ps_reg S (kern st') = ps_reg S (kern st) /\ out st `prefix_of` out st'.
Proof.
  unfold main_iter. intros Hrun Hi. apply mbind_done_inv in Hrun as ([pev n] & st1 & Hp & Hd).
  apply lift_done_inv in Hp as [Hp Hb].
  destruct (ps_poll _ S _ _ _ _ _ _ Hp) as (Hi1 & Hr1 & Ho1 & _);
    [lia|by rewrite length_replicate, Nat2Z.id|done|].
  destruct (drain_ready_le _ _ _ _ _ _ Hd) as [Hs Hpre].
  destruct (proc_steps_poller p S _ _ Hs Hi1) as [Hi2 Hr2].
  unfold kern, out in *. rewrite Hr2, Hr1. rewrite Ho1 in Hpre. done.
Qed.

(** the invariant of the running process, by induction on its steps
    (loop turns and changes of the environment): the poller's invariant
    holds, the set of registered descriptors never changes, and standard
    output only grows. *)
Lemma running_keeps ctx len (st st' : pstate K) :
  rtc (sys_step env p ctx len) st st' -> ps_inv S (kern st) ->
  ps_inv S (kern st') /\ ps_reg S (kern st') = ps_reg S (kern st) /\ out st `prefix_of` out st'.
Proof.
  induction 1 as [st|st1 st2 st3 Hstep _ IH]; intros Hi; [done|].
  assert (Hs : ps_inv S (kern st2) /\ ps_reg S (kern st2) = ps_reg S (kern st1) /\
               out st1 `prefix_of` out st2).
  { destruct Hstep as [fuel st1 st2 Hrun|st1 k' Henv].
    - by eapply main_iter_keeps.
    - destruct (env_keeps _ _ Henv Hi) as [??]. done. }
  destruct Hs as (Hi2 & Hr2 & Ho2). destruct (IH Hi2) as (Hi3 & Hr3 & Ho3).
  split; [done|]. split; [congruence|by etrans].
Qed.

(** C13: the invariant of the running process, by induction on its steps
    (loop turns and changes of the environment): the poller's invariant
    holds, the set of registered descriptors never changes, and standard
    output only grows. *)
Theorem running_invariant ctx len (st st' : pstate K) :
  rtc (sys_step env p ctx len) st st' -> ps_inv S (kern st) ->
  ps_inv S (kern st') /\ ps_reg S (kern st') = ps_reg S (kern st) /\ out st `prefix_of` out st'.
Proof. apply running_keeps. Qed.

End Running.

Section Program.
Context {K : Type} `{KernelLaws K}.

(** C1: in every state the running program reaches, whatever other
    processes do to files, the epoll instance watches exactly what the
    start left registered: the inotify descriptor, or nothing at all when
    the ignored [poll_add] failed (spec section 3: the notification
    channel is always registered with the poller, if it ever was). *)
Theorem inotify_fd_stays_registered (env : K -> K -> Prop) argv w ctx ep w' b st :
  (forall k k', env k k' -> obs_interest k' = obs_interest k) ->
  main_start argv w = Done (ctx, ep) w' ->
  rtc (sys_step env (epoll_poller_ops ep) ctx (length argv - 1)) (mk_pstate w' b) st ->
  registered_fds (obs_interest (kern st) (epollfd ep)) =
  registered_fds (obs_interest (w_kern w') (epollfd ep)) /\
  forall fd, fd ∈ registered_fds (obs_interest (kern st) (epollfd ep)) -> fd = inofd ctx.
Proof.
  intros Henv Hstart Hrun.
  destruct (main_start_ok _ _ _ _ _ Hstart) as (_ & _ & _ & _ & Honly).
  assert (Hi : interest_ok (obs_interest (w_kern w') (epollfd ep))).
  { intros fd ev Hx. apply Honly in Hx. by injection Hx as -> ->. }
  destruct (running_keeps env _ (epoll_poller_spec ep)) with (2 := Hrun) as (_ & Hr & _).
  - intros k k' Hk. cbn. by rewrite (Henv _ _ Hk).
  - exact Hi.
  - cbn in Hr. split; [exact Hr|]. intros fd Hfd. rewrite Hr in Hfd.
    apply list_elem_of_fmap in Hfd as ([fd' ev] & -> & Hx). apply Honly in Hx.
    by injection Hx as -> _.
Qed.

End Program.

(** ** Edge-triggered notification

    The inotify descriptor is registered with [EPOLLET]: [epoll_wait]
    reports it only for a wakeup, which new records bring, and the report
    consumes the wakeup. No notification is lost as long as records
    queued on the descriptor always have a wakeup pending ([et_ok]); the
    program keeps this by draining every descriptor [poll] reports. *)

Section EdgeTriggered.
Context {K : Type} `{KernelLaws K}.

(** While the registered descriptor [fd] has records queued, the epoll
    instance [epfd] has a wakeup pending for it. *)
Definition et_ok (k : K) (epfd fd : Z) : Prop :=
  fd ∈ registered_fds (obs_interest k epfd) -> (0 < obs_queued k fd)%nat -> fd ∈ obs_ready k epfd.

Lemma proc_steps_ready k k' :
  rtc proc_step k k' -> obs_ready k' = obs_ready k /\ forall fd, (obs_queued k' fd <= obs_queued k fd)%nat.
Proof.
  induction 1 as [|k1 k2 k3 Hs _ [IHr IHq]]; [done|].
  destruct Hs as [(fd & n & r & Hc)|(fd & q & m & r & Hc)].
  - apply read_ready in Hc as [Hr Hq]. split; [congruence|].
    intros fd'. specialize (Hq fd'). specialize (IHq fd'). lia.
  - apply add_watch_ready in Hc as [Hr Hq]. split; [congruence|].
    intros fd'. rewrite <- (Hq fd'). apply IHq.
Qed.

(** [poll_add] on a fresh epoll instance leaves a wakeup pending for the
    descriptor if it has records queued. *)
Lemma epoll_poll_add_et ep fd (w : world K) r w' :
  epoll_poll_add ep fd w = Done r w' -> obs_interest (w_kern w) (epollfd ep) = [] ->
  et_ok (w_kern w') (epollfd ep) fd.
Proof.
  unfold epoll_poll_add, epoll_operate. intros Hrun Hnil Hreg Hq.
  apply mbind_done_inv in Hrun as (res & w1 & Hsc & [= _ <-]).
  apply syscall_done in Hsc as (k1 & Hc & -> & Hnb).
  rewrite bool_decide_true in Hc by (unfold EPOLL_CTL_ADD, EPOLL_CTL_DEL; lia).
  simpl in *. rewrite (epoll_queued (w_kern w) k1) in Hq by (right; left; eauto 10).
  destruct res as [[]|e|]; [by eapply epoll_add_ready| |done].
  apply epoll_ctl_err in Hc. rewrite Hc, Hnil in Hreg. by apply elem_of_nil in Hreg.
Qed.

Lemma main_start_et argv (w : world K) ctx ep w' :
  main_start argv w = Done (ctx, ep) w' -> et_ok (w_kern w') (epollfd ep) (inofd ctx).
Proof.
  unfold main_start. case_bool_decide; [done|]. unfold inotify_all_file_start.
  intros Hrun. apply mbind_done_inv in Hrun as (ctx1 & w1 & _ & Hrun).
  erewrite mbind_done in Hrun by apply print_done.
  erewrite mbind_done in Hrun by apply print_watches_out.
  apply mbind_done_inv in Hrun as (ep1 & w4 & Hcr & Hrun).
  apply mbind_done_inv in Hrun as (r & w5 & Hadd & [= <- <- <-]).
  eapply epoll_poll_add_et; [exact Hadd|]. by apply poller_create_done in Hcr as [-> _].
Qed.

(** A completed turn keeps the obligation: a wakeup of the inotify
    descriptor is either still pending after [poll], or [poll] reported
    the descriptor and the turn drained it. *)
Lemma main_iter_et fuel ep ctx len (st st' : pstate K) fd :
  main_iter fuel (epoll_poller_ops ep) ctx len st = Done tt st' ->
  interest_ok (obs_interest (kern st) (epollfd ep)) -> 0 < fd ->
  et_ok (kern st) (epollfd ep) fd -> et_ok (kern st') (epollfd ep) fd.
Proof.
  unfold main_iter. intros Hrun Hok Hfd Het Hreg Hq.
  apply mbind_done_inv in Hrun as ([pev n] & st1 & Hp & Hd).
  apply lift_done_inv in Hp as [Hp _]. cbn in Hp, Hd.
  pose proof Hp as Hp'. apply epoll_poll_done in Hp' as (evs & Hcall & _ & _).
  destruct (drain_ready_le _ _ _ _ _ _ Hd) as [Hs _].
  destruct (proc_steps_ready _ _ Hs) as [Hr2 Hq2].
  destruct (proc_steps_poller _ (epoll_poller_spec ep) _ _ Hs) as [_ Hreg2];
    [cbn; unfold kern in *; by rewrite (epoll_wait_keeps _ _ _ _ _ Hcall)|].
  cbn in Hreg2. unfold kern in *. rewrite Hreg2, (epoll_wait_keeps _ _ _ _ _ Hcall) in Hreg.
  specialize (Hq2 fd). rewrite (epoll_queued (w_kern (p_world st)) (w_kern (p_world st1)))
    in Hq2 by (right; right; eauto).
  assert (Hlen : length (replicate NUM_EVENTS (mk_poller_event 0)) = Z.to_nat (Z.of_nat NUM_EVENTS))
    by (by rewrite length_replicate, Nat2Z.id).
  assert (Hr0 : fd ∈ obs_ready (w_kern (p_world st)) (epollfd ep)) by (apply Het; [done|lia]).
  destruct (epoll_poll_wakeup _ _ _ _ _ _ _ fd Hp Hlen Hok Hfd Hreg Hr0) as [Hr|Hin].
  - by rewrite Hr2.
  - pose proof (drain_ready_drains _ _ _ _ _ _ Hd fd Hin) as Hz. unfold pending, kern in Hz.
    pose proof (queued_pending (w_kern (p_world st')) fd). lia.
Qed.

Section Running.
Variable env : K -> K -> Prop.
Variables (ep : epoll_poller) (ctx : inotify_context) (len : nat).
(** Another process cannot change this process's epoll instance; the
    records it causes come with a wakeup. *)
Hypothesis env_interest : forall k k', env k k' -> obs_interest k' = obs_interest k.
Hypothesis env_wakes : forall k k', env k k' ->
  et_ok k (epollfd ep) (inofd ctx) -> et_ok k' (epollfd ep) (inofd ctx).

Lemma running_et (st st' : pstate K) :
  rtc (sys_step env (epoll_poller_ops ep) ctx len) st st' -> 0 < inofd ctx ->
  interest_ok (obs_interest (kern st) (epollfd ep)) -> et_ok (kern st) (epollfd ep) (inofd ctx) ->
  interest_ok (obs_interest (kern st') (epollfd ep)) /\ et_ok (kern st') (epollfd ep) (inofd ctx).
Proof.
  intros Hrun Hfd. induction Hrun as [st|st1 st2 st3 Hstep _ IH]; intros Hok Het; [done|].
  apply IH.
  - destruct Hstep as [fuel st1 st2 Hi|st1 k' Henv].
    + by destruct (main_iter_keeps _ (epoll_poller_spec ep) fuel ctx len st1 st2 Hi Hok).
    + unfold kern. cbn. by rewrite (env_interest _ _ Henv).
  - destruct Hstep as [fuel st1 st2 Hi|st1 k' Henv]; [by eapply main_iter_et|].
    by apply (env_wakes _ _ Henv).
Qed.

End Running.

(** C15: no notification is lost (spec section 4.1 with [EPOLLET]): in
    every state the running program reaches, whatever other processes do
    (their records bring wakeups), while the inotify descriptor is
    registered and has records queued, the next turn of the loop does not
    block: it completes or stops the process. The proof rests on every
    turn draining what [poll] reported; a turn that left records behind
    would have consumed their wakeup and block for ever. The descriptor is
    taken positive: [epoll_poll] drops events whose [data.fd] is [0]
    ([main_iter_nothing_kept]). *)
Theorem inotify_no_lost_wakeup (env : K -> K -> Prop) argv w ctx ep w' b st fuel :
  (forall k k', env k k' -> obs_interest k' = obs_interest k) ->
  (forall k k', env k k' -> et_ok k (epollfd ep) (inofd ctx) -> et_ok k' (epollfd ep) (inofd ctx)) ->
  main_start argv w = Done (ctx, ep) w' -> 0 < inofd ctx ->
  rtc (sys_step env (epoll_poller_ops ep) ctx (length argv - 1)) (mk_pstate w' b) st ->
  inofd ctx ∈ registered_fds (obs_interest (kern st) (epollfd ep)) ->
  (0 < obs_queued (kern st) (inofd ctx))%nat ->
  (forall fd, (pending fd st < fuel)%nat) ->
  match main_iter fuel (epoll_poller_ops ep) ctx (length argv - 1) st with
  | Done _ _ | Fatal _ _ => True
  | _ => False
  end.
Proof.
  intros Henv Hwake Hstart Hfd Hrun Hreg Hq Hf.
  destruct (main_start_ok _ _ _ _ _ Hstart) as (_ & _ & _ & _ & Honly).
  destruct (running_et env ep ctx _ Henv Hwake _ _ Hrun Hfd) as [Hok Het].
  { intros fd ev Hx. apply Honly in Hx. by injection Hx as -> ->. }
  { exact (main_start_et _ _ _ _ _ Hstart). }
  pose proof (main_iter_outcome fuel _ (epoll_poller_spec ep) ctx (length argv - 1) st Hok Hf) as Ho.
  destruct (main_iter _ _ _ _ _) as [| |st'|]; try done.
  destruct Ho as [-> [w'' Hb]]. cbn in Hb.
  apply list_elem_of_fmap in Hreg as ([fd ev] & Hfd' & Hin). simpl in Hfd'. subst fd.
  destruct (epoll_poll_blocked _ _ _ _ _ Hb _ _ Hin) as [Hz|[_ Hnr]].
  - unfold kern in Hq. lia.
  - apply Hnr, Het; [|done]. apply list_elem_of_fmap. by exists (inofd ctx, ev).
Qed.

(** C32: when [epoll_wait] returns only events [epoll_poll] does not keep
    (none is readable with a positive descriptor), [poll] hands back the
    zeroed array with its full count and the turn drains descriptor [0]
    (standard input) [NUM_EVENTS] times. *)
Theorem main_iter_nothing_kept fuel ep ctx len (st : pstate K) k' evs :
  sys_epoll_wait (kern st) (epollfd ep) NUM_EVENTS = (k', SysOk evs) -> kept_events evs = [] ->
  main_iter fuel (epoll_poller_ops ep) ctx len st =
  drain_ready fuel (replicate NUM_EVENTS (mk_poller_event 0)) (inotifies ctx) len
    (mk_pstate (set_kern k' (p_world st)) (p_buf st)).
Proof.
  intros Hcall Hnone. unfold main_iter.
  rewrite <- (Nat2Z.id NUM_EVENTS) in Hcall.
  erewrite mbind_done;
    [|unfold lift; cbn [poll epoll_poller_ops]; by rewrite (epoll_poll_none _ _ _ _ _ _ Hcall Hnone)].
  cbv beta. cbn [fst snd]. by rewrite Nat2Z.id, take_replicate, Nat.min_id.
Qed.

End EdgeTriggered.
