(* ===== verification/PerFile.v ===== *)
(** * The unused [inotify_per_file] ([src/main.c]) and [printf("%03o")]

    [inotify_per_file(argc, argv)] is the program's other watcher, marked
    [__unused] and never called from [main]: one epoll instance
    ([epoll_create(1)], unchecked) and, per argument, an inotify instance
    of its own ([inotify_init1(IN_NONBLOCK)], unchecked) with one watch,
    registered level-triggered ([EPOLLIN]) with the descriptor as data
    ([epoll_ctl], result ignored). A path whose watch cannot be added
    stops the process ([fatal]; the [continue] after it is dead code).
    Then, for ever: [epoll_wait], and for each ready descriptor one line
    ["fd %d is ready for read"], one [read] into the stack buffer [buf],
    and the line ["`%s`: %03o"] of the record at its head.

    [buf] is declared in the loop body and never initialised: the model
    keeps what the slot holds in the process state's buffer ([p_buf]),
    which a run starts with arbitrary contents and each [read] overwrites
    only where it writes ([buf_store]), as in [read_inotify_events].

    [%03o] ([fmt_03o]) is written with the bit operations a formatter uses:
    octal digits are the 3-bit groups [Z.land w 7] of [Z.shiftr w 3],
    eleven of them cover the 32 bits of [uint32_t], and the text is padded
    with zeros to three characters.

    Theorems: a setup that returns has watched every argument, and every
    descriptor of the epoll instance is registered with [EPOLLIN] and
    itself as data ([per_file_setup_spec]); what one ready descriptor
    gets in a turn: its line, one [read], and the line of the record at
    the head of the stack buffer, or a fatal exit
    ([per_file_events_read]). *)

From S2P Require Import Prelude CStr Abi Kernel Reader MainLoop.

Local Open Scope Z_scope.
Local Open Scope cprog_scope.

(** ** [printf("%03o")] of a [uint32_t] *)

(** The octal digits of [w], least significant first, no leading zero. *)

Fixpoint octal_rev (fuel : nat) (w : Z) : list Z :=
  match fuel with
  | O => []
  | S f => if w =? 0 then [] else Z.land w 7 :: octal_rev f (Z.shiftr w 3)
  end.

(** The character of one octal digit. *)
Definition oct_digit (d : Z) : ascii := ascii_of_nat (48 + Z.to_nat d).

(** [%o]: the digits most significant first, ["0"] for zero. *)
Definition oct_chars (m : Z) : list ascii :=
  match octal_rev 11 (u32 m) with
  | [] => ["0"%char]
  | ds => rev (oct_digit <$> ds)
  end.

(** [%03o]: padded with zeros to at least three characters. *)
Definition fmt_03o (m : Z) : string :=
  String.string_of_list_ascii (replicate (3 - length (oct_chars m)) "0"%char ++ oct_chars m).

(** [IN_CREATE] prints as [400], [IN_MODIFY] as [002]. *)
Example fmt_03o_examples :
  fmt_03o 0x100 = "400"%string /\ fmt_03o 2 = "002"%string /\ fmt_03o 0 = "000"%string /\ fmt_03o 0x8000 = "100000"%string /\ fmt_03o (-1) = "37777777777"%string.
Proof. vm_compute. auto. Qed.

(** ** [inotify_per_file] *)

Section PerFile.
Context {K : Type} `{Kernel K}.

(** The newline at the end of the format given to [fatal], which adds its
    own. *)
Definition newline : string := String (ascii_of_nat 10) EmptyString.

(** [for (int i = 1; i < argc; i++) { int inofd = inotify_init1(IN_NONBLOCK);
    if ((inotify_add_watch(inofd, argv[i], default_events)) < 0) {
    fatal("inotify_add_watch(`%s`): %m\n", argv[i]); continue; }
    event.data.fd = inofd; event.events = EPOLLIN;
    epoll_ctl(epollfd, EPOLL_CTL_ADD, inofd, &event); }] over [argv[1..]]. *)
Fixpoint per_file_register (epollfd : Z) (args : list string) : M (world K) unit :=
  match args with
  | [] => mret tt
  | a :: args' =>
      r <- syscall (fun k => sys_inotify_init1 k IN_NONBLOCK) ;;
      let inofd := ret_code r in
      w <- syscall (fun k => sys_inotify_add_watch k inofd a default_events) ;;
      if ret_code w <? 0 then
        fatal ("inotify_add_watch(`" +:+ a +:+ "`): " +:+ errmsg w +:+ newline)
      else
        _ <- syscall (fun k => sys_epoll_ctl k epollfd EPOLL_CTL_ADD inofd
                                 (Some (mk_epoll_event EPOLLIN inofd))) ;;
        per_file_register epollfd args'
  end.

(** [epollfd = epoll_create(1);] and the registration loop; the result is
    [epollfd]. *)
Definition per_file_setup (argv : list string) : M (world K) Z :=
  r <- syscall (fun k => sys_epoll_create k 1) ;;
  per_file_register (ret_code r) (drop 1 argv) ;;;
  mret (ret_code r).

(** [printf("fd %d is ready for read\n", events[i].data.fd);] *)
Definition ready_line (e : epoll_event) : string :=
  "fd " +:+ fmt_d (ep_data_fd e) +:+ " is ready for read".

(** [printf("`%s`: %03o\n", ievent->name, ievent->mask);] *)
Definition mask_line (ev : inotify_event) : string :=
  "`" +:+ ev_name ev +:+ "`: " +:+ fmt_03o (ev_mask ev).

(** [for (int i = 0; i < nready; i++) { ... }]: the line, [if (read(
    events[i].data.fd, buf, sizeof(buf)) < 0) fatal("read: %m");] and the
    line of the record at the head of [buf]. *)
Fixpoint per_file_events (evs : list epoll_event) : M (pstate K) unit :=
  match evs with
  | [] => mret tt
  | e :: evs' =>
      lift (print (ready_line e)) ;;;
      r <- lift (syscall (fun k => sys_read k (ep_data_fd e) (Z.to_nat READ_BUF_SIZE))) ;;
      match r with
      | SysOk data =>
          st <- mget ;;
          let buf := buf_store (p_buf st) data in
          mput (mk_pstate (p_world st) buf) ;;;
          lift (print (mask_line (decode_event buf))) ;;;
          per_file_events evs'
      | _ => lift (fatal ("read: " +:+ errmsg r))
      end
  end.

(** One turn of [for (;;)]: [if ((nready = epoll_wait(epollfd, events,
    NUM_EVENTS, -1)) < 0) fatal("epoll_wait: %m");] and the events. *)
Definition per_file_iter (epollfd : Z) : M (pstate K) unit :=
  r <- lift (syscall (fun k => sys_epoll_wait k epollfd NUM_EVENTS)) ;;
  match r with
  | SysOk evs => per_file_events evs
  | _ => lift (fatal ("epoll_wait: " +:+ errmsg r))
  end.

(** [for (;;)], [n] turns at most. *)
Fixpoint per_file_loop (n : nat) (epollfd : Z) : M (pstate K) unit :=
  match n with
  | O => mnofuel
  | S n' => per_file_iter epollfd ;;; per_file_loop n' epollfd
  end.

Definition inotify_per_file (n : nat) (argv : list string) : M (pstate K) unit :=
  epollfd <- lift (per_file_setup argv) ;;
  per_file_loop n epollfd.

End PerFile.


Section PerFileLaws.
Context {K : Type} `{KernelLaws K}.

(** C24: what one ready descriptor gets in a turn of the unused
    watcher: the line ["fd N is ready for read"], then one [read] into the
    stack buffer; when it returns bytes, the line with the name and octal
    mask of the record at the head of the buffer those bytes leave, and
    the turn goes on with the next descriptor; when it fails, the process
    stops with ["read: %m"]. *)
Theorem per_file_events_read e evs (st : pstate K) k' r :
  sys_read (kern st) (ep_data_fd e) (Z.to_nat READ_BUF_SIZE) = (k', r) ->
  per_file_events (e :: evs) st =
  match r with
  | SysOk data =>
      per_file_events evs
        (mk_pstate (mk_world k' (out st ++ [ready_line e;
                                            mask_line (decode_event (buf_store (p_buf st) data))])
                      (w_err (p_world st)))
           (buf_store (p_buf st) data))
  | SysErr err =>
      Fatal ("read: " +:+ strerror err)
        (mk_pstate (mk_world k' (out st ++ [ready_line e])
                      (w_err (p_world st) ++ ["fatal error: " +:+ ("read: " +:+ strerror err)]))
           (p_buf st))
  | SysBlock =>
      Blocked (mk_pstate (mk_world (kern st) (out st ++ [ready_line e]) (w_err (p_world st))) (p_buf st))
  end.
Proof.
  intros Hr. cbn [per_file_events]. erewrite mbind_done by apply lift_print.
  unfold lift at 1, syscall at 1, mbind at 1. cbn -[per_file_events decode_event buf_store mask_line].
  unfold kern, out in *. rewrite Hr. destruct r as [data|err|]; cbn -[per_file_events decode_event buf_store mask_line];
    [|by destruct err|done].
  by rewrite <- app_assoc.
Qed.

(** Every descriptor of the interest list of [epfd] is registered for
    [EPOLLIN] alone, level-triggered, with itself as data. *)
Definition epollin_self (k : K) (epfd : Z) : Prop :=
  forall x, x ∈ obs_interest k epfd -> exists fd, x = (fd, mk_epoll_event EPOLLIN fd).

Lemma epoll_ctl_epollin_self k epfd fd k' r :
  sys_epoll_ctl k epfd EPOLL_CTL_ADD fd (Some (mk_epoll_event EPOLLIN fd)) = (k', r) ->
  r <> SysBlock -> epollin_self k epfd -> epollin_self k' epfd.
Proof.
  intros Hc Hr Hs x Hx. destruct r as [[]|e|]; [|rewrite (epoll_ctl_err _ _ _ _ _ _ _ Hc) in Hx; by apply Hs|done].
  apply epoll_add_ok in Hc as [Hc _]. apply Hc in Hx as [->|Hx]; [by eexists|by apply Hs].
Qed.

(** What the registration loop does, argument by argument. *)
Lemma per_file_register_run epfd args (w w' : world K) :
  per_file_register epfd args w = Done tt w' ->
  Forall (fun a => is_Some (obs_inode (w_kern w) a)) args /\
  obs_inode (w_kern w') = obs_inode (w_kern w) /\
  (epollin_self (w_kern w) epfd -> epollin_self (w_kern w') epfd).
Proof.
  revert w. induction args as [|a args IH]; intros w Hrun; simpl in Hrun.
  { injection Hrun as <-. auto. }
  apply mbind_done_inv in Hrun as (r1 & w1 & H1 & Hrun).
  apply syscall_done in H1 as (k1 & Hk1 & -> & _). apply init1_keeps in Hk1 as [Hi1 Hn1].
  apply mbind_done_inv in Hrun as (r2 & w2 & H2 & Hrun).
  apply syscall_done in H2 as (k2 & Hk2 & -> & _).
  destruct (Z.ltb_spec (ret_code r2) 0); [by apply fatal_not_done in Hrun|].
  rewrite (ret_code_nonneg r2) in Hk2 by done.
  pose proof (add_watch_keeps _ _ _ _ _ _ Hk2) as (_ & Hi2 & _ & Hn2).
  apply add_watch_ok in Hk2 as (_ & i & Hia & _).
  apply mbind_done_inv in Hrun as (r3 & w3 & H3 & Hrun).
  apply syscall_done in H3 as (k3 & Hk3 & -> & Hr3).
  pose proof (epoll_keeps k2 k3 ltac:(right; left; eauto 6)) as (Hi3 & _).
  apply IH in Hrun as (Hall & Hi & Hs). simpl in *.
  rewrite Hi3, Hi2, Hi1 in Hall, Hi. rewrite Hi1 in Hia.
  split; [constructor; [eauto|done]|split; [done|]].
  intros Hs0. apply Hs. eapply epoll_ctl_epollin_self; [exact Hk3|done|].
  unfold epollin_self. by rewrite Hn2, Hn1.
Qed.

(** C23: a setup that returns has watched every argument: each names an
    existing file (a path that does not stops the process, unlike
    [register_inotify_files], which reports it and goes on); and when
    [epoll_create] succeeded, every descriptor of the new epoll instance
    is registered for [EPOLLIN], level-triggered, with itself as data. *)
Theorem per_file_setup_spec argv (w w' : world K) epfd :
  per_file_setup argv w = Done epfd w' ->
  Forall (fun a => is_Some (obs_inode (w_kern w) a)) (drop 1 argv) /\
  (0 <= epfd -> epollin_self (w_kern w') epfd).
Proof.
  unfold per_file_setup. intros Hrun.
  apply mbind_done_inv in Hrun as (r & w1 & H1 & Hrun).
  apply syscall_done in H1 as (k1 & Hk1 & -> & _).
  pose proof (epoll_keeps (w_kern w) k1 ltac:(left; eauto)) as (Hi1 & _).
  apply mbind_done_inv in Hrun as ([] & w2 & H2 & [= <- <-]).
  apply per_file_register_run in H2 as (Hall & _ & Hs). simpl in Hall. rewrite Hi1 in Hall.
  split; [done|]. intros Hfd. apply Hs.
  rewrite (ret_code_nonneg r Hfd) in Hk1. apply epoll_create_ok in Hk1 as (_ & Hnil & _).
  intros x. simpl. rewrite Hnil. by intros ?%elem_of_nil.
Qed.

End PerFileLaws.
