(* ===== verification/Scenarios.v ===== *)
(** * Runs of the whole program on the executable kernel

    The program's model ([main_start], then turns of [main_iter]) run on
    [KernelModel]'s kernel, with the environment's changes in between:
    [session] performs, for each change of its script, the change and then
    one turn of the loop, which is a run of [sys_step] ([session_steps]).
    A few of the spec's scenarios (section 8) are run as tests; the rest
    of the file applies the theorems of the other files at concrete
    states (their witnesses), including an environment whose records wake
    the epoll instance ([kwake], [env_post_et]). *)

From S2P Require Import Prelude CStr Abi Kernel KernelModel Registry Describe Poller Reader MainLoop PerFile.

Local Open Scope Z_scope.
Local Open Scope cprog_scope.

(** The environment may change anything but this process's epoll
    instances. *)
Definition kenv (k k' : kstate) : Prop := ks_ep k' = ks_ep k.

(** Each change of the script, then one turn of the loop. *)
Fixpoint session (fuel : nat) (p : poller kstate) (ctx : inotify_context) (len : nat)
    (script : list (kstate -> kstate)) (st : pstate kstate) : outcome (pstate kstate) unit :=
  match script with
  | [] => Done tt st
  | f :: t =>
      match main_iter fuel p ctx len (mk_pstate (set_kern (f (kern st)) (p_world st)) (p_buf st)) with
      | Done _ st' => session fuel p ctx len t st'
      | o => o
      end
  end.

(** The program started with [argv] on a machine with the files [fs],
    drains run with fuel 10 (more than the records any script queues). *)
Definition run (argv : list string) (fs : list (string * Z)) (script : list (kstate -> kstate))
    : outcome (pstate kstate) unit :=
  match main_start argv (mk_world (boot fs) [] []) with
  | Done (ctx, ep) w =>
      session 10 (epoll_poller_ops ep) ctx (length argv - 1) script (mk_pstate w buf0)
  | Fatal m w => Fatal m (mk_pstate w buf0)
  | Blocked w => Blocked (mk_pstate w buf0)
  | NoFuel => NoFuel
  end.

Definition run_out argv fs script : option (list string * list string) :=
  match run argv fs script with
  | Done _ st | Fatal _ st => Some (out st, w_err (p_world st))
  | _ => None
  end.

(** A record the kernel queues, without cookie. *)
Definition ev (wd mask : Z) (name : string) : kevent := mk_kevent wd mask 0 name.

(** The scripts use the first inotify instance, descriptor 3. *)
Definition post (e : kevent) : kstate -> kstate := env_post 3 e.

Lemma session_steps (env : kstate -> kstate -> Prop) fuel p ctx len script st st' :
  (forall f, f ∈ script -> forall k, env k (f k)) ->
  session fuel p ctx len script st = Done tt st' ->
  rtc (sys_step env p ctx len) st st'.
Proof.
  revert st. induction script as [|f t IH]; intros st Hf Hrun; simpl in Hrun.
  { injection Hrun as <-. apply rtc_refl. }
  destruct (main_iter _ _ _ _ _) as [[] st1| | |] eqn:Hi; try done.
  eapply rtc_l; [apply step_env, (Hf f ltac:(left))|].
  eapply rtc_l; [eapply step_iter, Hi|]. apply IH; [|done].
  intros g Hg. apply Hf. by right.
Qed.

(** ** The spec's scenarios (section 8) *)

Example scenario_usage :
  run_out ["inotify"] [] [] = Some ([], ["Usage: inotify file1 [file2 file3...]"]).
Proof. vm_compute. reflexivity. Qed.

(** A path that does not exist is reported on standard error and the
    other paths are watched. *)
Example scenario_missing_path :
  run_out ["inotify"; "/tmp/a"; "/nope"; "/tmp/b"] [("/tmp/a", 10); ("/tmp/b", 11)] [] =
  Some (["inotify fd: 3"; "watchfd: 1 for path: `/tmp/a`"; "watchfd: 2 for path: `/tmp/b`"],
        ["inotify_add_watch('/nope') error: No such file or directory"]).
Proof. vm_compute. reflexivity. Qed.

(** A rename pair read in two drains: both halves show cookie 42; a
    signal in between is retried; a record of an unknown watch descriptor
    is ignored without a line. *)
Example scenario_rename_pair :
  run_out ["inotify"; "/tmp/a"] [("/tmp/a", 10)]
    [fun k => post (mk_kevent 1 IN_MOVED_FROM 42 "x") (env_signal k);
     fun k => post (mk_kevent 1 IN_MOVED_TO 42 "y") k;
     fun k => post (ev 7 IN_MODIFY "q") k] =
  Some (["inotify fd: 3"; "watchfd: 1 for path: `/tmp/a`";
         "IN_MOVE for event: wd=1, name='x'"; "`/tmp/a/x`: MOVED_FROM cookie=42(event.name=`x`)";
         "IN_MOVE for event: wd=1, name='y'"; "`/tmp/a/y`: MOVED_TO cookie=42(event.name=`y`)"], []).
Proof. vm_compute. reflexivity. Qed.

(** ** What the runs show of the code *)

(** A nameless record ([len = 0], here [IN_MOVE_SELF] on the watched
    directory) is read with the name the previous record left in the
    static [buf]: the move of [/tmp/a] itself is reported as [/tmp/a/x]. *)
Example scenario_stale_name :
  run_out ["inotify"; "/tmp/a"] [("/tmp/a", 10)]
    [fun k => post (ev 1 IN_CREATE "x") (env_create "/tmp/a/x" 12 k);
     fun k => post (ev 1 IN_MOVE_SELF "") k] =
  Some (["inotify fd: 3"; "watchfd: 1 for path: `/tmp/a`";
         "`/tmp/a/x`: CREATE(event.name=`x`)";
         "`/tmp/a/x`: MOVE_SELF(event.name=`x`)"], []).
Proof. vm_compute. reflexivity. Qed.

(** The substring heuristic of [path_of]: [b] created in [/tmp/ab] is
    reported as [/tmp/ab], and no watch is added for [/tmp/ab/b]. *)
Example scenario_substring_child :
  match run ["inotify"; "/tmp/ab"] [("/tmp/ab", 10)]
          [fun k => post (ev 1 IN_CREATE "b") (env_create "/tmp/ab/b" 11 k)] with
  | Done _ st => out st = ["inotify fd: 3"; "watchfd: 1 for path: `/tmp/ab`";
                          "`/tmp/ab`: CREATE(event.name=`b`)"] /\
                 k_obs_watch (kern st) 3 2 = None
  | _ => False
  end.
Proof. vm_compute. split; reflexivity. Qed.

(** ** The theorems applied to concrete runs *)

Definition demo_fs : list (string * Z) := [("/tmp/a", 10)].
Definition demo_w0 : world kstate := mk_world (boot demo_fs) [] [].
Definition demo_ctx : inotify_context := mk_ctx 3 [mk_inotify 1 (Some "/tmp/a")].
Definition demo_ep : epoll_poller := mk_epoll_poller 4.
Definition demo_k1 : kstate :=
  mk_kstate demo_fs 5 [(3, mk_ino [(1, 10)] 2 [])]
    [(4, [(3, mk_epoll_event (Z.lor EPOLLIN EPOLLET) 3)])] 0 [].
Definition demo_w1 : world kstate :=
  mk_world demo_k1 ["inotify fd: 3"; "watchfd: 1 for path: `/tmp/a`"] [].
Definition demo_st0 : pstate kstate := mk_pstate demo_w1 buf0.
(** The creation of [/tmp/a/x] queued, before the turn that reads it. *)
Definition demo_create (k : kstate) : kstate := post (ev 1 IN_CREATE "x") (env_create "/tmp/a/x" 12 k).
Definition demo_st0' : pstate kstate :=
  mk_pstate (set_kern (demo_create demo_k1) demo_w1) buf0.
Definition demo_st1 : pstate kstate := Eval vm_compute in
  match session 10 (epoll_poller_ops demo_ep) demo_ctx 1 [demo_create] demo_st0 with
  | Done _ st => st
  | _ => demo_st0
  end.

Lemma demo_kenv_interest k k' : kenv k k' -> obs_interest k' = obs_interest k.
Proof. unfold kenv. intros Hk. cbn. unfold k_obs_interest. by rewrite Hk. Qed.

Lemma demo_reach : rtc (sys_step kenv (epoll_poller_ops demo_ep) demo_ctx 1) demo_st0 demo_st1.
Proof.
  apply (session_steps kenv 10 _ _ _ [demo_create]); [|vm_compute; reflexivity].
  intros f Hf k. apply list_elem_of_singleton in Hf as ->. reflexivity.
Qed.

Lemma demo_inv : interest_ok (obs_interest (kern demo_st0) (epollfd demo_ep)).
Proof.
  intros fd e Hx. cbn in Hx. apply list_elem_of_singleton in Hx. by injection Hx as -> ->.
Qed.

Lemma demo_pending fuel : (2 < fuel)%nat -> forall fd, (pending fd demo_st0' < fuel)%nat.
Proof.
  intros Hf fd. unfold pending. cbn. unfold k_obs_pending. cbn.
  destruct (fd =? 3); simpl; lia.
Qed.

Lemma inotify_fd_stays_registered_witness :
  main_start ["inotify"; "/tmp/a"] demo_w0 = Done (demo_ctx, demo_ep) demo_w1 /\
  registered_fds (obs_interest (kern demo_st1) (epollfd demo_ep)) =
  registered_fds (obs_interest (w_kern demo_w1) (epollfd demo_ep)) /\
  forall fd, fd ∈ registered_fds (obs_interest (kern demo_st1) (epollfd demo_ep)) -> fd = inofd demo_ctx.
Proof.
  assert (Hs : main_start ["inotify"; "/tmp/a"] demo_w0 = Done (demo_ctx, demo_ep) demo_w1)
    by (vm_compute; reflexivity).
  split; [exact Hs|].
  exact (inotify_fd_stays_registered kenv _ _ _ _ _ _ _ demo_kenv_interest Hs demo_reach).
Defined.

Lemma running_invariant_witness :
  ps_inv (epoll_poller_spec demo_ep) (kern demo_st1) /\
  ps_reg (epoll_poller_spec demo_ep) (kern demo_st1) = ps_reg (epoll_poller_spec demo_ep) (kern demo_st0) /\
  out demo_st0 `prefix_of` out demo_st1.
Proof.
  apply (running_invariant kenv (epoll_poller_ops demo_ep) (epoll_poller_spec demo_ep))
    with (ctx := demo_ctx) (len := 1%nat).
  - intros k k' Hk Hi. cbn in *. unfold kenv, k_obs_interest in *. by rewrite Hk.
  - exact demo_reach.
  - exact demo_inv.
Defined.

Lemma main_iter_runs_witness :
  match main_iter 10 (epoll_poller_ops demo_ep) demo_ctx 1 demo_st0' with
  | NoFuel => False
  | Blocked st' => st' = demo_st0'
  | _ => True
  end.
Proof.
  apply (main_iter_runs 10 _ (epoll_poller_spec demo_ep)).
  - intros fd e Hx. cbn in Hx. apply list_elem_of_singleton in Hx. by injection Hx as -> ->.
  - apply demo_pending. lia.
Defined.

Lemma read_loop_terminates_witness :
  (pending 3 demo_st0' < 10)%nat /\
  match read_loop 10 3 (inotifies demo_ctx) 1 demo_st0' with
  | NoFuel | Blocked _ => False
  | _ => True
  end.
Proof.
  assert (Hp : (pending 3 demo_st0' < 10)%nat) by (vm_compute; lia).
  split; [exact Hp|]. exact (read_loop_terminates 10 3 (inotifies demo_ctx) 1 demo_st0' Hp).
Defined.

(** The poll of the turn after the creation of [/tmp/a/x]. *)
Definition demo_pev1 : list poller_event := mk_poller_event 3 :: replicate 3 (mk_poller_event 0).
Definition demo_w_polled : world kstate := Eval vm_compute in
  match epoll_poll demo_ep (replicate 4 (mk_poller_event 0)) 4 (p_world demo_st0') with
  | Done _ w => w
  | _ => p_world demo_st0'
  end.

Lemma epoll_poll_refines_witness :
  epoll_poll demo_ep (replicate 4 (mk_poller_event 0)) 4 (p_world demo_st0') =
    Done (demo_pev1, 1) demo_w_polled /\
  exists evs, sys_epoll_wait (w_kern (p_world demo_st0')) (epollfd demo_ep) (Z.to_nat 4) =
    (w_kern demo_w_polled, SysOk evs) /\
  ((kept_events evs <> [] /\ 1 <= 1 <= 4 /\ length demo_pev1 = length (replicate 4 (mk_poller_event 0)) /\
    pe_fd <$> take (Z.to_nat 1) demo_pev1 = ep_data_fd <$> kept_events evs /\
    wait_contract (registered_fds (obs_interest (w_kern (p_world demo_st0')) (epollfd demo_ep)))
                  (pe_fd <$> take (Z.to_nat 1) demo_pev1)) \/
   (kept_events evs = [] /\ demo_pev1 = replicate 4 (mk_poller_event 0) /\ 1 = 4)).
Proof.
  assert (Hrun : epoll_poll demo_ep (replicate 4 (mk_poller_event 0)) 4 (p_world demo_st0') =
                 Done (demo_pev1, 1) demo_w_polled) by (vm_compute; reflexivity).
  split; [exact Hrun|]. apply (epoll_poll_refines _ _ _ _ _ _ _ Hrun); [lia|reflexivity|].
  intros fd e Hx. cbn in Hx. apply list_elem_of_singleton in Hx. by injection Hx as -> ->.
Defined.

Lemma main_start_spec_witness :
  main_start ["inotify"; "/tmp/a"] demo_w0 = Done (demo_ctx, demo_ep) demo_w1 /\
  (2 <= length ["inotify"; "/tmp/a"])%nat /\
  w_out demo_w1 = w_out demo_w0 ++ ("inotify fd: " +:+ fmt_d (inofd demo_ctx)) ::
                                  watch_lines (inotifies demo_ctx) /\
  length (inotifies demo_ctx) = (length ["inotify"; "/tmp/a"] - 1)%nat /\
  slots_ok (w_kern demo_w0) (w_kern demo_w1) (inofd demo_ctx) (drop 1 ["inotify"; "/tmp/a"])
    (inotifies demo_ctx) /\
  (forall x, x ∈ obs_interest (w_kern demo_w1) (epollfd demo_ep) ->
             x = (inofd demo_ctx, mk_epoll_event (Z.lor EPOLLIN EPOLLET) (inofd demo_ctx))).
Proof.
  assert (Hs : main_start ["inotify"; "/tmp/a"] demo_w0 = Done (demo_ctx, demo_ep) demo_w1)
    by (vm_compute; reflexivity).
  split; [exact Hs|]. exact (main_start_spec _ _ _ _ _ Hs).
Defined.

Lemma main_usage_witness :
  (length ["inotify"] < 2)%nat /\
  main_start ["inotify"] demo_w0 =
  Fatal "exit(EXIT_FAILURE)" (mk_world (boot demo_fs) [] [usage "inotify"]).
Proof.
  assert (Hl : (length ["inotify"] < 2)%nat) by (simpl; lia).
  split; [exact Hl|]. exact (main_usage ["inotify"] demo_w0 Hl).
Defined.

Definition demo_reg_world (err : list string) : world kstate :=
  mk_world (mk_kstate demo_fs 4 [(3, mk_ino [(1, 10)] 2 [])] [] 0 []) [] err.

Lemma register_inotify_files_slots_witness :
  register_inotify_files ["/tmp/a"] 1 demo_w0 = Done demo_ctx (demo_reg_world []) /\
  length (inotifies demo_ctx) = 1%nat /\
  slots_ok (w_kern demo_w0) (w_kern (demo_reg_world [])) (inofd demo_ctx) ["/tmp/a"]
    (inotifies demo_ctx) /\
  w_out (demo_reg_world []) = w_out demo_w0.
Proof.
  assert (Hs : register_inotify_files ["/tmp/a"] 1 demo_w0 = Done demo_ctx (demo_reg_world []))
    by (vm_compute; reflexivity).
  split; [exact Hs|]. exact (register_inotify_files_slots _ _ _ _ _ Hs).
Defined.

Definition demo_fs2 : list (string * Z) := [("/tmp/a", 10); ("/tmp/b", 11)].

Lemma register_handles_distinct_witness :
  register_inotify_files ["/tmp/a"; "/tmp/b"] 2 (mk_world (boot demo_fs2) [] []) =
    Done (mk_ctx 3 [mk_inotify 1 (Some "/tmp/a"); mk_inotify 2 (Some "/tmp/b")])
      (mk_world (mk_kstate demo_fs2 4 [(3, mk_ino [(2, 11); (1, 10)] 3 [])] [] 0 []) [] []) /\
  watchfd (mk_inotify 1 (Some "/tmp/a")) <> watchfd (mk_inotify 2 (Some "/tmp/b")).
Proof.
  assert (Hs : register_inotify_files ["/tmp/a"; "/tmp/b"] 2 (mk_world (boot demo_fs2) [] []) =
    Done (mk_ctx 3 [mk_inotify 1 (Some "/tmp/a"); mk_inotify 2 (Some "/tmp/b")])
      (mk_world (mk_kstate demo_fs2 4 [(3, mk_ino [(2, 11); (1, 10)] 3 [])] [] 0 []) [] []))
    by (vm_compute; reflexivity).
  split; [exact Hs|].
  apply (register_handles_distinct _ _ _ _ Hs) with (i := 0%nat) (j := 1%nat); try done.
  intros i j fi fj n Hij Hi Hj.
  destruct i as [|[|i]]; destruct j as [|[|j]]; simpl in Hi, Hj; simplify_eq; cbn; congruence.
Defined.

Lemma indexof_filled_witness :
  slots_ok demo_k1 demo_k1 3 ["/tmp/a"] (inotifies demo_ctx) /\
  indexof (inotifies demo_ctx) 1 1 = Z.of_nat 0 /\
  exists s p, inotifies demo_ctx !! 0%nat = Some s /\ path s = Some p /\ watchfd s = 1.
Proof.
  assert (Hok : slots_ok demo_k1 demo_k1 3 ["/tmp/a"] (inotifies demo_ctx)).
  { intros [|j] s Hj; [|by destruct j]. injection Hj as <-. right.
    exists "/tmp/a"%string, 10. repeat split; try lia; reflexivity. }
  assert (Hi : indexof (inotifies demo_ctx) 1 1 = Z.of_nat 0) by reflexivity.
  split; [exact Hok|]. split; [exact Hi|].
  exact (indexof_filled _ _ _ _ _ 1 1 0 Hok ltac:(lia) ltac:(simpl; lia) Hi).
Defined.

Lemma register_inotify_files_outcome_witness :
  match sys_inotify_init1 (w_kern demo_w0) IN_NONBLOCK with
  | (_, SysErr e) => exists w', register_inotify_files ["/tmp/a"] 1 demo_w0 =
                                Fatal ("inotify_init1: " +:+ strerror e) w'
  | (_, SysOk fd) => exists ctx w', register_inotify_files ["/tmp/a"] 1 demo_w0 = Done ctx w' /\
                                   inofd ctx = fd
  | (_, SysBlock) => False
  end.
Proof. exact (register_inotify_files_outcome ["/tmp/a"] 1 demo_w0). Defined.

Definition demo_st_read : pstate kstate := Eval vm_compute in
  match read_inotify_events 10 3 (inotifies demo_ctx) 1 demo_st0' with
  | Done _ st => st
  | _ => demo_st0'
  end.

Lemma read_inotify_events_drains_witness :
  read_inotify_events 10 3 (inotifies demo_ctx) 1 demo_st0' = Done tt demo_st_read /\
  pending 3 demo_st_read = 0%nat.
Proof.
  assert (Hr : read_inotify_events 10 3 (inotifies demo_ctx) 1 demo_st0' = Done tt demo_st_read)
    by (vm_compute; reflexivity).
  split; [exact Hr|]. exact (read_inotify_events_drains _ _ _ _ _ _ Hr).
Defined.

Lemma main_iter_drains_witness :
  main_iter 10 (epoll_poller_ops demo_ep) demo_ctx 1 demo_st0' = Done tt demo_st1 /\
  exists pev n w1,
    poll (epoll_poller_ops demo_ep) (replicate NUM_EVENTS (mk_poller_event 0))
      (Z.of_nat NUM_EVENTS) (p_world demo_st0') = Done (pev, n) w1 /\
    (forall fd, fd ∈ pe_fd <$> take (Z.to_nat n) pev -> pending fd demo_st1 = 0%nat) /\
    (wait_contract (ps_reg (epoll_poller_spec demo_ep) (kern demo_st0')) (pe_fd <$> take (Z.to_nat n) pev) \/
     pe_fd <$> take (Z.to_nat n) pev = replicate NUM_EVENTS 0).
Proof.
  assert (Hr : main_iter 10 (epoll_poller_ops demo_ep) demo_ctx 1 demo_st0' = Done tt demo_st1)
    by (vm_compute; reflexivity).
  split; [exact Hr|].
  apply (main_iter_drains 10 _ (epoll_poller_spec demo_ep) demo_ctx 1 demo_st0' demo_st1); [|exact Hr].
  intros fd e Hx. cbn in Hx. apply list_elem_of_singleton in Hx. by injection Hx as -> ->.
Defined.

Lemma dispatch_event_spec_witness :
  exists st', dispatch_event 3 "/tmp/a" (mk_event 1 IN_CREATE 0 16 "x") demo_st0' = Done tt st' /\
    w_out (p_world st') = w_out (p_world demo_st0') ++
      (inspect_inotify_event (mk_event 1 IN_CREATE 0 16 "x")).2 ++
      [event_line (path_of "/tmp/a" "x") (inspect_inotify_event (mk_event 1 IN_CREATE 0 16 "x")).1 "x"] /\
    w_err (p_world st') = w_err (p_world demo_st0') /\ p_buf st' = p_buf demo_st0' /\
    (if IN_CREATE &? IN_CREATE
     then exists r, sys_inotify_add_watch (w_kern (p_world demo_st0')) 3 (path_of "/tmp/a" "x")
                      default_events = (w_kern (p_world st'), r)
     else w_kern (p_world st') = w_kern (p_world demo_st0')).
Proof. exact (dispatch_event_spec 3 "/tmp/a" (mk_event 1 IN_CREATE 0 16 "x") demo_st0'). Defined.

Lemma read_loop_fatal_witness :
  sys_read (kern demo_st0') 7 (Z.to_nat READ_BUF_SIZE) = (kern demo_st0', SysErr EBADF) /\
  read_loop 10 7 (inotifies demo_ctx) 1 demo_st0' =
  Fatal ("read(" +:+ fmt_d 7 +:+ "): " +:+ strerror EBADF)
    (mk_pstate (mk_world (kern demo_st0') (out demo_st0')
                  (w_err (p_world demo_st0') ++ ["fatal error: " +:+ ("read(" +:+ fmt_d 7 +:+ "): " +:+ strerror EBADF)]))
       (p_buf demo_st0')).
Proof.
  assert (Hr : sys_read (kern demo_st0') 7 (Z.to_nat READ_BUF_SIZE) = (kern demo_st0', SysErr EBADF))
    by (vm_compute; reflexivity).
  split; [exact Hr|]. exact (read_loop_fatal 9 7 (inotifies demo_ctx) 1 demo_st0' _ EBADF Hr ltac:(done) ltac:(done)).
Defined.

(** A record of watch descriptor 7, which the registry does not hold. *)
Definition demo_st_stale : pstate kstate :=
  mk_pstate (set_kern (post (ev 7 IN_MODIFY "q") demo_k1) demo_w1) buf0.

(** The kernel after that record is read: the wakeup stays pending. *)
Definition demo_k_stale' : kstate := Eval vm_compute in
  fst (sys_read (kern demo_st_stale) 3 (Z.to_nat READ_BUF_SIZE)).

Lemma read_loop_stale_handle_witness :
  sys_read (kern demo_st_stale) 3 (Z.to_nat READ_BUF_SIZE) =
    (demo_k_stale', SysOk (encode_event (ev 7 IN_MODIFY "q"))) /\
  indexof (inotifies demo_ctx) 1
    (ev_wd (decode_event (buf_store (p_buf demo_st_stale) (encode_event (ev 7 IN_MODIFY "q"))))) = -1 /\
  read_loop 10 3 (inotifies demo_ctx) 1 demo_st_stale =
  read_loop 9 3 (inotifies demo_ctx) 1
    (mk_pstate (set_kern demo_k_stale' (p_world demo_st_stale))
       (buf_store (p_buf demo_st_stale) (encode_event (ev 7 IN_MODIFY "q")))).
Proof.
  assert (Hr : sys_read (kern demo_st_stale) 3 (Z.to_nat READ_BUF_SIZE) =
                 (demo_k_stale', SysOk (encode_event (ev 7 IN_MODIFY "q")))) by (vm_compute; reflexivity).
  assert (Hi : indexof (inotifies demo_ctx) 1
    (ev_wd (decode_event (buf_store (p_buf demo_st_stale) (encode_event (ev 7 IN_MODIFY "q"))))) = -1)
    by (vm_compute; reflexivity).
  split; [exact Hr|]. split; [exact Hi|].
  exact (read_loop_stale_handle 9 3 (inotifies demo_ctx) 1 demo_st_stale _ _ Hr Hi).
Defined.

(** ** The unused [inotify_per_file] *)

Definition pf_argv : list string := ["inotify"; "/tmp/a"; "/tmp/b"].
Definition pf_w0 : world kstate := mk_world (boot [("/tmp/a", 10); ("/tmp/b", 11)]) [] [].
(** After the setup: epoll instance 3, inotify instances 4 ([/tmp/a]) and
    5 ([/tmp/b]), each with its watch descriptor 1. *)
Definition pf_w1 : world kstate := Eval vm_compute in
  match per_file_setup pf_argv pf_w0 with Done _ w => w | _ => pf_w0 end.
(** A write in [/tmp/a] and a creation in [/tmp/b], then the wait. *)
Definition pf_st0 : pstate kstate :=
  mk_pstate (set_kern (env_post 5 (ev 1 IN_CREATE "y") (env_post 4 (ev 1 IN_MODIFY "x") (w_kern pf_w1)))
               pf_w1) buf0.
Definition pf_ready : list epoll_event := [mk_epoll_event EPOLLIN 5; mk_epoll_event EPOLLIN 4].
Lemma per_file_setup_spec_witness :
  per_file_setup pf_argv pf_w0 = Done 3 pf_w1 /\
  Forall (fun a => is_Some (obs_inode (w_kern pf_w0) a)) (drop 1 pf_argv) /\
  (0 <= 3 -> epollin_self (w_kern pf_w1) 3).
Proof.
  assert (Hs : per_file_setup pf_argv pf_w0 = Done 3 pf_w1) by (vm_compute; reflexivity).
  split; [exact Hs|]. exact (per_file_setup_spec _ _ _ _ Hs).
Defined.

(** ** The edge-triggered obligation on the model kernel *)

(** The environment of the witnesses: it leaves the epoll instances alone
    and its records come with wakeups. *)
Definition kwake (k k' : kstate) : Prop :=
  ks_ep k' = ks_ep k /\ (et_ok k 4 3 -> et_ok k' 4 3).

Lemma alookup_elem {A} (x : Z) (l : list (Z * A)) a : alookup x l = Some a -> (x, a) ∈ l.
Proof.
  induction l as [|[y b] t IH]; [done|]. simpl.
  destruct (Z.eqb_spec x y) as [->|]; intros Hl; [injection Hl as ->; by left|right; by apply IH].
Qed.

(** A record posted by another process keeps the obligation: it wakes
    every epoll instance that watches its descriptor. *)
Lemma env_post_et epfd fd f e (k : kstate) : et_ok k epfd fd -> et_ok (env_post f e k) epfd fd.
Proof.
  unfold et_ok. cbn. unfold k_obs_interest, k_obs_queued, k_obs_ready. cbn. intros Het Hreg Hq.
  apply list_elem_of_fmap. destruct (Z.eq_dec f fd) as [<-|Hne].
  - destruct (alookup epfd (ks_ep k)) as [il|] eqn:Hil; [|by apply elem_of_nil in Hreg].
    exists (epfd, f). split; [done|]. apply list_elem_of_filter. split; [done|].
    apply elem_of_app. left. apply list_elem_of_fmap. exists (epfd, il). split; [done|].
    apply list_elem_of_filter. split; [exact Hreg|]. by apply alookup_elem.
  - rewrite alookup_aupdate_ne in Hq by done.
    specialize (Het Hreg Hq). apply list_elem_of_fmap in Het as ([e' fd'] & Hfd & Hx).
    exists (e', fd'). split; [done|]. apply list_elem_of_filter in Hx as [He' Hx].
    apply list_elem_of_filter. split; [done|]. apply elem_of_app. by right.
Qed.

Lemma demo_create_kwake k : kwake k (demo_create k).
Proof. split; [reflexivity|]. intros Het. apply env_post_et. exact Het. Qed.

Lemma demo_wake_reach : rtc (sys_step kwake (epoll_poller_ops demo_ep) demo_ctx 1) demo_st0 demo_st0'.
Proof. apply rtc_once. apply (step_env kwake _ _ _ demo_st0 (demo_create demo_k1)), demo_create_kwake. Qed.

Lemma inotify_no_lost_wakeup_witness :
  main_start ["inotify"; "/tmp/a"] demo_w0 = Done (demo_ctx, demo_ep) demo_w1 /\
  rtc (sys_step kwake (epoll_poller_ops demo_ep) demo_ctx (length ["inotify"; "/tmp/a"] - 1))
    (mk_pstate demo_w1 buf0) demo_st0' /\
  (0 < obs_queued (kern demo_st0') (inofd demo_ctx))%nat /\
  match main_iter 10 (epoll_poller_ops demo_ep) demo_ctx (length ["inotify"; "/tmp/a"] - 1) demo_st0' with
  | Done _ _ | Fatal _ _ => True
  | _ => False
  end.
Proof.
  assert (Hs : main_start ["inotify"; "/tmp/a"] demo_w0 = Done (demo_ctx, demo_ep) demo_w1)
    by (vm_compute; reflexivity).
  assert (Hq : (0 < obs_queued (kern demo_st0') (inofd demo_ctx))%nat) by (vm_compute; lia).
  split; [exact Hs|]. split; [exact demo_wake_reach|]. split; [exact Hq|].
  apply (inotify_no_lost_wakeup kwake ["inotify"; "/tmp/a"] demo_w0 demo_ctx demo_ep demo_w1 buf0 demo_st0' 10).
  - intros k k' [He _]. cbn. unfold k_obs_interest. by rewrite He.
  - by intros k k' [_ Hw].
  - exact Hs.
  - cbn. lia.
  - exact demo_wake_reach.
  - cbn. left.
  - exact Hq.
  - apply demo_pending. lia.
Defined.

(** ** Descriptor 0 *)

(** The inotify instance got descriptor 0 (standard input was closed) and
    is registered with itself as data: [epoll_wait] reports data [0], which
    [epoll_poll] does not keep. *)
Definition fd0_k : kstate :=
  mk_kstate demo_fs 5 [(0, mk_ino [(1, 10)] 2 [ev 1 IN_CREATE "x"])]
    [(4, [(0, mk_epoll_event (Z.lor EPOLLIN EPOLLET) 0)])] 0 [(4, 0)].
Definition fd0_st : pstate kstate := mk_pstate (mk_world fd0_k [] []) buf0.
Definition fd0_k' : kstate := Eval vm_compute in fst (sys_epoll_wait fd0_k 4 NUM_EVENTS).

Lemma main_iter_nothing_kept_witness :
  sys_epoll_wait (kern fd0_st) (epollfd demo_ep) NUM_EVENTS = (fd0_k', SysOk [mk_epoll_event EPOLLIN 0]) /\
  kept_events [mk_epoll_event EPOLLIN 0] = [] /\
  main_iter 10 (epoll_poller_ops demo_ep) (mk_ctx 0 [mk_inotify 1 (Some "/tmp/a")]) 1 fd0_st =
  drain_ready 10 (replicate NUM_EVENTS (mk_poller_event 0)) [mk_inotify 1 (Some "/tmp/a")] 1
    (mk_pstate (set_kern fd0_k' (p_world fd0_st)) (p_buf fd0_st)).
Proof.
  assert (Hw : sys_epoll_wait (kern fd0_st) (epollfd demo_ep) NUM_EVENTS =
               (fd0_k', SysOk [mk_epoll_event EPOLLIN 0])) by (vm_compute; reflexivity).
  assert (Hk : kept_events [mk_epoll_event EPOLLIN 0] = []) by reflexivity.
  split; [exact Hw|]. split; [exact Hk|]. exact (main_iter_nothing_kept 10 _ _ 1 _ _ _ Hw Hk).
Defined.

(** ** Records read together *)

(** Two files created together: both records are queued before the turn. *)
Definition demo_k2 : kstate := post (ev 1 IN_CREATE "z") (post (ev 1 IN_CREATE "y") demo_k1).
Definition demo_st2 : pstate kstate := mk_pstate (set_kern demo_k2 demo_w1) buf0.
Definition demo_k2' : kstate := Eval vm_compute in fst (sys_read demo_k2 3 (Z.to_nat READ_BUF_SIZE)).

Lemma read_loop_head_only_witness :
  sys_read (kern demo_st2) 3 (Z.to_nat READ_BUF_SIZE) =
    (demo_k2', SysOk (encode_event (ev 1 IN_CREATE "y") ++ encode_event (ev 1 IN_CREATE "z"))) /\
  read_loop 10 3 (inotifies demo_ctx) 1 demo_st2 =
  (dispatch_event 3 "/tmp/a" (mk_event 1 IN_CREATE 0 (name_len "y") "y") ;;;
   read_loop 9 3 (inotifies demo_ctx) 1)
    (mk_pstate (set_kern demo_k2' (p_world demo_st2))
       (buf_store (p_buf demo_st2) (encode_event (ev 1 IN_CREATE "y") ++ encode_event (ev 1 IN_CREATE "z")))).
Proof.
  assert (Hr : sys_read (kern demo_st2) 3 (Z.to_nat READ_BUF_SIZE) =
    (demo_k2', SysOk (encode_event (ev 1 IN_CREATE "y") ++ encode_event (ev 1 IN_CREATE "z"))))
    by (vm_compute; reflexivity).
  assert (Hok : kevent_ok (ev 1 IN_CREATE "y")).
  { unfold kevent_ok, IN_CREATE, NAME_MAX. simpl. repeat split; try lia.
    all: repeat constructor; discriminate. }
  split; [exact Hr|].
  exact (read_loop_head_only 9 3 (inotifies demo_ctx) 1 demo_st2 _ _ _ 1 "/tmp/a" Hr Hok
           ltac:(discriminate) ltac:(vm_compute; discriminate) ltac:(reflexivity)).
Defined.

(** ** The unused watcher reads one record per ready descriptor *)

Definition pf_read : kstate * sysret (list Z) := Eval vm_compute in
  sys_read (kern pf_st0) 5 (Z.to_nat READ_BUF_SIZE).

Lemma per_file_events_read_witness :
  sys_read (kern pf_st0) (ep_data_fd (mk_epoll_event EPOLLIN 5)) (Z.to_nat READ_BUF_SIZE) =
    (pf_read.1, pf_read.2) /\
  per_file_events [mk_epoll_event EPOLLIN 5; mk_epoll_event EPOLLIN 4] pf_st0 =
  match pf_read.2 with
  | SysOk data =>
      per_file_events [mk_epoll_event EPOLLIN 4]
        (mk_pstate (mk_world pf_read.1 (out pf_st0 ++ [ready_line (mk_epoll_event EPOLLIN 5);
                                            mask_line (decode_event (buf_store (p_buf pf_st0) data))])
                      (w_err (p_world pf_st0)))
           (buf_store (p_buf pf_st0) data))
  | SysErr err =>
      Fatal ("read: " +:+ strerror err)
        (mk_pstate (mk_world pf_read.1 (out pf_st0 ++ [ready_line (mk_epoll_event EPOLLIN 5)])
                      (w_err (p_world pf_st0) ++ ["fatal error: " +:+ ("read: " +:+ strerror err)]))
           (p_buf pf_st0))
  | SysBlock =>
      Blocked (mk_pstate (mk_world (kern pf_st0) (out pf_st0 ++ [ready_line (mk_epoll_event EPOLLIN 5)])
                            (w_err (p_world pf_st0))) (p_buf pf_st0))
  end.
Proof.
  assert (Hr : sys_read (kern pf_st0) (ep_data_fd (mk_epoll_event EPOLLIN 5)) (Z.to_nat READ_BUF_SIZE) =
    (pf_read.1, pf_read.2)) by (vm_compute; reflexivity).
  split; [exact Hr|]. exact (per_file_events_read _ _ _ _ _ Hr).
Defined.

(** ** The registration's error reports *)

Lemma register_reports_failures_witness :
  register_inotify_files ["/tmp/a"; "/nope"] (length ["/tmp/a"; "/nope"]) demo_w0 =
    Done (mk_ctx 3 [mk_inotify 1 (Some "/tmp/a"); empty_slot])
      (demo_reg_world ["inotify_add_watch('/nope') error: No such file or directory"]) /\
  exists msgs, Forall (fun m => exists e, m = strerror e) msgs /\
    length msgs = length (failed_args ["/tmp/a"; "/nope"] [mk_inotify 1 (Some "/tmp/a"); empty_slot]) /\
    w_err (demo_reg_world ["inotify_add_watch('/nope') error: No such file or directory"]) =
    w_err demo_w0 ++ zip_with add_watch_error_line
                       (failed_args ["/tmp/a"; "/nope"] [mk_inotify 1 (Some "/tmp/a"); empty_slot]) msgs.
Proof.
  assert (Hs : register_inotify_files ["/tmp/a"; "/nope"] (length ["/tmp/a"; "/nope"]) demo_w0 =
    Done (mk_ctx 3 [mk_inotify 1 (Some "/tmp/a"); empty_slot])
      (demo_reg_world ["inotify_add_watch('/nope') error: No such file or directory"]))
    by (vm_compute; reflexivity).
  split; [exact Hs|]. exact (register_reports_failures _ _ _ _ Hs).
Defined.
